(** * formae-plugin-sftp: the asynchronous SFTP client and the plugin verbs

    A shallow embedding of [pkg/asyncsftp] (operation records, the operation
    store, the upload and delete goroutines) and of the plugin in [sftp.go]
    (Create, Read, Update, Delete, Status, List), followed by the properties
    of the specification that are settled on it.

    Conventions of the embedding.
    - Go strings are [string] (a list of bytes), [os.FileMode] is [N],
      [int64] sizes are [Z], [time.Time] is [Z].
    - A [*Operation] is a location in [heap]; [c.operations] maps ids to
      locations, so the store and the goroutine that executes a job share
      the record as they do in Go.
    - A goroutine is a continuation ([goroutine]); [exec] runs it up to its
      next access to shared state (a call of the SFTP connection, a write to
      the record).  [sched] lets one goroutine take one such step.
    - The SFTP server, [encoding/json], [net/url], [ssh.Dial] and the process
      environment are outside the repository; they appear through [Remote]
      and [Env]. *)

From Stdlib Require Import Ascii String ZArith NArith OctalString DecimalString
  DecimalNat.
From stdpp Require Import gmap strings list fin_maps.

Local Open Scope string_scope.

(** ** Go errors *)

(** An error produced by a library outside the repository (the SFTP
    connection, ssh, json, url): its text, and whether [os.IsNotExist]
    holds of it. *)
Record LibError := {
  is_not_exist : bool;
  lib_message : string;
}.

(** The error values the repository builds: the sentinel [ErrNotFound],
    [fmt.Errorf] without and with a wrapped error ([%w]), and library errors
    passed through. *)
Inductive error :=
| ErrNotFound
| Errorf (msg : string)
| Errorf_w (pre : string) (wrapped : error)
| FromLib (e : LibError).

Fixpoint Error (e : error) : string :=
  match e with
  | ErrNotFound => "file not found"
  | Errorf msg => msg
  | Errorf_w pre e' => pre +:+ Error e'
  | FromLib e' => lib_message e'
  end.

(** [errors.Is(err, asyncsftp.ErrNotFound)]: follows the [%w] chain. *)
Fixpoint errors_Is_ErrNotFound (e : error) : bool :=
  match e with
  | ErrNotFound => true
  | Errorf_w _ e' => errors_Is_ErrNotFound e'
  | _ => false
  end.

(** [os.IsNotExist], applied by the code to errors of the SFTP connection. *)
Definition os_IsNotExist (e : LibError) : bool := is_not_exist e.

(** ** Numbers and text *)

Definition FileMode := N.
Definition Time := Z.

(** [FileMode.Perm()]: the nine permission bits. *)
Definition Perm (m : FileMode) : FileMode := N.land m 511.

Definition octal_digits (n : N) : string :=
  match n with
  | N0 => "0"
  | Npos p => OctalString.Raw.of_pos p EmptyString
  end.

Fixpoint zeros (k : nat) : string :=
  match k with
  | O => EmptyString
  | S k' => String "0"%char (zeros k')
  end.

(** [fmt.Sprintf("%04o", n)]: octal, padded with zeros to four digits. *)
Definition Sprintf_04o (n : N) : string :=
  let d := octal_digits n in
  zeros (4 - String.length d) +:+ d.

(** The runes of which [isSpace] of the scanner of [fmt] holds, by their
    UTF-8 encoding (the newline apart, at which the scan stops): the
    blanks of ASCII; U+0085 and U+00A0; U+1680, U+2000 to U+200A, U+2028,
    U+2029, U+202F, U+205F and U+3000. *)
Definition is_blank (a : ascii) : bool :=
  bool_decide (a ∈ [" "; "009"; "011"; "012"; "013"]%char).

Definition is_blank2 (a b : ascii) : bool :=
  bool_decide (a = "194"%char) && bool_decide (b ∈ ["133"; "160"]%char).

Definition is_blank3 (a b c : ascii) : bool :=
  bool_decide (a = "225" ∧ b = "154" ∧ c = "128")%char
  || bool_decide (a = "226" ∧ b = "128"
                  ∧ c ∈ ["128"; "129"; "130"; "131"; "132"; "133"; "134";
                         "135"; "136"; "137"; "138"; "168"; "169"; "175"])%char
  || bool_decide (a = "226" ∧ b = "129" ∧ c = "159")%char
  || bool_decide (a = "227" ∧ b = "128" ∧ c = "128")%char.

Fixpoint skip_blanks (s : string) : string :=
  match s with
  | String a s1 =>
      if is_blank a then skip_blanks s1
      else match s1 with
           | String b s2 =>
               if is_blank2 a b then skip_blanks s2
               else match s2 with
                    | String c s3 =>
                        if is_blank3 a b c then skip_blanks s3 else s
                    | EmptyString => s
                    end
           | EmptyString => s
           end
  | EmptyString => s
  end.

Fixpoint octal_prefix (s : string) (acc : option N) : option N :=
  match s with
  | String a s' =>
      match OctalString.ascii_to_digit a with
      | Some d => octal_prefix s' (Some (d + 8 * default 0 acc))%N
      | None => acc
      end
  | EmptyString => acc
  end.

(** [fmt.Sscanf(s, "%o", &perm)] on a [FileMode] (a [uint32]), given the
    value [perm] holds before: blanks are skipped (a newline is none: the
    scan fails at it), the longest run of octal digits is read; with no
    digit, or a value that does not fit 32 bits, the scan fails and [perm]
    keeps its value.  (The result of Sscanf is
    discarded by every caller.) *)
Definition Sscanf_o (s : string) (perm : FileMode) : FileMode :=
  match octal_prefix (skip_blanks s) None with
  | Some n => if (n <? 2 ^ 32)%N then n else perm
  | None => perm
  end.

(** ** The SFTP server, as the connection shows it *)

Record RemoteFile := {
  is_dir : bool;
  data : string;
  mode : FileMode;
  mtime : Time;
}.

(** What [Stat] returns ([os.FileInfo]). *)
Record FileStat := {
  stat_Mode : FileMode;
  stat_Size : Z;
  stat_ModTime : Time;
  stat_IsDir : bool;
}.

(** The server: its nodes by absolute path, the outcome it has in store for
    the coming calls ([Some e]: the call fails with [e] and changes nothing;
    [None], or no entry: the call is served), its clock, and the mode it
    gives a new file. *)
Record Remote := {
  files : gmap string RemoteFile;
  faults : list (option LibError);
  rclock : Time;
  create_mode : FileMode;
}.

Definition ENOENT : LibError :=
  {| is_not_exist := true; lib_message := "file does not exist" |}.
Definition EFAILURE : LibError :=
  {| is_not_exist := false; lib_message := "failure" |}.

Definition with_files (fs : gmap string RemoteFile) (r : Remote) : Remote :=
  {| files := fs; faults := faults r; rclock := (rclock r + 1)%Z;
     create_mode := create_mode r |}.

(** The server's answer to the next call: a fault, or service. *)
Definition next_fault (r : Remote) : option LibError * Remote :=
  match faults r with
  | [] => (None, r)
  | f :: fs =>
      (f, {| files := files r; faults := fs; rclock := rclock r;
             create_mode := create_mode r |})
  end.

(** One call of the connection: [serve] is what the server does when it
    serves the call. *)
Definition call {A} (serve : Remote → (LibError + A) * Remote) (r : Remote)
  : (LibError + A) * Remote :=
  let '(f, r') := next_fault r in
  match f with
  | Some e => (inl e, r')
  | None => serve r'
  end.

Definition stat_of (f : RemoteFile) : FileStat :=
  {| stat_Mode := mode f; stat_Size := Z.of_nat (String.length (data f));
     stat_ModTime := mtime f; stat_IsDir := is_dir f |}.

Definition sftp_Stat (path : string) : Remote → (LibError + FileStat) * Remote :=
  call (λ r, match files r !! path with
             | Some f => (inr (stat_of f), r)
             | None => (inl ENOENT, r)
             end).

(** A file handle is the path it was opened on. *)
Definition sftp_Open (path : string) : Remote → (LibError + string) * Remote :=
  call (λ r, match files r !! path with
             | Some _ => (inr path, r)
             | None => (inl ENOENT, r)
             end).

(** [io.ReadAll(f)]. *)
Definition sftp_ReadAll (f : string) : Remote → (LibError + string) * Remote :=
  call (λ r, match files r !! f with
             | Some n => if is_dir n then (inl EFAILURE, r) else (inr (data n), r)
             | None => (inl EFAILURE, r)
             end).

(** [Create]: creates the file or truncates it. *)
Definition sftp_Create (path : string) : Remote → (LibError + string) * Remote :=
  call (λ r, match files r !! path with
             | Some n =>
                 if is_dir n then (inl EFAILURE, r)
                 else (inr path,
                       with_files (<[path := {| is_dir := false; data := EmptyString;
                                                mode := mode n; mtime := rclock r |}]>
                                     (files r)) r)
             | None =>
                 (inr path,
                  with_files (<[path := {| is_dir := false; data := EmptyString;
                                           mode := create_mode r; mtime := rclock r |}]>
                                (files r)) r)
             end).

(** [f.Write(content)] on a handle just created: the file holds [content].
    A handle whose file was removed meanwhile still takes the write. *)
Definition sftp_Write (f : string) (content : string)
  : Remote → (LibError + unit) * Remote :=
  call (λ r, match files r !! f with
             | Some n =>
                 (inr (),
                  with_files (<[f := {| is_dir := is_dir n; data := content;
                                        mode := mode n; mtime := rclock r |}]>
                                (files r)) r)
             | None => (inr (), r)
             end).

Definition sftp_Close (f : string) : Remote → (LibError + unit) * Remote :=
  call (λ r, (inr (), r)).

Definition sftp_Chmod (path : string) (m : FileMode)
  : Remote → (LibError + unit) * Remote :=
  call (λ r, match files r !! path with
             | Some n =>
                 (inr (),
                  with_files (<[path := {| is_dir := is_dir n; data := data n;
                                           mode := m; mtime := mtime n |}]>
                                (files r)) r)
             | None => (inl ENOENT, r)
             end).

Fixpoint strip_prefix (p s : string) : option string :=
  match p, s with
  | EmptyString, _ => Some s
  | String a p', String b s' => if Ascii.eqb a b then strip_prefix p' s' else None
  | _, EmptyString => None
  end.

Fixpoint has_slash (s : string) : bool :=
  match s with
  | EmptyString => false
  | String a s' => if Ascii.eqb a "/"%char then true else has_slash s'
  end.

(** The name of [path] inside directory [dir], when [path] is an entry of
    [dir]. *)
Definition entry_name (dir path : string) : option string :=
  match strip_prefix (dir +:+ "/") path with
  | Some name =>
      if bool_decide (name = EmptyString) || has_slash name then None else Some name
  | None => None
  end.

(** The entries of [dir]: name and whether it is a directory. *)
Definition entries (dir : string) (fs : gmap string RemoteFile)
  : list (string * bool) :=
  omap (λ pn, (λ name, (name, is_dir pn.2)) <$> entry_name dir pn.1)
       (map_to_list fs).

(** [Remove]: a file, or an empty directory. *)
Definition sftp_Remove (path : string) : Remote → (LibError + unit) * Remote :=
  call (λ r, match files r !! path with
             | Some n =>
                 if is_dir n && negb (bool_decide (entries path (files r) = []))
                 then (inl EFAILURE, r)
                 else (inr (), with_files (delete path (files r)) r)
             | None => (inl ENOENT, r)
             end).

Definition sftp_ReadDir (dir : string)
  : Remote → (LibError + list (string * bool)) * Remote :=
  call (λ r, match files r !! dir with
             | Some n =>
                 if is_dir n then (inr (entries dir (files r)), r)
                 else (inl EFAILURE, r)
             | None => (inl ENOENT, r)
             end).

(** ** What the process finds around it *)

(** What [url.Parse] makes of a URL, as far as the code looks at it. *)
Record URL := {
  Scheme : string;
  Hostname : string;
  Port : string;
}.

(** The libraries and the process environment the code calls into:
    [os.Getenv], [url.Parse], [ssh.Dial] (address, user, password) and
    [sftp.NewClient] on the dialled connection ([None]: no error), and
    [time.Time.Format] with the RFC 3339 layout. *)
Record Env := {
  Getenv : string → string;
  url_Parse : string → LibError + URL;
  ssh_Dial : string → string → string → option LibError;
  sftp_NewClient : string → option LibError;
  time_Format : Time → string;
}.

(** A [json.RawMessage] read into a struct of type [A]: [json.Unmarshal]
    fails on it, or fills the struct; a field the text does not give keeps
    its zero value (the empty string, 0). *)
Inductive RawMessage (A : Type) :=
| Malformed (e : LibError)
| Encodes (v : A).
Arguments Malformed {A} e.
Arguments Encodes {A} v.

Definition json_Unmarshal {A} (data : RawMessage A) : LibError + A :=
  match data with
  | Malformed e => inl e
  | Encodes v => inr v
  end.

(** ** Package asyncsftp: types *)

Module asyncsftp.

Inductive OperationState := StateInProgress | StateCompleted | StateFailure.

Inductive OperationType := OperationTypeUpload | OperationTypeDelete.

#[global] Instance OperationState_eq_dec : EqDecision OperationState.
Proof. solve_decision. Defined.

#[global] Instance OperationType_eq_dec : EqDecision OperationType.
Proof. solve_decision. Defined.

Record FileInfo := {
  Path : string;
  Content : string;
  Permissions : string;
  Size : Z;
  ModifiedAt : Time;
}.

Record Operation := {
  ID : string;
  op_Type : OperationType;
  op_Path : string;
  State : OperationState;
  op_Error : string;
  Result : option FileInfo;
  StartedAt : Time;
  CompletedAt : Time;
}.

(** [Operation.Copy]: the record and its [Result] are copied; as a value the
    copy is the record. *)
Definition Copy (o : Operation) : Operation :=
  {| ID := ID o; op_Type := op_Type o; op_Path := op_Path o; State := State o;
     op_Error := op_Error o;
     Result := match Result o with
               | Some r => Some r
               | None => None
               end;
     StartedAt := StartedAt o; CompletedAt := CompletedAt o |}.

(** ** Goroutines and the machine *)

Abbreviation loc := nat.

(** The points of [doUpload] and [doDelete] at which shared state is
    accessed next, with the local variables that are live there.  The
    numbers are lines of the source. *)
Inductive goroutine :=
| doUpload_Create (op : loc) (content : string) (permissions : FileMode)  (* 216 *)
| doUpload_Write (op : loc) (f : string) (content : string)
    (permissions : FileMode)                                                (* 223 *)
| doUpload_Close (op : loc) (f : string) (err : option LibError)
    (content : string) (permissions : FileMode)                             (* 224 *)
| doUpload_Chmod (op : loc) (content : string) (permissions : FileMode)   (* 233 *)
| doUpload_Stat (op : loc) (content : string)                             (* 239 *)
| doUpload_Result (op : loc) (content : string) (stat : FileStat)         (* 245 *)
| doDelete_Remove (op : loc)                                              (* 257 *)
| completeOperation_call (op : loc) (state : OperationState)
    (err : option error).                                                   (* 271 *)

(** The state the client and its goroutines share: the server, the Go heap
    of operation records, the goroutines that have not returned, the choices
    of the scheduler to come, the local clock and the uuid source. *)
Record World := {
  remote : Remote;
  heap : list Operation;
  goroutines : list goroutine;
  schedule : list nat;
  clock : Time;
  uuid_next : nat;
}.

Definition with_remote (r : Remote) (w : World) : World :=
  {| remote := r; heap := heap w; goroutines := goroutines w;
     schedule := schedule w; clock := clock w; uuid_next := uuid_next w |}.

Definition with_heap (h : list Operation) (w : World) : World :=
  {| remote := remote w; heap := h; goroutines := goroutines w;
     schedule := schedule w; clock := clock w; uuid_next := uuid_next w |}.

Definition with_goroutines (gs : list goroutine) (w : World) : World :=
  {| remote := remote w; heap := heap w; goroutines := gs;
     schedule := schedule w; clock := clock w; uuid_next := uuid_next w |}.

Definition with_schedule (s : list nat) (w : World) : World :=
  {| remote := remote w; heap := heap w; goroutines := goroutines w;
     schedule := s; clock := clock w; uuid_next := uuid_next w |}.

(** [time.Now()]. *)
Definition time_Now (w : World) : Time * World :=
  (clock w,
   {| remote := remote w; heap := heap w; goroutines := goroutines w;
      schedule := schedule w; clock := (clock w + 1)%Z;
      uuid_next := uuid_next w |}).

(** [uuid.New().String()]: the next identifier of the source. *)
Definition uuid_String (n : nat) : string :=
  "op-" +:+ NilEmpty.string_of_uint (Nat.to_uint n).

Definition uuid_New (w : World) : string * World :=
  (uuid_String (uuid_next w),
   {| remote := remote w; heap := heap w; goroutines := goroutines w;
      schedule := schedule w; clock := clock w;
      uuid_next := S (uuid_next w) |}).

(** A call of the connection from the world. *)
Definition on_remote {A} (f : Remote → (LibError + A) * Remote) (w : World)
  : (LibError + A) * World :=
  let '(res, r) := f (remote w) in (res, with_remote r w).

(** The client: its connection is the world's server; [operations] is the
    map of the store ([mu] guards it: each function below that takes the
    lock is one step). *)
Record Client := {
  operations : gmap string loc;
}.

(** [Config]: the connection settings. *)
Record Config := {
  Host : string;
  cfg_Port : string;
  Username : string;
  Password : string;
}.

(** [NewClient]: dials, opens the SFTP session, and starts with an empty
    store. *)
Definition NewClient (env : Env) (cfg : Config) : error + Client :=
  let addr := Host cfg +:+ ":" +:+ cfg_Port cfg in
  match ssh_Dial env addr (Username cfg) (Password cfg) with
  | Some err => inl (Errorf_w "ssh dial failed: " (FromLib err))
  | None =>
      match sftp_NewClient env addr with
      | Some err => inl (Errorf_w "sftp client failed: " (FromLib err))
      | None => inr {| operations := ∅ |}
      end
  end.

(** [completeOperation(op, state, err)].  It is given the record, not an id,
    and returns nothing. *)
Definition completeOperation (op : loc) (state : OperationState)
    (err : option error) (w : World) : World :=
  let '(now, w) := time_Now w in
  with_heap
    (alter (λ o, {| ID := ID o; op_Type := op_Type o; op_Path := op_Path o;
                    State := state;
                    op_Error := match err with
                                | Some e => Error e
                                | None => op_Error o
                                end;
                    Result := Result o; StartedAt := StartedAt o;
                    CompletedAt := now |}) op (heap w)) w.

(** [op.Result = &FileInfo{...}] (line 245): a write to the record outside
    the lock. *)
Definition set_Result (op : loc) (r : FileInfo) (w : World) : World :=
  with_heap
    (alter (λ o, {| ID := ID o; op_Type := op_Type o; op_Path := op_Path o;
                    State := State o; op_Error := op_Error o;
                    Result := Some r; StartedAt := StartedAt o;
                    CompletedAt := CompletedAt o |}) op (heap w)) w.

(** [op.Path], read through the pointer. *)
Definition path_of (op : loc) (w : World) : string :=
  default EmptyString (op_Path <$> heap w !! op).

(** One step of a goroutine: what remains of it ([None] when it returns)
    and the world after the step. *)
Definition exec (g : goroutine) (w : World) : option goroutine * World :=
  match g with
  | doUpload_Create op content permissions =>
      let '(res, w) := on_remote (sftp_Create (path_of op w)) w in
      match res with
      | inl err =>
          (Some (completeOperation_call op StateFailure
                   (Some (Errorf_w "create failed: " (FromLib err)))), w)
      | inr f => (Some (doUpload_Write op f content permissions), w)
      end
  | doUpload_Write op f content permissions =>
      let '(res, w) := on_remote (sftp_Write f content) w in
      match res with
      | inl err => (Some (doUpload_Close op f (Some err) content permissions), w)
      | inr _ => (Some (doUpload_Close op f None content permissions), w)
      end
  | doUpload_Close op f err content permissions =>
      let '(res, w) := on_remote (sftp_Close f) w in
      let err := match res, err with
                 | inl closeErr, None => Some closeErr
                 | _, _ => err
                 end in
      match err with
      | Some e =>
          (Some (completeOperation_call op StateFailure
                   (Some (Errorf_w "write failed: " (FromLib e)))), w)
      | None => (Some (doUpload_Chmod op content permissions), w)
      end
  | doUpload_Chmod op content permissions =>
      let '(res, w) := on_remote (sftp_Chmod (path_of op w) permissions) w in
      match res with
      | inl err =>
          (Some (completeOperation_call op StateFailure
                   (Some (Errorf_w "chmod failed: " (FromLib err)))), w)
      | inr _ => (Some (doUpload_Stat op content), w)
      end
  | doUpload_Stat op content =>
      let '(res, w) := on_remote (sftp_Stat (path_of op w)) w in
      match res with
      | inl err =>
          (Some (completeOperation_call op StateFailure
                   (Some (Errorf_w "stat failed: " (FromLib err)))), w)
      | inr stat => (Some (doUpload_Result op content stat), w)
      end
  | doUpload_Result op content stat =>
      (Some (completeOperation_call op StateCompleted None),
       set_Result op {| Path := path_of op w; Content := content;
                        Permissions := Sprintf_04o (Perm (stat_Mode stat));
                        Size := stat_Size stat;
                        ModifiedAt := stat_ModTime stat |} w)
  | doDelete_Remove op =>
      let '(res, w) := on_remote (sftp_Remove (path_of op w)) w in
      match res with
      | inl err =>
          if os_IsNotExist err
          then (Some (completeOperation_call op StateCompleted None), w)
          else (Some (completeOperation_call op StateFailure
                        (Some (Errorf_w "remove failed: " (FromLib err)))), w)
      | inr _ => (Some (completeOperation_call op StateCompleted None), w)
      end
  | completeOperation_call op state err =>
      (None, completeOperation op state err w)
  end.

(** [doUpload(op, content, permissions)] and [doDelete(op)] at their entry. *)
Definition doUpload (op : loc) (content : string) (permissions : FileMode)
  : goroutine := doUpload_Create op content permissions.

Definition doDelete (op : loc) : goroutine := doDelete_Remove op.

(** Goroutine [i] takes one step. *)
Definition run_goroutine (i : nat) (w : World) : World :=
  match goroutines w !! i with
  | Some g =>
      let '(g', w') := exec g w in
      with_goroutines
        match g' with
        | Some g'' => <[i := g'']> (goroutines w')
        | None => delete i (goroutines w')
        end w'
  | None => w
  end.

(** The scheduler lets one goroutine take a step: the one its next choice
    names, the oldest one once the choices are used up. *)
Definition sched (w : World) : World :=
  match schedule w with
  | [] => run_goroutine 0 w
  | n :: s =>
      run_goroutine (n `mod` length (goroutines w)) (with_schedule s w)
  end.

(** ** Package asyncsftp: the client *)

(** [go f]: the goroutine joins those that run. *)
Definition go (g : goroutine) (w : World) : World :=
  with_goroutines (goroutines w ++ [g]) w.

(** [&Operation{...}]: a new record on the heap. *)
Definition new_Operation (o : Operation) (w : World) : loc * World :=
  (length (heap w), with_heap (heap w ++ [o]) w).

Definition StartUpload (path content : string) (permissions : FileMode)
    (c : Client) (w : World) : string * Client * World :=
  let '(opID, w) := uuid_New w in
  let '(now, w) := time_Now w in
  let '(op, w) :=
    new_Operation {| ID := opID; op_Type := OperationTypeUpload; op_Path := path;
                     State := StateInProgress; op_Error := EmptyString;
                     Result := None; StartedAt := now; CompletedAt := 0%Z |} w in
  let c := {| operations := <[opID := op]> (operations c) |} in
  let w := go (doUpload op content permissions) w in
  (opID, c, w).

Definition StartDelete (path : string) (c : Client) (w : World)
  : string * Client * World :=
  let '(opID, w) := uuid_New w in
  let '(now, w) := time_Now w in
  let '(op, w) :=
    new_Operation {| ID := opID; op_Type := OperationTypeDelete; op_Path := path;
                     State := StateInProgress; op_Error := EmptyString;
                     Result := None; StartedAt := now; CompletedAt := 0%Z |} w in
  let c := {| operations := <[opID := op]> (operations c) |} in
  let w := go (doDelete op) w in
  (opID, c, w).

(** [GetStatus]: a copy of the record, or an error for an unknown id. *)
Definition GetStatus (operationID : string) (c : Client) (w : World)
  : error + Operation :=
  match operations c !! operationID with
  | Some op =>
      match heap w !! op with
      | Some o => inr (Copy o)
      | None => inl (Errorf ("operation not found: " +:+ operationID))
      end
  | None => inl (Errorf ("operation not found: " +:+ operationID))
  end.

Definition ReadFile (path : string) (w : World) : (error + FileInfo) * World :=
  let '(res, w) := on_remote (sftp_Stat path) w in
  match res with
  | inl err =>
      if os_IsNotExist err then (inl ErrNotFound, w)
      else (inl (Errorf_w "stat failed: " (FromLib err)), w)
  | inr stat =>
      let '(res, w) := on_remote (sftp_Open path) w in
      match res with
      | inl err => (inl (Errorf_w "open failed: " (FromLib err)), w)
      | inr f =>
          let '(res, w) := on_remote (sftp_ReadAll f) w in
          (* the deferred f.Close(), whose error is dropped *)
          let '(_, w) := on_remote (sftp_Close f) w in
          match res with
          | inl err => (inl (Errorf_w "read failed: " (FromLib err)), w)
          | inr content =>
              (inr {| Path := path; Content := content;
                      Permissions := Sprintf_04o (Perm (stat_Mode stat));
                      Size := stat_Size stat;
                      ModifiedAt := stat_ModTime stat |}, w)
          end
      end
  end.

Definition SetPermissions (path : string) (permissions : FileMode) (w : World)
  : option error * World :=
  let '(res, w) := on_remote (sftp_Chmod path permissions) w in
  match res with
  | inl err => (Some (FromLib err), w)
  | inr _ => (None, w)
  end.

Definition ListFiles (dir : string) (w : World)
  : (error + list string) * World :=
  let '(res, w) := on_remote (sftp_ReadDir dir) w in
  match res with
  | inl err =>
      if os_IsNotExist err then (inl ErrNotFound, w)
      else (inl (Errorf_w "readdir failed: " (FromLib err)), w)
  | inr entries =>
      (inr (omap (λ entry : string * bool,
                    if entry.2 then None else Some (dir +:+ "/" +:+ entry.1))
                 entries), w)
  end.

End asyncsftp.

(** ** Package resource of the plugin SDK: the types the plugin fills in *)

Module resource.

Inductive Operation :=
| OperationCreate | OperationUpdate | OperationDelete | OperationCheckStatus.

Inductive OperationStatus :=
| OperationStatusSuccess | OperationStatusFailure | OperationStatusInProgress.

Inductive OperationErrorCode :=
| OperationErrorCodeInvalidRequest
| OperationErrorCodeInternalFailure
| OperationErrorCodeNotFound.

#[global] Instance OperationStatus_eq_dec : EqDecision OperationStatus.
Proof. solve_decision. Defined.

#[global] Instance OperationErrorCode_eq_dec : EqDecision OperationErrorCode.
Proof. solve_decision. Defined.

End resource.

(** ** Package main: the plugin *)

Record TargetConfig := {
  cfg_URL : string;
}.

Record FileProperties := {
  Path : string;
  Content : string;
  Permissions : string;
  Size : Z;
  ModifiedAt : string;
}.

(** [resource.ProgressResult]; a field the code leaves out holds its zero
    value: the empty string, [None] for no error code and for no
    properties. *)
Record ProgressResult := {
  Operation : resource.Operation;
  OperationStatus : resource.OperationStatus;
  RequestID : string;
  NativeID : string;
  ResourceProperties : option FileProperties;
  ErrorCode : option resource.OperationErrorCode;
  StatusMessage : string;
}.

Record ReadResult := {
  read_ResourceType : string;
  read_Properties : option FileProperties;
  read_ErrorCode : option resource.OperationErrorCode;
}.

Record ListResult := {
  NativeIDs : list string;
  NextPageToken : option string;
}.

Record CreateRequest := {
  create_Properties : RawMessage FileProperties;
  create_TargetConfig : RawMessage TargetConfig;
}.

Record ReadRequest := {
  read_NativeID : string;
  req_ResourceType : string;
  read_TargetConfig : RawMessage TargetConfig;
}.

Record UpdateRequest := {
  update_NativeID : string;
  PriorProperties : RawMessage FileProperties;
  DesiredProperties : RawMessage FileProperties;
  update_TargetConfig : RawMessage TargetConfig;
}.

Record DeleteRequest := {
  delete_NativeID : string;
  delete_TargetConfig : RawMessage TargetConfig;
}.

Record StatusRequest := {
  status_RequestID : string;
}.

Record ListRequest := {
  list_TargetConfig : RawMessage TargetConfig;
  AdditionalProperties : gmap string string;
}.

Record Plugin := {
  client : option asyncsftp.Client;
}.

(** A failed [ProgressResult], as every verb builds it. *)
Definition failure (op : resource.Operation) (code : resource.OperationErrorCode)
    (msg : string) : ProgressResult :=
  {| Operation := op; OperationStatus := resource.OperationStatusFailure;
     RequestID := EmptyString; NativeID := EmptyString;
     ResourceProperties := None; ErrorCode := Some code;
     StatusMessage := msg |}.

Definition parseTargetConfig (data : RawMessage TargetConfig)
  : error + TargetConfig :=
  match json_Unmarshal data with
  | inl err => inl (Errorf_w "invalid target config: " (FromLib err))
  | inr cfg =>
      if bool_decide (cfg_URL cfg = EmptyString)
      then inl (Errorf "target config missing 'url'")
      else inr cfg
  end.

Definition parseFileProperties (data : RawMessage FileProperties)
  : error + FileProperties :=
  match json_Unmarshal data with
  | inl err => inl (Errorf_w "invalid file properties: " (FromLib err))
  | inr props =>
      if bool_decide (Path props = EmptyString)
      then inl (Errorf "file properties missing 'path'")
      else if bool_decide (Permissions props = EmptyString)
      then inr {| Path := Path props; Content := Content props;
                  Permissions := "0644"; Size := Size props;
                  ModifiedAt := ModifiedAt props |}
      else inr props
  end.

Section plugin.

Context (env : Env).

Definition parseURL (sftpURL : string) : error + string * string :=
  match url_Parse env sftpURL with
  | inl err => inl (Errorf_w "invalid URL: " (FromLib err))
  | inr u =>
      if bool_decide (Scheme u ≠ "sftp")
      then inl (Errorf ("expected sftp:// URL, got " +:+ Scheme u +:+ "://"))
      else
        let host := Hostname u in
        let port := Port u in
        let port := if bool_decide (port = EmptyString) then "22" else port in
        inr (host, port)
  end.

Definition getCredentials : error + string * string :=
  let username := Getenv env "SFTP_USERNAME" in
  let password := Getenv env "SFTP_PASSWORD" in
  if bool_decide (username = EmptyString) || bool_decide (password = EmptyString)
  then inl (Errorf "SFTP_USERNAME and SFTP_PASSWORD must be set")
  else inr (username, password).

(** [getClient]: the client of the plugin, created on first use. *)
Definition getClient (targetConfig : RawMessage TargetConfig) (p : Plugin)
  : (error + asyncsftp.Client) * Plugin :=
  match client p with
  | Some c => (inr c, p)
  | None =>
      match parseTargetConfig targetConfig with
      | inl err => (inl err, p)
      | inr cfg =>
          match parseURL (cfg_URL cfg) with
          | inl err => (inl err, p)
          | inr (host, port) =>
              match getCredentials with
              | inl err => (inl err, p)
              | inr (username, password) =>
                  match asyncsftp.NewClient env
                          {| asyncsftp.Host := host; asyncsftp.cfg_Port := port;
                             asyncsftp.Username := username;
                             asyncsftp.Password := password |} with
                  | inl err =>
                      (inl (Errorf_w "failed to create SFTP client: " err), p)
                  | inr c => (inr c, {| client := Some c |})
                  end
              end
          end
      end
  end.

(** The [FileProperties] built from a [FileInfo] before [json.Marshal]. *)
Definition props_of (fileInfo : asyncsftp.FileInfo) : FileProperties :=
  {| Path := asyncsftp.Path fileInfo; Content := asyncsftp.Content fileInfo;
     Permissions := asyncsftp.Permissions fileInfo;
     Size := asyncsftp.Size fileInfo;
     ModifiedAt := time_Format env (asyncsftp.ModifiedAt fileInfo) |}.

(** Every verb returns its result and a Go [error], which is always nil
    ([None]). *)

Definition Create (req : CreateRequest) (p : Plugin) (w : asyncsftp.World)
  : (ProgressResult * option error) * Plugin * asyncsftp.World :=
  match parseFileProperties (create_Properties req) with
  | inl err =>
      ((failure resource.OperationCreate
          resource.OperationErrorCodeInvalidRequest (Error err), None), p, w)
  | inr props =>
      let '(res, p) := getClient (create_TargetConfig req) p in
      match res with
      | inl err =>
          ((failure resource.OperationCreate
              resource.OperationErrorCodeInternalFailure (Error err), None), p, w)
      | inr c =>
          let perm : FileMode := 420%N in
          let perm :=
            if bool_decide (Permissions props ≠ EmptyString)
            then Sscanf_o (Permissions props) perm else perm in
          let '(requestID, c, w) :=
            asyncsftp.StartUpload (Path props) (Content props) perm c w in
          (({| Operation := resource.OperationCreate;
               OperationStatus := resource.OperationStatusInProgress;
               RequestID := requestID; NativeID := Path props;
               ResourceProperties := None; ErrorCode := None;
               StatusMessage := EmptyString |}, None),
           {| client := Some c |}, w)
      end
  end.

Definition Read (req : ReadRequest) (p : Plugin) (w : asyncsftp.World)
  : (ReadResult * option error) * Plugin * asyncsftp.World :=
  let '(res, p) := getClient (read_TargetConfig req) p in
  match res with
  | inl err =>
      (({| read_ResourceType := req_ResourceType req; read_Properties := None;
           read_ErrorCode := Some resource.OperationErrorCodeInternalFailure |},
        None), p, w)
  | inr c =>
      let '(res, w) := asyncsftp.ReadFile (read_NativeID req) w in
      match res with
      | inl err =>
          if errors_Is_ErrNotFound err
          then (({| read_ResourceType := req_ResourceType req;
                    read_Properties := None;
                    read_ErrorCode := Some resource.OperationErrorCodeNotFound |},
                 None), p, w)
          else (({| read_ResourceType := req_ResourceType req;
                    read_Properties := None;
                    read_ErrorCode :=
                      Some resource.OperationErrorCodeInternalFailure |},
                 None), p, w)
      | inr fileInfo =>
          (({| read_ResourceType := req_ResourceType req;
               read_Properties := Some (props_of fileInfo);
               read_ErrorCode := None |}, None), p, w)
      end
  end.

(** The wait loops of [Update] and [Delete] ([for { ... }], lines 329 and
    448): each turn reads the status of the job; while the job is in
    progress the scheduler lets a goroutine take a step and the loop turns
    again.  [fuel] bounds the number of turns; [None] is a loop that has not
    ended within them. *)

(** The loop of [Update]: [Some (Some r, w)] when the loop returns [r] from
    [Update], [Some (None, w)] when it breaks. *)
Fixpoint Update_wait (fuel : nat) (opID : string) (c : asyncsftp.Client)
    (w : asyncsftp.World) : option (option ProgressResult * asyncsftp.World) :=
  match fuel with
  | O => None
  | S fuel' =>
      match asyncsftp.GetStatus opID c w with
      | inl err =>
          Some (Some (failure resource.OperationUpdate
                        resource.OperationErrorCodeInternalFailure (Error err)), w)
      | inr op =>
          match asyncsftp.State op with
          | asyncsftp.StateCompleted => Some (None, w)
          | asyncsftp.StateFailure =>
              Some (Some (failure resource.OperationUpdate
                            resource.OperationErrorCodeInternalFailure
                            (asyncsftp.op_Error op)), w)
          | asyncsftp.StateInProgress =>
              Update_wait fuel' opID c (asyncsftp.sched w)
          end
      end
  end.

(** [Update], after the changes if any: reads the file back. *)
Definition Update_readback (req : UpdateRequest) (p : Plugin)
    (w : asyncsftp.World)
  : (ProgressResult * option error) * Plugin * asyncsftp.World :=
  let '(res, w) := asyncsftp.ReadFile (update_NativeID req) w in
  match res with
  | inl err =>
      ((failure resource.OperationUpdate
          resource.OperationErrorCodeInternalFailure (Error err), None), p, w)
  | inr fileInfo =>
      (({| Operation := resource.OperationUpdate;
           OperationStatus := resource.OperationStatusSuccess;
           RequestID := EmptyString; NativeID := update_NativeID req;
           ResourceProperties := Some (props_of fileInfo); ErrorCode := None;
           StatusMessage := EmptyString |}, None), p, w)
  end.

(** [Update], when the content is rewritten (lines 320 to 354): an upload
    job, and the wait for its end. *)
Definition Update_rewrite (fuel : nat) (req : UpdateRequest)
    (desiredProps : FileProperties) (c : asyncsftp.Client)
    (w : asyncsftp.World)
  : option ((ProgressResult * option error) * Plugin * asyncsftp.World) :=
  let perm : FileMode := 420%N in
  let perm :=
    if bool_decide (Permissions desiredProps ≠ EmptyString)
    then Sscanf_o (Permissions desiredProps) perm else perm in
  let '(opID, c, w) :=
    asyncsftp.StartUpload (update_NativeID req) (Content desiredProps) perm c w in
  let p := {| client := Some c |} in
  match Update_wait fuel opID c w with
  | None => None
  | Some (Some r, w) => Some ((r, None), p, w)
  | Some (None, w) => Some (Update_readback req p w)
  end.

Definition Update (fuel : nat) (req : UpdateRequest) (p : Plugin)
    (w : asyncsftp.World)
  : option ((ProgressResult * option error) * Plugin * asyncsftp.World) :=
  let '(res, p) := getClient (update_TargetConfig req) p in
  match res with
  | inl err =>
      Some ((failure resource.OperationUpdate
               resource.OperationErrorCodeInternalFailure (Error err), None), p, w)
  | inr c =>
      match parseFileProperties (DesiredProperties req) with
      | inl err =>
          Some ((failure resource.OperationUpdate
                   resource.OperationErrorCodeInvalidRequest (Error err), None),
                p, w)
      | inr desiredProps =>
          match parseFileProperties (PriorProperties req) with
          | inl _ => Update_rewrite fuel req desiredProps c w
          | inr priorProps =>
              if bool_decide (Content priorProps ≠ Content desiredProps) then
                Update_rewrite fuel req desiredProps c w
              else if bool_decide (Permissions priorProps
                                   ≠ Permissions desiredProps) then
                let perm : FileMode := 420%N in
                let perm := Sscanf_o (Permissions desiredProps) perm in
                let '(err, w) :=
                  asyncsftp.SetPermissions (update_NativeID req) perm w in
                match err with
                | Some err =>
                    Some ((failure resource.OperationUpdate
                             resource.OperationErrorCodeInternalFailure
                             (Error err), None), p, w)
                | None => Some (Update_readback req p w)
                end
              else Some (Update_readback req p w)
          end
      end
  end.

(** The loop of [Delete]. *)
Fixpoint Delete_wait (fuel : nat) (opID : string) (nativeID : string)
    (c : asyncsftp.Client) (w : asyncsftp.World)
  : option (ProgressResult * asyncsftp.World) :=
  match fuel with
  | O => None
  | S fuel' =>
      match asyncsftp.GetStatus opID c w with
      | inl err =>
          Some (failure resource.OperationDelete
                  resource.OperationErrorCodeInternalFailure (Error err), w)
      | inr op =>
          match asyncsftp.State op with
          | asyncsftp.StateCompleted =>
              Some ({| Operation := resource.OperationDelete;
                       OperationStatus := resource.OperationStatusSuccess;
                       RequestID := EmptyString; NativeID := nativeID;
                       ResourceProperties := None; ErrorCode := None;
                       StatusMessage := EmptyString |}, w)
          | asyncsftp.StateFailure =>
              Some (failure resource.OperationDelete
                      resource.OperationErrorCodeInternalFailure
                      (asyncsftp.op_Error op), w)
          | asyncsftp.StateInProgress =>
              Delete_wait fuel' opID nativeID c (asyncsftp.sched w)
          end
      end
  end.

Definition Delete (fuel : nat) (req : DeleteRequest) (p : Plugin)
    (w : asyncsftp.World)
  : option ((ProgressResult * option error) * Plugin * asyncsftp.World) :=
  let '(res, p) := getClient (delete_TargetConfig req) p in
  match res with
  | inl err =>
      Some ((failure resource.OperationDelete
               resource.OperationErrorCodeInternalFailure (Error err), None), p, w)
  | inr c =>
      let '(res, w) := asyncsftp.ReadFile (delete_NativeID req) w in
      match res with
      | inl err =>
          if errors_Is_ErrNotFound err
          then Some (({| Operation := resource.OperationDelete;
                         OperationStatus := resource.OperationStatusFailure;
                         RequestID := EmptyString;
                         NativeID := delete_NativeID req;
                         ResourceProperties := None;
                         ErrorCode := Some resource.OperationErrorCodeNotFound;
                         StatusMessage := EmptyString |}, None), p, w)
          else Some ((failure resource.OperationDelete
                        resource.OperationErrorCodeInternalFailure (Error err),
                      None), p, w)
      | inr _ =>
          let '(opID, c, w) := asyncsftp.StartDelete (delete_NativeID req) c w in
          let p := {| client := Some c |} in
          match Delete_wait fuel opID (delete_NativeID req) c w with
          | None => None
          | Some (r, w) => Some ((r, None), p, w)
          end
      end
  end.

Definition Status (req : StatusRequest) (p : Plugin) (w : asyncsftp.World)
  : ProgressResult * option error :=
  match client p with
  | None =>
      (failure resource.OperationCheckStatus
         resource.OperationErrorCodeInternalFailure "no client available", None)
  | Some c =>
      match asyncsftp.GetStatus (status_RequestID req) c w with
      | inl err =>
          (failure resource.OperationCheckStatus
             resource.OperationErrorCodeInternalFailure (Error err), None)
      | inr op =>
          let '(status, errorCode, resourceProps) :=
            match asyncsftp.State op with
            | asyncsftp.StateInProgress =>
                (resource.OperationStatusInProgress, None, None)
            | asyncsftp.StateCompleted =>
                (resource.OperationStatusSuccess, None,
                 match asyncsftp.Result op with
                 | Some r => Some (props_of r)
                 | None => None
                 end)
            | asyncsftp.StateFailure =>
                (resource.OperationStatusFailure,
                 Some resource.OperationErrorCodeInternalFailure, None)
            end in
          ({| Operation := resource.OperationCheckStatus;
              OperationStatus := status;
              RequestID := status_RequestID req;
              NativeID := asyncsftp.op_Path op;
              ResourceProperties := resourceProps;
              ErrorCode := errorCode;
              StatusMessage := asyncsftp.op_Error op |}, None)
      end
  end.

Definition List (req : ListRequest) (p : Plugin) (w : asyncsftp.World)
  : (ListResult * option error) * Plugin * asyncsftp.World :=
  let '(res, p) := getClient (list_TargetConfig req) p in
  match res with
  | inl err => (({| NativeIDs := []; NextPageToken := None |}, None), p, w)
  | inr c =>
      let dir := "/upload" in
      let dir := match AdditionalProperties req !! "directory" with
                 | Some d => d
                 | None => dir
                 end in
      let '(res, w) := asyncsftp.ListFiles dir w in
      match res with
      | inl err =>
          if errors_Is_ErrNotFound err
          then (({| NativeIDs := []; NextPageToken := None |}, None), p, w)
          else (({| NativeIDs := []; NextPageToken := None |}, None), p, w)
      | inr paths =>
          (({| NativeIDs := paths; NextPageToken := None |}, None), p, w)
      end
  end.

End plugin.

(** ** Runs, service and load *)

(** [k] steps of the scheduler. *)
Definition run (k : nat) (w : asyncsftp.World) : asyncsftp.World :=
  Nat.iter k asyncsftp.sched w.

(** The server serves the next [n] calls: none of them is a fault. *)
Fixpoint serves (n : nat) (fs : list (option LibError)) : bool :=
  match n, fs with
  | O, _ => true
  | S _, [] => true
  | S n', None :: fs' => serves n' fs'
  | S _, Some _ :: _ => false
  end.

(** [w'] differs from [w] at most in the faults the server has in store. *)
Definition undisturbed (w w' : asyncsftp.World) : Prop :=
  files (asyncsftp.remote w') = files (asyncsftp.remote w)
  ∧ rclock (asyncsftp.remote w') = rclock (asyncsftp.remote w)
  ∧ create_mode (asyncsftp.remote w') = create_mode (asyncsftp.remote w)
  ∧ asyncsftp.heap w' = asyncsftp.heap w
  ∧ asyncsftp.goroutines w' = asyncsftp.goroutines w
  ∧ asyncsftp.schedule w' = asyncsftp.schedule w
  ∧ asyncsftp.clock w' = asyncsftp.clock w
  ∧ asyncsftp.uuid_next w' = asyncsftp.uuid_next w.

(** A call that leaves the files, the clock and the mode of new files as
    they are. *)
Definition reading {A} (f : Remote → (LibError + A) * Remote) : Prop :=
  ∀ r, files (f r).2 = files r ∧ rclock (f r).2 = rclock r
       ∧ create_mode (f r).2 = create_mode r.

(** The record a goroutine works on. *)
Definition owner (g : asyncsftp.goroutine) : asyncsftp.loc :=
  match g with
  | asyncsftp.doUpload_Create op _ _ => op
  | asyncsftp.doUpload_Write op _ _ _ => op
  | asyncsftp.doUpload_Close op _ _ _ _ => op
  | asyncsftp.doUpload_Chmod op _ _ => op
  | asyncsftp.doUpload_Stat op _ => op
  | asyncsftp.doUpload_Result op _ _ => op
  | asyncsftp.doDelete_Remove op => op
  | asyncsftp.completeOperation_call op _ _ => op
  end.

(** A bound on the steps a goroutine takes before it returns. *)
Definition steps_left (g : asyncsftp.goroutine) : nat :=
  match g with
  | asyncsftp.doUpload_Create _ _ _ => 7
  | asyncsftp.doUpload_Write _ _ _ _ => 6
  | asyncsftp.doUpload_Close _ _ _ _ _ => 5
  | asyncsftp.doUpload_Chmod _ _ _ => 4
  | asyncsftp.doUpload_Stat _ _ => 3
  | asyncsftp.doUpload_Result _ _ _ => 2
  | asyncsftp.doDelete_Remove _ => 2
  | asyncsftp.completeOperation_call _ _ _ => 1
  end.

(** The work the world still holds: the choices of the scheduler and the
    steps of the goroutines. *)
Definition load (w : asyncsftp.World) : nat :=
  length (asyncsftp.schedule w)
  + sum_list_with steps_left (asyncsftp.goroutines w).

(** A state is terminal when it is not [StateInProgress]. *)
Definition terminal (s : asyncsftp.OperationState) : bool :=
  match s with
  | asyncsftp.StateInProgress => false
  | _ => true
  end.

(** A goroutine that gives its record a terminal state when it completes
    it. *)
Definition completes_terminally (g : asyncsftp.goroutine) : Prop :=
  match g with
  | asyncsftp.completeOperation_call _ st _ => terminal st = true
  | _ => True
  end.

(** The record at [l] is live: it is on the heap, and while it is in
    progress some goroutine that will complete it works on it. *)
Definition live (l : asyncsftp.loc) (w : asyncsftp.World) : Prop :=
  ∃ o, asyncsftp.heap w !! l = Some o
       ∧ (asyncsftp.State o = asyncsftp.StateInProgress →
          ∃ g, g ∈ asyncsftp.goroutines w ∧ owner g = l
               ∧ completes_terminally g).

(** Two records agree on what is fixed when a job is started. *)
Definition same_job (o o' : asyncsftp.Operation) : Prop :=
  asyncsftp.ID o' = asyncsftp.ID o
  ∧ asyncsftp.op_Type o' = asyncsftp.op_Type o
  ∧ asyncsftp.op_Path o' = asyncsftp.op_Path o
  ∧ asyncsftp.StartedAt o' = asyncsftp.StartedAt o.

(** The steps the goroutines of a world still take. *)
Definition work (w : asyncsftp.World) : nat :=
  sum_list_with steps_left (asyncsftp.goroutines w).

(** The server holds a plain file at [path] with this content. *)
Definition holds (path content : string) (r : Remote) : Prop :=
  ∃ n, files r !! path = Some n ∧ is_dir n = false ∧ data n = content.

(** The server holds a plain file at [path] with this content and mode. *)
Definition uploaded (path content : string) (m : FileMode) (r : Remote)
  : Prop :=
  ∃ n, files r !! path = Some n ∧ is_dir n = false ∧ data n = content
       ∧ mode n = m.

(** What the server holds when the one goroutine of an upload of [content]
    with mode [m] to [path] stands at [g]. *)
Definition upload_phase (path content : string) (m : FileMode) (r : Remote)
    (g : asyncsftp.goroutine) : Prop :=
  match g with
  | asyncsftp.doUpload_Create _ c p => c = content ∧ p = m
  | asyncsftp.doUpload_Write _ f c p =>
      f = path ∧ c = content ∧ p = m
      ∧ ∃ n, files r !! path = Some n ∧ is_dir n = false
  | asyncsftp.doUpload_Close _ f err c p =>
      c = content ∧ p = m ∧ (err = None → holds path content r)
  | asyncsftp.doUpload_Chmod _ c p =>
      c = content ∧ p = m ∧ holds path content r
  | asyncsftp.doUpload_Stat _ c => uploaded path content m r
  | asyncsftp.doUpload_Result _ c _ => uploaded path content m r
  | asyncsftp.completeOperation_call _ st _ =>
      st = asyncsftp.StateCompleted → uploaded path content m r
  | asyncsftp.doDelete_Remove _ => False
  end.

(** Goroutine [g] acts on another path than [path]: the path of its
    record, and the file handle it holds if any. *)
Definition away (path : string) (w : asyncsftp.World)
    (g : asyncsftp.goroutine) : Prop :=
  asyncsftp.path_of (owner g) w ≠ path
  ∧ match g with
    | asyncsftp.doUpload_Write _ f _ _ => f ≠ path
    | asyncsftp.doUpload_Close _ f _ _ _ => f ≠ path
    | _ => True
    end.

(** Goroutine [g] works on another record than [l] and on another path than
    [path]. *)
Definition elsewhere (l : asyncsftp.loc) (path : string)
    (w : asyncsftp.World) (g : asyncsftp.goroutine) : Prop :=
  owner g ≠ l ∧ away path w g.

(** The invariant of an upload of [content] with mode [m] to [path], whose
    record is at [l], among goroutines that work elsewhere: while its
    goroutine is in the pool the record is in progress and the server is as
    far as the goroutine has come; once the goroutine has returned, a
    record that is Completed means the file is uploaded. *)
Definition upload_among (l : asyncsftp.loc) (path content : string)
    (m : FileMode) (w : asyncsftp.World) : Prop :=
  ∃ o, asyncsftp.heap w !! l = Some o
       ∧ asyncsftp.op_Path o = path
       ∧ ((∃ pre g post,
             asyncsftp.goroutines w = (pre ++ g :: post)%list
             ∧ Forall (elsewhere l path w) (pre ++ post)%list
             ∧ owner g = l
             ∧ asyncsftp.State o = asyncsftp.StateInProgress
             ∧ upload_phase path content m (asyncsftp.remote w) g)
          ∨ (Forall (elsewhere l path w) (asyncsftp.goroutines w)
             ∧ (asyncsftp.State o = asyncsftp.StateCompleted →
                uploaded path content m (asyncsftp.remote w)))).

(** The invariant of a delete of [path] that runs alone on a server that
    held the files [F] and serves its call: the record at [l], the files of
    the server and the service left ([n] calls) at each point of the
    goroutine. *)
Definition delete_alone (l : asyncsftp.loc) (path : string)
    (F : gmap string RemoteFile) (n : nat) (w : asyncsftp.World) : Prop :=
  ∃ o, asyncsftp.heap w !! l = Some o
       ∧ asyncsftp.op_Path o = path
       ∧ asyncsftp.op_Error o = EmptyString
       ∧ asyncsftp.Result o = None
       ∧ match asyncsftp.goroutines w with
         | [] =>
             asyncsftp.State o = asyncsftp.StateCompleted
             ∧ files (asyncsftp.remote w) = delete path F
             ∧ serves n (faults (asyncsftp.remote w)) = true
         | [asyncsftp.doDelete_Remove l'] =>
             l' = l
             ∧ asyncsftp.State o = asyncsftp.StateInProgress
             ∧ files (asyncsftp.remote w) = F
             ∧ serves (S n) (faults (asyncsftp.remote w)) = true
         | [asyncsftp.completeOperation_call l' st err] =>
             l' = l ∧ st = asyncsftp.StateCompleted ∧ err = None
             ∧ asyncsftp.State o = asyncsftp.StateInProgress
             ∧ files (asyncsftp.remote w) = delete path F
             ∧ serves n (faults (asyncsftp.remote w)) = true
         | _ => False
         end.

(** ** The states the store can reach *)

(** One transition of a client and its world: a job is started, a goroutine
    takes a step (chosen freely, or by the scheduler), or the client reads,
    lists or changes permissions. *)
Inductive step
  : asyncsftp.Client * asyncsftp.World
    → asyncsftp.Client * asyncsftp.World → Prop :=
| step_StartUpload path content m c w :
    step (c, w)
      ((asyncsftp.StartUpload path content m c w).1.2,
       (asyncsftp.StartUpload path content m c w).2)
| step_StartDelete path c w :
    step (c, w)
      ((asyncsftp.StartDelete path c w).1.2,
       (asyncsftp.StartDelete path c w).2)
| step_goroutine i c w : step (c, w) (c, asyncsftp.run_goroutine i w)
| step_sched c w : step (c, w) (c, asyncsftp.sched w)
| step_ReadFile path c w : step (c, w) (c, (asyncsftp.ReadFile path w).2)
| step_SetPermissions path m c w :
    step (c, w) (c, (asyncsftp.SetPermissions path m w).2)
| step_ListFiles dir c w : step (c, w) (c, (asyncsftp.ListFiles dir w).2).

(** The states reached from a new client: an empty store, no record and no
    goroutine yet, any server, schedule, clock and uuid source. *)
Inductive reachable : asyncsftp.Client * asyncsftp.World → Prop :=
| reachable_new r s t u :
    reachable ({| asyncsftp.operations := ∅ |},
               {| asyncsftp.remote := r; asyncsftp.heap := [];
                  asyncsftp.goroutines := []; asyncsftp.schedule := s;
                  asyncsftp.clock := t; asyncsftp.uuid_next := u |})
| reachable_step s s' : reachable s → step s s' → reachable s'.

(** A record [o] on which goroutine [g] works: it is in progress with no
    error message; it holds a result only when [g] is about to complete an
    upload; and [g] completes with Completed and no error, or with Failure
    and an error whose message is not empty. *)
Definition pending_ok (o : asyncsftp.Operation) (g : asyncsftp.goroutine)
  : Prop :=
  asyncsftp.State o = asyncsftp.StateInProgress
  ∧ asyncsftp.op_Error o = EmptyString
  ∧ match g with
    | asyncsftp.completeOperation_call _ st err =>
        match st with
        | asyncsftp.StateInProgress => False
        | asyncsftp.StateCompleted =>
            err = None
            ∧ (asyncsftp.Result o ≠ None
               ↔ asyncsftp.op_Type o = asyncsftp.OperationTypeUpload)
        | asyncsftp.StateFailure =>
            (∃ e, err = Some e ∧ Error e ≠ EmptyString)
            ∧ asyncsftp.Result o = None
        end
    | asyncsftp.doDelete_Remove _ =>
        asyncsftp.op_Type o = asyncsftp.OperationTypeDelete
        ∧ asyncsftp.Result o = None
    | _ =>
        asyncsftp.op_Type o = asyncsftp.OperationTypeUpload
        ∧ asyncsftp.Result o = None
    end.

(** A record whose goroutine has returned, as the data model has it. *)
Definition settled (o : asyncsftp.Operation) : Prop :=
  asyncsftp.State o ≠ asyncsftp.StateInProgress
  ∧ (asyncsftp.op_Error o ≠ EmptyString
     ↔ asyncsftp.State o = asyncsftp.StateFailure)
  ∧ (asyncsftp.Result o ≠ None
     ↔ asyncsftp.State o = asyncsftp.StateCompleted
       ∧ asyncsftp.op_Type o = asyncsftp.OperationTypeUpload).

(** The invariant of the reachable states: no two goroutines work on one
    record; every goroutine works on a record that is there and pending;
    every other record is settled; every registered id was drawn from the
    uuid source and leads to a record. *)
Definition store_inv (s : asyncsftp.Client * asyncsftp.World) : Prop :=
  NoDup (owner <$> asyncsftp.goroutines s.2)
  ∧ (∀ g, g ∈ asyncsftp.goroutines s.2 →
       ∃ o, asyncsftp.heap s.2 !! owner g = Some o ∧ pending_ok o g)
  ∧ (∀ l o, asyncsftp.heap s.2 !! l = Some o →
       l ∉ owner <$> asyncsftp.goroutines s.2 → settled o)
  ∧ (∀ id l, asyncsftp.operations s.1 !! id = Some l →
       is_Some (asyncsftp.heap s.2 !! l)
       ∧ ∃ n, n < asyncsftp.uuid_next s.2 ∧ id = asyncsftp.uuid_String n).

(** ** The store as the specification words it *)




(** ** What a verb reports *)

Inductive verb_result :=
| Progress (r : ProgressResult)
| ReadOutcome (r : ReadResult)
| Listing (r : ListResult).

(** A result reports an internal failure when it carries that error code
    (and, where it has a status, the status Failure).  A [ListResult] has
    neither field. *)
Definition reports_internal_failure (v : verb_result) : bool :=
  match v with
  | Progress r =>
      bool_decide (OperationStatus r = resource.OperationStatusFailure)
      && bool_decide (ErrorCode r
                      = Some resource.OperationErrorCodeInternalFailure)
  | ReadOutcome r =>
      bool_decide (read_ErrorCode r
                   = Some resource.OperationErrorCodeInternalFailure)
  | Listing _ => false
  end.

(** ** Sample worlds *)

Module sample.

Definition server : Remote :=
  {| files := ∅; faults := []; rclock := 100%Z; create_mode := 420%N |}.

Definition world : asyncsftp.World :=
  {| asyncsftp.remote := server; asyncsftp.heap := [];
     asyncsftp.goroutines := []; asyncsftp.schedule := [];
     asyncsftp.clock := 0%Z; asyncsftp.uuid_next := 0 |}.

Definition fresh_client : asyncsftp.Client :=
  {| asyncsftp.operations := ∅ |}.

(** An environment in which the server is reached. *)
Definition env : Env :=
  {| Getenv := λ _, "secret";
     url_Parse := λ _, inr {| Scheme := "sftp"; Hostname := "localhost";
                              Port := "2222" |};
     ssh_Dial := λ _ _ _, None;
     sftp_NewClient := λ _, None;
     time_Format := λ _, "2025-01-01T00:00:00Z" |}.

(** An environment in which the dial is refused. *)
Definition env_unreachable : Env :=
  {| Getenv := Getenv env; url_Parse := url_Parse env;
     ssh_Dial := λ _ _ _,
       Some {| is_not_exist := false; lib_message := "connection refused" |};
     sftp_NewClient := sftp_NewClient env;
     time_Format := time_Format env |}.

Definition target : RawMessage TargetConfig :=
  Encodes {| cfg_URL := "sftp://localhost:2222" |}.

Definition props : FileProperties :=
  {| Path := "/upload/a.txt"; Content := "hi"; Permissions := "0644";
     Size := 0; ModifiedAt := EmptyString |}.



(** A server that holds /upload/a.txt with content "hi" and mode 0644. *)
Definition server_with_file : Remote :=
  {| files := {[ "/upload/a.txt" := {| is_dir := false; data := "hi";
                                       mode := 420%N; mtime := 99%Z |} ]};
     faults := []; rclock := 100%Z; create_mode := 420%N |}.

Definition world_with_file : asyncsftp.World :=
  {| asyncsftp.remote := server_with_file; asyncsftp.heap := [];
     asyncsftp.goroutines := []; asyncsftp.schedule := [];
     asyncsftp.clock := 0%Z; asyncsftp.uuid_next := 0 |}.

(** A client and a world in which an upload to /upload/b.txt is in flight,
    with choices of the scheduler that interleave it with what is started
    next. *)
Definition busy_client : asyncsftp.Client :=
  (asyncsftp.StartUpload "/upload/b.txt" "other" 384%N fresh_client
     (asyncsftp.with_schedule [1; 0; 1; 1; 0; 0; 1; 0; 1; 0; 1; 1; 0]
        world)).1.2.

Definition busy_world : asyncsftp.World :=
  (asyncsftp.StartUpload "/upload/b.txt" "other" 384%N fresh_client
     (asyncsftp.with_schedule [1; 0; 1; 1; 0; 0; 1; 0; 1; 0; 1; 1; 0]
        world)).2.

Definition no_plugin_client : Plugin := {| client := None |}.

Definition connected : Plugin := {| client := Some fresh_client |}.

End sample.

(** ** Permission text *)

(** The permission text [ReadFile] reports for the bits [n] has four
    characters and scans back to [n]. *)
Definition reads_back (n : N) : bool :=
  bool_decide (String.length (Sprintf_04o n) = 4)
  && bool_decide (octal_prefix (skip_blanks (Sprintf_04o n)) None = Some n).

(** ** Jobs that run alone, by their outcome *)

(** The server holds at [path] a plain file, empty or with [content]: what
    [Create] and [Write] leave. *)
Definition truncated (path content : string) (r : Remote) : Prop :=
  ∃ n, files r !! path = Some n ∧ is_dir n = false
       ∧ (data n = EmptyString ∨ data n = content).

(** What an upload of [content] with mode [m] to [path] that failed with
    [err] has left on a server that held the files [F], by the call that
    failed (the prefixes are those of lines 218, 228, 234 and 241 of
    [doUpload]). *)
Definition upload_failed (path content : string) (m : FileMode)
    (F : gmap string RemoteFile) (r : Remote) (err : error) : Prop :=
  (∃ e, err = Errorf_w "create failed: " (FromLib e) ∧ files r = F)
  ∨ (∃ e, err = Errorf_w "write failed: " (FromLib e)
          ∧ truncated path content r)
  ∨ (∃ e, err = Errorf_w "chmod failed: " (FromLib e) ∧ holds path content r)
  ∨ (∃ e, err = Errorf_w "stat failed: " (FromLib e)
          ∧ uploaded path content m r).

(** The result an upload of [content] with mode [m] to [path] records
    (lines 245 to 251), on a server that holds the uploaded file. *)
Definition upload_result (path content : string) (m : FileMode) (r : Remote)
    (res : option asyncsftp.FileInfo) : Prop :=
  ∃ n, files r !! path = Some n ∧ is_dir n = false ∧ data n = content
       ∧ mode n = m
       ∧ res = Some {| asyncsftp.Path := path; asyncsftp.Content := content;
                       asyncsftp.Permissions := Sprintf_04o (Perm m);
                       asyncsftp.Size := Z.of_nat (String.length content);
                       asyncsftp.ModifiedAt := mtime n |}.

(** The calls of the server a goroutine of an upload still makes. *)
Definition calls_left (g : asyncsftp.goroutine) : nat :=
  match g with
  | asyncsftp.doUpload_Create _ _ _ => 5
  | asyncsftp.doUpload_Write _ _ _ _ => 4
  | asyncsftp.doUpload_Close _ _ _ _ _ => 3
  | asyncsftp.doUpload_Chmod _ _ _ => 2
  | asyncsftp.doUpload_Stat _ _ => 1
  | _ => 0
  end.

(** Where the one goroutine of an upload of [content] with mode [m] to
    [path] stands, on a server that held the files [F] when it started:
    what the record [o] and the server hold at that point. *)
Definition upload_point (path content : string) (m : FileMode)
    (F : gmap string RemoteFile) (o : asyncsftp.Operation) (r : Remote)
    (g : asyncsftp.goroutine) : Prop :=
  match g with
  | asyncsftp.doUpload_Create _ c p =>
      c = content ∧ p = m ∧ asyncsftp.Result o = None ∧ files r = F
  | asyncsftp.doUpload_Write _ f c p =>
      f = path ∧ c = content ∧ p = m ∧ asyncsftp.Result o = None
      ∧ ∃ n, files r !! path = Some n ∧ is_dir n = false
             ∧ data n = EmptyString
  | asyncsftp.doUpload_Close _ f err c p =>
      c = content ∧ p = m ∧ asyncsftp.Result o = None
      ∧ match err with
        | None => holds path content r
        | Some _ => truncated path content r
        end
  | asyncsftp.doUpload_Chmod _ c p =>
      c = content ∧ p = m ∧ asyncsftp.Result o = None ∧ holds path content r
  | asyncsftp.doUpload_Stat _ c =>
      c = content ∧ asyncsftp.Result o = None ∧ uploaded path content m r
  | asyncsftp.doUpload_Result _ c st =>
      c = content ∧ asyncsftp.Result o = None
      ∧ ∃ n, files r !! path = Some n ∧ is_dir n = false ∧ data n = content
             ∧ mode n = m ∧ st = stat_of n
  | asyncsftp.completeOperation_call _ st err =>
      match st, err with
      | asyncsftp.StateCompleted, None =>
          upload_result path content m r (asyncsftp.Result o)
      | asyncsftp.StateFailure, Some e =>
          asyncsftp.Result o = None ∧ upload_failed path content m F r e
      | _, _ => False
      end
  | asyncsftp.doDelete_Remove _ => False
  end.

(** A goroutine that is to complete its record as failed. *)
Definition failing (g : asyncsftp.goroutine) : bool :=
  match g with
  | asyncsftp.doUpload_Close _ _ (Some _) _ _ => true
  | asyncsftp.completeOperation_call _ asyncsftp.StateFailure _ => true
  | _ => false
  end.

(** The invariant of an upload of [content] with mode [m] to [path] that
    runs alone, its record at [l], on a server that held the files [F].
    [healthy] says that the server held at [path] a plain file or nothing
    and serves the five calls of the upload. *)
Definition upload_alone (l : asyncsftp.loc) (path content : string)
    (m : FileMode) (F : gmap string RemoteFile) (healthy : Prop)
    (w : asyncsftp.World) : Prop :=
  ∃ o, asyncsftp.heap w !! l = Some o
       ∧ asyncsftp.op_Path o = path
       ∧ (∀ p, p ≠ path → files (asyncsftp.remote w) !! p = F !! p)
       ∧ (healthy → ∀ f, F !! path = Some f → is_dir f = false)
       ∧ match asyncsftp.goroutines w with
         | [] =>
             match asyncsftp.State o with
             | asyncsftp.StateInProgress => False
             | asyncsftp.StateCompleted =>
                 asyncsftp.op_Error o = EmptyString
                 ∧ upload_result path content m (asyncsftp.remote w)
                     (asyncsftp.Result o)
             | asyncsftp.StateFailure =>
                 ¬ healthy ∧ asyncsftp.Result o = None
                 ∧ ∃ err, asyncsftp.op_Error o = Error err
                          ∧ upload_failed path content m F
                              (asyncsftp.remote w) err
             end
         | [g] =>
             owner g = l
             ∧ asyncsftp.State o = asyncsftp.StateInProgress
             ∧ asyncsftp.op_Error o = EmptyString
             ∧ upload_point path content m F o (asyncsftp.remote w) g
             ∧ (healthy →
                serves (calls_left g) (faults (asyncsftp.remote w)) = true
                ∧ failing g = false)
         | _ => False
         end.

(** ** Jobs among others on a server that serves every call *)

(** The invariant of a job on [path], its record at [l], among goroutines
    that work elsewhere, on a server that has no fault in store: while the
    goroutine of the job is in the pool the record is in progress and
    [going] holds of record, server and goroutine; once the goroutine has
    returned, [ended] holds of record and server. *)
Definition among_served (l : asyncsftp.loc) (path : string)
    (going : asyncsftp.Operation → Remote → asyncsftp.goroutine → Prop)
    (ended : asyncsftp.Operation → Remote → Prop)
    (w : asyncsftp.World) : Prop :=
  faults (asyncsftp.remote w) = []
  ∧ ∃ o, asyncsftp.heap w !! l = Some o
         ∧ asyncsftp.op_Path o = path
         ∧ ((∃ pre g post,
               asyncsftp.goroutines w = (pre ++ g :: post)%list
               ∧ Forall (elsewhere l path w) (pre ++ post)%list
               ∧ owner g = l
               ∧ asyncsftp.State o = asyncsftp.StateInProgress
               ∧ going o (asyncsftp.remote w) g)
            ∨ (Forall (elsewhere l path w) (asyncsftp.goroutines w)
               ∧ ended o (asyncsftp.remote w))).

(** Where the goroutine of an upload of [content] with mode [m] to [path]
    stands when every call so far was served: what the record [o] and the
    server hold at that point. *)
Definition upload_going (path content : string) (m : FileMode)
    (o : asyncsftp.Operation) (r : Remote) (g : asyncsftp.goroutine) : Prop :=
  asyncsftp.op_Error o = EmptyString
  ∧ match g with
    | asyncsftp.doUpload_Create _ c p =>
        c = content ∧ p = m ∧ asyncsftp.Result o = None
        ∧ ∀ f, files r !! path = Some f → is_dir f = false
    | asyncsftp.doUpload_Write _ f c p =>
        f = path ∧ c = content ∧ p = m ∧ asyncsftp.Result o = None
        ∧ ∃ n, files r !! path = Some n ∧ is_dir n = false
    | asyncsftp.doUpload_Close _ f err c p =>
        err = None ∧ c = content ∧ p = m ∧ asyncsftp.Result o = None
        ∧ holds path content r
    | asyncsftp.doUpload_Chmod _ c p =>
        c = content ∧ p = m ∧ asyncsftp.Result o = None
        ∧ holds path content r
    | asyncsftp.doUpload_Stat _ c =>
        c = content ∧ asyncsftp.Result o = None ∧ uploaded path content m r
    | asyncsftp.doUpload_Result _ c st =>
        c = content ∧ asyncsftp.Result o = None
        ∧ ∃ n, files r !! path = Some n ∧ is_dir n = false ∧ data n = content
               ∧ mode n = m ∧ st = stat_of n
    | asyncsftp.completeOperation_call _ st err =>
        st = asyncsftp.StateCompleted ∧ err = None
        ∧ upload_result path content m r (asyncsftp.Result o)
    | asyncsftp.doDelete_Remove _ => False
    end.

(** The record and the server once such an upload has ended. *)
Definition upload_ended (path content : string) (m : FileMode)
    (o : asyncsftp.Operation) (r : Remote) : Prop :=
  asyncsftp.State o = asyncsftp.StateCompleted
  ∧ asyncsftp.op_Error o = EmptyString
  ∧ upload_result path content m r (asyncsftp.Result o).

(** Where the goroutine of a delete of [path] stands when its call was
    served. *)
Definition delete_going (path : string) (o : asyncsftp.Operation) (r : Remote)
    (g : asyncsftp.goroutine) : Prop :=
  asyncsftp.op_Error o = EmptyString ∧ asyncsftp.Result o = None
  ∧ match g with
    | asyncsftp.doDelete_Remove _ =>
        ∀ f, files r !! path = Some f → is_dir f = false
    | asyncsftp.completeOperation_call _ st err =>
        st = asyncsftp.StateCompleted ∧ err = None ∧ files r !! path = None
    | _ => False
    end.

(** The record and the server once such a delete has ended. *)
Definition delete_ended (path : string) (o : asyncsftp.Operation)
    (r : Remote) : Prop :=
  asyncsftp.State o = asyncsftp.StateCompleted
  ∧ asyncsftp.op_Error o = EmptyString ∧ asyncsftp.Result o = None
  ∧ files r !! path = None.

(** ** Results of the verbs *)

(** A progress result carries an error code exactly when its status is
    Failure. *)
Definition well_formed (r : ProgressResult) : Prop :=
  OperationStatus r = resource.OperationStatusFailure ↔ ErrorCode r ≠ None.

(** ** More sample worlds *)

Module scenario.

(** A server that holds /upload/a.txt and fails the fourth call it
    receives. *)
Definition flaky_world : asyncsftp.World :=
  {| asyncsftp.remote :=
       {| files := files sample.server_with_file;
          faults := [None; None; None; Some EFAILURE];
          rclock := 100%Z; create_mode := 420%N |};
     asyncsftp.heap := []; asyncsftp.goroutines := [];
     asyncsftp.schedule := []; asyncsftp.clock := 0%Z;
     asyncsftp.uuid_next := 0 |}.

(** A server with the directory /upload, which holds a file and a
    directory with a file of its own. *)
Definition tree_world : asyncsftp.World :=
  {| asyncsftp.remote :=
       {| files :=
            {[ "/upload" := {| is_dir := true; data := EmptyString;
                               mode := 493%N; mtime := 1%Z |};
               "/upload/a.txt" := {| is_dir := false; data := "hi";
                                     mode := 420%N; mtime := 2%Z |};
               "/upload/sub" := {| is_dir := true; data := EmptyString;
                                   mode := 493%N; mtime := 3%Z |};
               "/upload/sub/b.txt" := {| is_dir := false; data := "deep";
                                         mode := 420%N; mtime := 4%Z |} ]};
          faults := []; rclock := 100%Z; create_mode := 420%N |};
     asyncsftp.heap := []; asyncsftp.goroutines := [];
     asyncsftp.schedule := []; asyncsftp.clock := 0%Z;
     asyncsftp.uuid_next := 0 |}.

(** A client and a world in which the server holds /upload/a.txt and an
    upload to /upload/b.txt is in flight. *)
Definition crowded_client : asyncsftp.Client :=
  (asyncsftp.StartUpload "/upload/b.txt" "other" 384%N sample.fresh_client
     (asyncsftp.with_schedule [1; 0; 1; 1; 0; 0; 1; 0; 1; 0; 1; 1; 0]
        sample.world_with_file)).1.2.

Definition crowded_world : asyncsftp.World :=
  (asyncsftp.StartUpload "/upload/b.txt" "other" 384%N sample.fresh_client
     (asyncsftp.with_schedule [1; 0; 1; 1; 0; 0; 1; 0; 1; 0; 1; 1; 0]
        sample.world_with_file)).2.

End scenario.

(** * Properties *)

Local Open Scope list_scope.
Local Open Scope nat_scope.

(** ** The connection and the parsers *)

Lemma call_served {A} (serve : Remote → (LibError + A) * Remote) (r : Remote) (n : nat) :
  serves (S n) (faults r) = true →
  ∃ r', call serve r = serve r' ∧ files r' = files r
        ∧ rclock r' = rclock r ∧ create_mode r' = create_mode r
        ∧ faults r' = tail (faults r) ∧ serves n (faults r') = true.
Proof.
  unfold call, next_fault. destruct r as [fs flt rc cm]; simpl.
  destruct flt as [|[e|] flt]; simpl; intros Hs; try discriminate.
  - eexists; split; [reflexivity|]. simpl. repeat split. by destruct n.
  - eexists; split; [reflexivity|]. simpl. repeat split. done.
Qed.

Lemma parseFileProperties_inr data props :
  parseFileProperties data = inr props →
  Path props ≠ EmptyString ∧ Permissions props ≠ EmptyString
  ∧ ∃ v, data = Encodes v ∧ Path props = Path v ∧ Content props = Content v
         ∧ Permissions props
           = (if bool_decide (Permissions v = EmptyString) then "0644"
              else Permissions v).
Proof.
  unfold parseFileProperties. destruct data as [e|v]; simpl; [done|].
  repeat case_bool_decide; intros [= <-]; simpl;
    (split; [done|]); (split; [done|]); exists v; repeat split;
    by repeat case_bool_decide.
Qed.

Lemma getClient_inl env tc p err p' :
  getClient env tc p = (inl err, p') → p' = p ∧ client p = None.
Proof.
  unfold getClient. destruct (client p) as [c|]; [done|].
  destruct (parseTargetConfig tc) as [e|cfg]; [by intros [= _ <-]|].
  destruct (parseURL env (cfg_URL cfg)) as [e|[host port]]; [by intros [= _ <-]|].
  destruct (getCredentials env) as [e|[username password]]; [by intros [= _ <-]|].
  destruct (asyncsftp.NewClient _ _) as [e|c]; [by intros [= _ <-]|done].
Qed.

(** ** Status *)

(** C10. When the plugin has no client yet ([p.client] is nil), [Status]
    returns a Failure result with error code InternalFailure and the
    message "no client available", and no Go error; the store is not
    consulted. *)
Theorem Status_without_client (env : Env) (req : StatusRequest) (p : Plugin)
    (w : asyncsftp.World) :
  client p = None →
  Status env req p w
  = ({| Operation := resource.OperationCheckStatus;
        OperationStatus := resource.OperationStatusFailure;
        RequestID := EmptyString; NativeID := EmptyString;
        ResourceProperties := None;
        ErrorCode := Some resource.OperationErrorCodeInternalFailure;
        StatusMessage := "no client available" |}, None).
Proof. unfold Status. by intros ->. Qed.

Lemma Status_without_client_witness :
  client sample.no_plugin_client = None
  ∧ Status sample.env {| status_RequestID := "op-0" |}
      sample.no_plugin_client sample.world
    = ({| Operation := resource.OperationCheckStatus;
          OperationStatus := resource.OperationStatusFailure;
          RequestID := EmptyString; NativeID := EmptyString;
          ResourceProperties := None;
          ErrorCode := Some resource.OperationErrorCodeInternalFailure;
          StatusMessage := "no client available" |}, None).
Proof.
  split; [reflexivity|].
  apply (Status_without_client sample.env {| status_RequestID := "op-0" |}
           sample.no_plugin_client sample.world).
  reflexivity.
Defined.

(** ** Create *)

(** C3. [Create] on a request whose properties lack the path returns
    Failure with InvalidRequest and leaves plugin and world as they were
    (no job); properties without a permission mode are read with "0644",
    which the upload receives as mode 0644; and once the properties are
    read, a failing [getClient] gives Failure with InternalFailure and no
    job, while otherwise an Upload record in progress is registered under a
    new id, its goroutine joins the pool without having taken a step (the
    server is untouched), and the result is InProgress with that id as
    request id and the path as native id. *)
Theorem Create_validates_then_starts_upload (env : Env) (req : CreateRequest)
    (p : Plugin) (w : asyncsftp.World) :
  (∀ v, create_Properties req = Encodes v → Path v = EmptyString →
     Create env req p w
     = ((failure resource.OperationCreate
           resource.OperationErrorCodeInvalidRequest
           "file properties missing 'path'", None), p, w))
  ∧ (∀ v, create_Properties req = Encodes v → Path v ≠ EmptyString →
       Permissions v = EmptyString →
       parseFileProperties (create_Properties req)
       = inr {| Path := Path v; Content := Content v; Permissions := "0644";
                Size := Size v; ModifiedAt := ModifiedAt v |}
       ∧ Sscanf_o "0644" 420%N = 420%N)
  ∧ (∀ props err p',
       parseFileProperties (create_Properties req) = inr props →
       getClient env (create_TargetConfig req) p = (inl err, p') →
       Create env req p w
       = ((failure resource.OperationCreate
             resource.OperationErrorCodeInternalFailure (Error err), None), p, w))
  ∧ (∀ props c p',
       parseFileProperties (create_Properties req) = inr props →
       getClient env (create_TargetConfig req) p = (inr c, p') →
       let id := asyncsftp.uuid_String (asyncsftp.uuid_next w) in
       let l := length (asyncsftp.heap w) in
       ∃ w',
         Create env req p w
         = (({| Operation := resource.OperationCreate;
                OperationStatus := resource.OperationStatusInProgress;
                RequestID := id; NativeID := Path props;
                ResourceProperties := None; ErrorCode := None;
                StatusMessage := EmptyString |}, None),
            {| client := Some {| asyncsftp.operations :=
                                   <[id := l]> (asyncsftp.operations c) |} |},
            w')
         ∧ asyncsftp.heap w'
           = asyncsftp.heap w
             ++ [{| asyncsftp.ID := id;
                    asyncsftp.op_Type := asyncsftp.OperationTypeUpload;
                    asyncsftp.op_Path := Path props;
                    asyncsftp.State := asyncsftp.StateInProgress;
                    asyncsftp.op_Error := EmptyString;
                    asyncsftp.Result := None;
                    asyncsftp.StartedAt := asyncsftp.clock w;
                    asyncsftp.CompletedAt := 0%Z |}]
         ∧ asyncsftp.goroutines w'
           = asyncsftp.goroutines w
             ++ [asyncsftp.doUpload l (Content props)
                   (Sscanf_o (Permissions props) 420%N)]
         ∧ asyncsftp.remote w' = asyncsftp.remote w
         ∧ asyncsftp.schedule w' = asyncsftp.schedule w).
Proof.
  split; [|split; [|split]].
  - intros v Hv Hpath. unfold Create, parseFileProperties. rewrite Hv. simpl.
    by rewrite bool_decide_eq_true_2.
  - intros v Hv Hpath Hperm. split; [|reflexivity].
    unfold parseFileProperties. rewrite Hv. simpl.
    rewrite bool_decide_eq_false_2 by done. by rewrite bool_decide_eq_true_2.
  - intros props err p' Hprops Hc. unfold Create. rewrite Hprops, Hc.
    by destruct (getClient_inl _ _ _ _ _ Hc) as [-> _].
  - intros props c p' Hprops Hc id l. unfold Create. rewrite Hprops, Hc.
    destruct (parseFileProperties_inr _ _ Hprops) as (_ & Hperm & _).
    rewrite bool_decide_eq_true_2 by done.
    eexists. split; [reflexivity|]. simpl. done.
Qed.

Lemma Create_validates_then_starts_upload_witness :
  ∃ w',
    Create sample.env
      {| create_Properties := Encodes sample.props;
         create_TargetConfig := sample.target |}
      sample.no_plugin_client sample.world
    = (({| Operation := resource.OperationCreate;
           OperationStatus := resource.OperationStatusInProgress;
           RequestID := "op-0"; NativeID := "/upload/a.txt";
           ResourceProperties := None; ErrorCode := None;
           StatusMessage := EmptyString |}, None),
       {| client := Some {| asyncsftp.operations := <["op-0" := 0]> ∅ |} |},
       w')
    ∧ asyncsftp.goroutines w' = [asyncsftp.doUpload 0 "hi" 420%N]
    ∧ asyncsftp.remote w' = sample.server.
Proof.
  destruct (Create_validates_then_starts_upload sample.env
              {| create_Properties := Encodes sample.props;
                 create_TargetConfig := sample.target |}
              sample.no_plugin_client sample.world)
    as (_ & _ & _ & H).
  destruct (H sample.props sample.fresh_client sample.connected)
    as (w' & Hc & _ & Hg & Hr & _); [reflexivity|reflexivity|].
  exists w'. split; [exact Hc|]. split; [exact Hg|exact Hr].
Defined.

(** ** Reading *)

(** The calls that read leave the files of the server as they are. *)
Ltac call_cases r :=
  unfold call, next_fault; destruct r as [fs [|[?|] ?] ? ?]; simpl;
  repeat match goal with
         | |- context [match ?m !! ?k with _ => _ end] => destruct (m !! k)
         | |- context [if ?b then _ else _] => destruct b
         end; simpl.

Lemma undisturbed_trans w1 w2 w3 :
  undisturbed w1 w2 → undisturbed w2 w3 → undisturbed w1 w3.
Proof.
  unfold undisturbed.
  intros (?&?&?&?&?&?&?&?) (?&?&?&?&?&?&?&?). repeat split; congruence.
Qed.

Lemma sftp_Stat_reading path : reading (sftp_Stat path).
Proof. intros r. unfold sftp_Stat. by call_cases r. Qed.

Lemma sftp_Open_reading path : reading (sftp_Open path).
Proof. intros r. unfold sftp_Open. by call_cases r. Qed.

Lemma sftp_ReadAll_reading f : reading (sftp_ReadAll f).
Proof. intros r. unfold sftp_ReadAll. by call_cases r. Qed.

Lemma sftp_Close_reading f : reading (sftp_Close f).
Proof. intros r. unfold sftp_Close. by call_cases r. Qed.

Lemma on_remote_eq {A} (f : Remote → (LibError + A) * Remote) w :
  asyncsftp.on_remote f w
  = ((f (asyncsftp.remote w)).1,
     asyncsftp.with_remote (f (asyncsftp.remote w)).2 w).
Proof. unfold asyncsftp.on_remote. by destruct (f (asyncsftp.remote w)). Qed.

Lemma on_remote_reading {A} (f : Remote → (LibError + A) * Remote) w :
  reading f → undisturbed w (asyncsftp.on_remote f w).2.
Proof.
  intros Hf. rewrite on_remote_eq. simpl.
  destruct (Hf (asyncsftp.remote w)) as (?&?&?). by repeat split.
Qed.

(** [ReadFile] changes nothing but the faults the server has in store. *)
Lemma ReadFile_undisturbed path w :
  undisturbed w (asyncsftp.ReadFile path w).2.
Proof.
  unfold asyncsftp.ReadFile.
  pose proof (on_remote_reading _ w (sftp_Stat_reading path)) as H1.
  destruct (asyncsftp.on_remote (sftp_Stat path) w) as [[e|st] w1];
    simpl in H1; [by destruct (os_IsNotExist e)|].
  pose proof (on_remote_reading _ w1 (sftp_Open_reading path)) as H2.
  destruct (asyncsftp.on_remote (sftp_Open path) w1) as [[e|f] w2];
    simpl in H2; [by eapply undisturbed_trans|].
  pose proof (on_remote_reading _ w2 (sftp_ReadAll_reading f)) as H3.
  destruct (asyncsftp.on_remote (sftp_ReadAll f) w2) as [res w3]; simpl in H3.
  pose proof (on_remote_reading _ w3 (sftp_Close_reading f)) as H4.
  destruct (asyncsftp.on_remote (sftp_Close f) w3) as [res' w4]; simpl in H4.
  assert (undisturbed w w4) by eauto using undisturbed_trans.
  by destruct res.
Qed.

(** A path the server does not hold reads as [ErrNotFound], when the server
    answers the [Stat]. *)
Lemma ReadFile_absent path w :
  files (asyncsftp.remote w) !! path = None →
  serves 1 (faults (asyncsftp.remote w)) = true →
  (asyncsftp.ReadFile path w).1 = inl ErrNotFound.
Proof.
  intros Habs Hs. unfold asyncsftp.ReadFile. rewrite on_remote_eq. simpl.
  unfold sftp_Stat.
  destruct (call_served (λ r, match files r !! path with
                              | Some f => (inr (stat_of f), r)
                              | None => (inl ENOENT, r)
                              end) _ 0 Hs) as (r' & -> & Hf & _).
  by rewrite Hf, Habs.
Qed.

(** A file the server holds reads as its content, the four octal digits of
    its permission bits and its size, when the server answers the calls of
    the read. *)
Lemma ReadFile_present path w n :
  files (asyncsftp.remote w) !! path = Some n →
  is_dir n = false →
  serves 3 (faults (asyncsftp.remote w)) = true →
  (asyncsftp.ReadFile path w).1
  = inr {| asyncsftp.Path := path; asyncsftp.Content := data n;
           asyncsftp.Permissions := Sprintf_04o (Perm (mode n));
           asyncsftp.Size := Z.of_nat (String.length (data n));
           asyncsftp.ModifiedAt := mtime n |}.
Proof.
  intros Hn Hd Hs. unfold asyncsftp.ReadFile. rewrite on_remote_eq. simpl.
  unfold sftp_Stat.
  destruct (call_served (λ r, match files r !! path with
                              | Some f => (inr (stat_of f), r)
                              | None => (inl ENOENT, r)
                              end) _ 2 Hs) as (r1 & -> & Hf1 & _ & _ & _ & Hs1).
  rewrite Hf1, Hn. simpl. rewrite on_remote_eq. simpl. unfold sftp_Open.
  destruct (call_served (λ r, match files r !! path with
                              | Some _ => (inr path, r)
                              | None => (inl ENOENT, r)
                              end) _ 1 Hs1) as (r2 & -> & Hf2 & _ & _ & _ & Hs2).
  rewrite Hf2, Hf1, Hn. simpl. rewrite on_remote_eq. simpl. unfold sftp_ReadAll.
  destruct (call_served (λ r, match files r !! path with
                              | Some n => if is_dir n then (inl EFAILURE, r)
                                          else (inr (data n), r)
                              | None => (inl EFAILURE, r)
                              end) _ 0 Hs2) as (r3 & -> & Hf3 & _).
  rewrite Hf3, Hf2, Hf1, Hn, Hd. simpl. rewrite on_remote_eq. simpl. done.
Qed.



(** ** When the client cannot be created *)

(** C6, as the code has it.  When [getClient] fails with [err], plugin and
    world stay as they were (no client, no record, no goroutine), and:
    [Create] (its properties read), [Update] and [Delete] return Failure
    with InternalFailure and the message of [err]; [Read] returns a result
    with error code InternalFailure; [List] returns an empty list of native
    ids, which reports no failure.  No verb returns a Go error. *)
Theorem connection_failure_by_verb (env : Env) (tc : RawMessage TargetConfig)
    (p p' : Plugin) (w : asyncsftp.World) (err : error) :
  getClient env tc p = (inl err, p') →
  p' = p ∧ client p = None
  ∧ (∀ req props,
       create_TargetConfig req = tc →
       parseFileProperties (create_Properties req) = inr props →
       Create env req p w
       = ((failure resource.OperationCreate
             resource.OperationErrorCodeInternalFailure (Error err), None), p, w))
  ∧ (∀ req, read_TargetConfig req = tc →
       Read env req p w
       = (({| read_ResourceType := req_ResourceType req;
              read_Properties := None;
              read_ErrorCode :=
                Some resource.OperationErrorCodeInternalFailure |}, None), p, w))
  ∧ (∀ fuel req, update_TargetConfig req = tc →
       Update env fuel req p w
       = Some ((failure resource.OperationUpdate
                  resource.OperationErrorCodeInternalFailure (Error err), None),
               p, w))
  ∧ (∀ fuel req, delete_TargetConfig req = tc →
       Delete env fuel req p w
       = Some ((failure resource.OperationDelete
                  resource.OperationErrorCodeInternalFailure (Error err), None),
               p, w))
  ∧ (∀ req, list_TargetConfig req = tc →
       List env req p w
       = (({| NativeIDs := []; NextPageToken := None |}, None), p, w)
       ∧ reports_internal_failure
           (Listing (List env req p w).1.1.1) = false).
Proof.
  intros Hc. destruct (getClient_inl _ _ _ _ _ Hc) as [-> Hnil].
  split; [done|]. split; [done|]. split; [|split; [|split; [|split]]].
  - intros req props <- Hprops. unfold Create. by rewrite Hprops, Hc.
  - intros req <-. unfold Read. by rewrite Hc.
  - intros fuel req <-. unfold Update. by rewrite Hc.
  - intros fuel req <-. unfold Delete. by rewrite Hc.
  - intros req <-. unfold List. by rewrite Hc.
Qed.

Lemma connection_failure_by_verb_witness :
  Delete sample.env_unreachable 0
    {| delete_NativeID := "/upload/a.txt"; delete_TargetConfig := sample.target |}
    sample.no_plugin_client sample.world
  = Some ((failure resource.OperationDelete
             resource.OperationErrorCodeInternalFailure
             "failed to create SFTP client: ssh dial failed: connection refused",
           None), sample.no_plugin_client, sample.world).
Proof.
  destruct (connection_failure_by_verb sample.env_unreachable sample.target
              sample.no_plugin_client sample.no_plugin_client sample.world
              (Errorf_w "failed to create SFTP client: "
                 (Errorf_w "ssh dial failed: "
                    (FromLib {| is_not_exist := false;
                                lib_message := "connection refused" |}))))
    as (_ & _ & _ & _ & _ & H & _); [reflexivity|].
  apply (H 0 {| delete_NativeID := "/upload/a.txt";
                delete_TargetConfig := sample.target |}).
  reflexivity.
Defined.

(** C6, as stated, fails for [List]: with a server that refuses the dial,
    [getClient] fails and [List] returns an empty list and no error, which
    is not a Failure with InternalFailure. *)
Lemma List_hides_connection_failure :
  (getClient sample.env_unreachable sample.target sample.no_plugin_client).1
  = inl (Errorf_w "failed to create SFTP client: "
           (Errorf_w "ssh dial failed: "
              (FromLib {| is_not_exist := false;
                          lib_message := "connection refused" |})))
  ∧ List sample.env_unreachable
      {| list_TargetConfig := sample.target; AdditionalProperties := ∅ |}
      sample.no_plugin_client sample.world
    = (({| NativeIDs := []; NextPageToken := None |}, None),
       sample.no_plugin_client, sample.world)
  ∧ reports_internal_failure
      (Listing (List sample.env_unreachable
                  {| list_TargetConfig := sample.target;
                     AdditionalProperties := ∅ |}
                  sample.no_plugin_client sample.world).1.1.1) = false.
Proof. by split; [|split]. Qed.

(** ** The store *)





(** ** Steps of goroutines *)

(** What a step leaves alone: the pool, the choices of the scheduler, the
    uuid source, and the size of the heap. *)
Lemma exec_frame g w :
  asyncsftp.goroutines (asyncsftp.exec g w).2 = asyncsftp.goroutines w
  ∧ asyncsftp.schedule (asyncsftp.exec g w).2 = asyncsftp.schedule w
  ∧ asyncsftp.uuid_next (asyncsftp.exec g w).2 = asyncsftp.uuid_next w
  ∧ length (asyncsftp.heap (asyncsftp.exec g w).2) = length (asyncsftp.heap w).
Proof.
  destruct g; simpl; rewrite ?on_remote_eq; simpl;
    repeat match goal with
           | |- context [match ?x with _ => _ end] => destruct x; simpl
           end;
    rewrite ?length_alter; done.
Qed.

(** A step keeps every record on the heap, with what was fixed at its
    start. *)
Lemma exec_same_job g w l o :
  asyncsftp.heap w !! l = Some o →
  ∃ o', asyncsftp.heap (asyncsftp.exec g w).2 !! l = Some o' ∧ same_job o o'.
Proof.
  intros Ho.
  destruct g; simpl; rewrite ?on_remote_eq; simpl;
    repeat match goal with
           | |- context [match ?x with _ => _ end] => destruct x; simpl
           end;
    try (by exists o);
    rewrite list_lookup_alter; case_decide; subst; rewrite Ho; simpl;
    eexists; (split; [reflexivity|]); done.
Qed.

(** A step changes no record but the one of its goroutine. *)
Lemma exec_other g w l :
  l ≠ owner g →
  asyncsftp.heap (asyncsftp.exec g w).2 !! l = asyncsftp.heap w !! l.
Proof.
  intros Hne.
  destruct g; simpl in *; rewrite ?on_remote_eq; simpl;
    repeat match goal with
           | |- context [match ?x with _ => _ end] => destruct x; simpl
           end;
    try done; by rewrite list_lookup_alter_ne.
Qed.

(** The goroutine that remains after a step works on the same record, will
    complete it with a terminal state, and is nearer to its end. *)
Lemma exec_successor g w g' :
  (asyncsftp.exec g w).1 = Some g' →
  owner g' = owner g ∧ completes_terminally g'
  ∧ steps_left g' < steps_left g.
Proof.
  destruct g; simpl; rewrite ?on_remote_eq; simpl;
    repeat match goal with
           | |- context [match ?x with _ => _ end] => destruct x; simpl
           end;
    intros [= <-]; simpl; repeat split; lia.
Qed.

(** The goroutine that returns is the call of [completeOperation], and its
    record holds the state it was called with. *)
Lemma exec_returns g w o :
  (asyncsftp.exec g w).1 = None →
  asyncsftp.heap w !! owner g = Some o →
  ∃ st err o',
    g = asyncsftp.completeOperation_call (owner g) st err
    ∧ asyncsftp.heap (asyncsftp.exec g w).2 !! owner g = Some o'
    ∧ asyncsftp.State o' = st
    ∧ asyncsftp.op_Error o' = match err with
                              | Some e => Error e
                              | None => asyncsftp.op_Error o
                              end.
Proof.
  destruct g as [| | | | | | |op st err]; simpl; rewrite ?on_remote_eq; simpl;
    try (repeat match goal with
                | |- context [match ?x with _ => _ end] => destruct x; simpl
                end;
         discriminate).
  intros _ Ho. exists st, err.
  unfold asyncsftp.completeOperation. simpl.
  rewrite list_lookup_alter_eq, Ho. simpl.
  eexists. split; [reflexivity|]. split; [reflexivity|]. by split.
Qed.

Lemma steps_left_pos g : 0 < steps_left g.
Proof. destruct g; simpl; lia. Qed.

(** ** The scheduler *)

Lemma run_goroutine_None i w :
  asyncsftp.goroutines w !! i = None → asyncsftp.run_goroutine i w = w.
Proof. unfold asyncsftp.run_goroutine. by intros ->. Qed.

Lemma run_goroutine_Some i w g :
  asyncsftp.goroutines w !! i = Some g →
  asyncsftp.run_goroutine i w
  = asyncsftp.with_goroutines
      match (asyncsftp.exec g w).1 with
      | Some g' => <[i := g']> (asyncsftp.goroutines w)
      | None => delete i (asyncsftp.goroutines w)
      end (asyncsftp.exec g w).2.
Proof.
  unfold asyncsftp.run_goroutine. intros ->.
  destruct (exec_frame g w) as (Hg & _).
  destruct (asyncsftp.exec g w) as [g' w']. simpl in *. by rewrite Hg.
Qed.

(** The step the scheduler takes: goroutine [i] of a world [w0] that is [w]
    with at most one choice of the scheduler used up. *)
Lemma sched_pick w :
  ∃ i w0,
    asyncsftp.sched w = asyncsftp.run_goroutine i w0
    ∧ asyncsftp.remote w0 = asyncsftp.remote w
    ∧ asyncsftp.heap w0 = asyncsftp.heap w
    ∧ asyncsftp.goroutines w0 = asyncsftp.goroutines w
    ∧ asyncsftp.clock w0 = asyncsftp.clock w
    ∧ asyncsftp.uuid_next w0 = asyncsftp.uuid_next w
    ∧ asyncsftp.schedule w0 = tail (asyncsftp.schedule w)
    ∧ (asyncsftp.goroutines w ≠ [] → i < length (asyncsftp.goroutines w)).
Proof.
  unfold asyncsftp.sched. destruct (asyncsftp.schedule w) as [|n s] eqn:E.
  - exists 0, w. rewrite E. repeat split; try done.
    destruct (asyncsftp.goroutines w); [done|simpl; lia].
  - eexists _, _. split; [reflexivity|]. simpl. repeat split; try done.
    intros Hne. apply Nat.mod_upper_bound.
    by destruct (asyncsftp.goroutines w).
Qed.

Lemma sum_list_with_insert {A} (f : A → nat) (l : list A) i x y :
  l !! i = Some x →
  sum_list_with f (<[i := y]> l) + f x = sum_list_with f l + f y.
Proof.
  intros Hi. rewrite insert_take_drop by (by eapply lookup_lt_Some).
  rewrite <- (take_drop_middle l i x Hi) at 3.
  rewrite !sum_list_with_app. simpl. lia.
Qed.

Lemma sum_list_with_delete {A} (f : A → nat) (l : list A) i x :
  l !! i = Some x →
  sum_list_with f (delete i l) + f x = sum_list_with f l.
Proof.
  intros Hi. rewrite delete_take_drop.
  rewrite <- (take_drop_middle l i x Hi) at 3.
  rewrite !sum_list_with_app. simpl. lia.
Qed.

(** While a goroutine remains, a step of the scheduler lowers the load. *)
Lemma sched_load w :
  asyncsftp.goroutines w ≠ [] → load (asyncsftp.sched w) < load w.
Proof.
  intros Hne. destruct (sched_pick w) as (i & w0 & -> & _ & _ & Hg & _ & _ & Hs & Hi).
  specialize (Hi Hne). rewrite <- Hg in Hi.
  destruct (lookup_lt_is_Some_2 _ _ Hi) as [g Hgi].
  rewrite (run_goroutine_Some _ _ _ Hgi). unfold load. simpl.
  destruct (exec_frame g w0) as (_ & -> & _). rewrite Hs, <- Hg.
  assert (length (tail (asyncsftp.schedule w)) ≤ length (asyncsftp.schedule w))
    by (destruct (asyncsftp.schedule w); simpl; lia).
  destruct (asyncsftp.exec g w0).1 as [g'|] eqn:E.
  - pose proof (sum_list_with_insert steps_left _ _ _ g' Hgi).
    destruct (exec_successor _ _ _ E) as (_ & _ & ?). lia.
  - pose proof (sum_list_with_delete steps_left _ _ _ Hgi).
    pose proof (steps_left_pos g). lia.
Qed.

Lemma sched_same_job w l o :
  asyncsftp.heap w !! l = Some o →
  ∃ o', asyncsftp.heap (asyncsftp.sched w) !! l = Some o' ∧ same_job o o'.
Proof.
  intros Ho. destruct (sched_pick w) as (i & w0 & -> & _ & Hh & _).
  rewrite <- Hh in Ho.
  destruct (asyncsftp.goroutines w0 !! i) as [g|] eqn:E.
  - rewrite (run_goroutine_Some _ _ _ E). simpl. by apply exec_same_job.
  - rewrite (run_goroutine_None _ _ E). by exists o.
Qed.

Lemma run_S k w : run (S k) w = run k (asyncsftp.sched w).
Proof. unfold run. apply Nat.iter_succ_r. Qed.

Lemma same_job_trans o1 o2 o3 : same_job o1 o2 → same_job o2 o3 → same_job o1 o3.
Proof. unfold same_job. intros (?&?&?&?) (?&?&?&?). repeat split; congruence. Qed.

Lemma run_same_job k w l o :
  asyncsftp.heap w !! l = Some o →
  ∃ o', asyncsftp.heap (run k w) !! l = Some o' ∧ same_job o o'.
Proof.
  revert w o. induction k as [|k IH]; intros w o Ho.
  - exists o. by repeat split.
  - rewrite run_S. destruct (sched_same_job _ _ _ Ho) as (o1 & Ho1 & Hj1).
    destruct (IH _ _ Ho1) as (o2 & Ho2 & Hj2).
    exists o2. split; [done|]. by eapply same_job_trans.
Qed.

(** A record in progress that is live stays live through a step of the
    scheduler. *)
Lemma sched_live l w o :
  asyncsftp.heap w !! l = Some o →
  asyncsftp.State o = asyncsftp.StateInProgress →
  live l w → live l (asyncsftp.sched w).
Proof.
  intros Ho Hst (o0 & Ho0 & Hlive). rewrite Ho in Ho0. injection Ho0 as <-.
  destruct (Hlive Hst) as (g & Hin & Hown & Hgood).
  apply list_elem_of_lookup in Hin as [j Hj].
  destruct (sched_pick w) as (i & w0 & -> & _ & Hh & Hg & _).
  rewrite <- Hh in Ho. rewrite <- Hg in Hj.
  destruct (asyncsftp.goroutines w0 !! i) as [gi|] eqn:E.
  2:{ rewrite (run_goroutine_None _ _ E). exists o. split; [done|].
      intros _. exists g. split; [|done]. by eapply list_elem_of_lookup_2. }
  rewrite (run_goroutine_Some _ _ _ E). unfold live. simpl.
  destruct (exec_same_job gi _ _ _ Ho) as (o' & Ho' & _).
  exists o'. split; [done|]. intros Hst'.
  destruct (decide (j = i)) as [->|Hne].
  - rewrite E in Hj. injection Hj as ->.
    destruct (asyncsftp.exec g w0).1 as [g'|] eqn:Eg.
    + destruct (exec_successor _ _ _ Eg) as (Ho1 & Hg1 & _).
      exists g'. split; [|by rewrite Ho1].
      eapply list_elem_of_lookup_2. apply list_lookup_insert_eq.
      by eapply lookup_lt_Some.
    + rewrite <- Hown in Ho, Ho'.
      destruct (exec_returns _ _ _ Eg Ho) as (st & err & o1 & Hgeq & Ho1 & Hst1 & _).
      rewrite Ho1 in Ho'. injection Ho' as ->.
      rewrite Hgeq in Hgood. simpl in Hgood.
      rewrite Hst1 in Hst'. by rewrite Hst' in Hgood.
  - exists g. split; [|done].
    destruct (asyncsftp.exec gi w0).1 as [g'|].
    + eapply list_elem_of_lookup_2. by rewrite list_lookup_insert_ne.
    + destruct (decide (j < i)).
      * eapply list_elem_of_lookup_2. by rewrite list_lookup_delete_lt.
      * destruct j as [|j]; [lia|].
        eapply (list_elem_of_lookup_2 _ j).
        rewrite list_lookup_delete_ge by lia. done.
Qed.

Lemma Copy_id o : asyncsftp.Copy o = o.
Proof. destruct o as [? ? ? ? ? [r|] ? ?]; reflexivity. Qed.

(** ** Delete *)

(** The wait loop of [Delete] ends: on a live record it returns within
    [load w] turns after the first one, at the first world in which the
    record is terminal, with Success for Completed and with Failure and the
    message of the record for Failed. *)
Lemma Delete_wait_ends fuel id nid c w l :
  asyncsftp.operations c !! id = Some l →
  live l w →
  load w < fuel →
  ∃ k r o,
    Delete_wait fuel id nid c w = Some (r, run k w)
    ∧ asyncsftp.heap (run k w) !! l = Some o
    ∧ (∀ j, j < k →
         asyncsftp.State <$> asyncsftp.heap (run j w) !! l
         = Some asyncsftp.StateInProgress)
    ∧ ((asyncsftp.State o = asyncsftp.StateCompleted
        ∧ r = {| Operation := resource.OperationDelete;
                 OperationStatus := resource.OperationStatusSuccess;
                 RequestID := EmptyString; NativeID := nid;
                 ResourceProperties := None; ErrorCode := None;
                 StatusMessage := EmptyString |})
       ∨ (asyncsftp.State o = asyncsftp.StateFailure
          ∧ r = failure resource.OperationDelete
                  resource.OperationErrorCodeInternalFailure
                  (asyncsftp.op_Error o))).
Proof.
  intros Hid. revert w. induction fuel as [|fuel IH]; intros w Hlive Hload; [lia|].
  pose proof Hlive as (o & Ho & Hg). simpl.
  unfold asyncsftp.GetStatus. rewrite Hid, Ho, Copy_id.
  destruct (asyncsftp.State o) eqn:Hst.
  - destruct (Hg eq_refl) as (g & Hin & _).
    assert (asyncsftp.goroutines w ≠ []) as Hne by (by intros E; rewrite E in Hin; inversion Hin).
    pose proof (sched_load _ Hne).
    destruct (IH (asyncsftp.sched w)) as (k & r & o' & Hw & Ho' & Hbefore & Hr);
      [by eapply sched_live|lia|].
    exists (S k), r, o'. rewrite run_S. split; [done|]. split; [done|].
    split; [|done]. intros [|j] Hj; [by simpl; rewrite Ho; simpl; rewrite Hst|].
    rewrite run_S. apply Hbefore. lia.
  - eexists 0, _, o. split; [reflexivity|]. split; [done|].
    split; [intros; lia|]. by left.
  - eexists 0, _, o. split; [reflexivity|]. split; [done|].
    split; [intros; lia|]. by right.
Qed.

(** C4, as the code has it.  With a client at hand, [Delete] reads the
    file first (a path the server does not hold reads as [ErrNotFound], a
    plain file it holds reads with success, when the server answers).
    When the read says the file is absent, it returns Failure with
    NotFound and starts no job (plugin and world are as after the read,
    which changes neither store nor files).  When the read fails
    otherwise, it returns Failure with InternalFailure, again with no job.
    When the read finds the file, it registers a Delete record for the
    path under a new id, starts its goroutine, and waits: given fuel
    beyond the load of the world, the loop ends at the first world where
    the record is terminal, and the result is Success if the record is
    Completed, and Failure with the error message of the record if it is
    Failed. *)
Theorem Delete_probes_then_waits (env : Env) (req : DeleteRequest)
    (p p' : Plugin) (c : asyncsftp.Client) (w : asyncsftp.World) :
  getClient env (delete_TargetConfig req) p = (inr c, p') →
  let nid := delete_NativeID req in
  let probe := asyncsftp.ReadFile nid w in
  undisturbed w probe.2
  ∧ (files (asyncsftp.remote w) !! nid = None →
     serves 1 (faults (asyncsftp.remote w)) = true →
     probe.1 = inl ErrNotFound)
  ∧ (∀ n, files (asyncsftp.remote w) !! nid = Some n → is_dir n = false →
       serves 3 (faults (asyncsftp.remote w)) = true →
       ∃ fi, probe.1 = inr fi)
  ∧ (∀ err fuel,
       probe.1 = inl err → errors_Is_ErrNotFound err = true →
       Delete env fuel req p w
       = Some (({| Operation := resource.OperationDelete;
                   OperationStatus := resource.OperationStatusFailure;
                   RequestID := EmptyString; NativeID := nid;
                   ResourceProperties := None;
                   ErrorCode := Some resource.OperationErrorCodeNotFound;
                   StatusMessage := EmptyString |}, None), p', probe.2))
  ∧ (∀ err fuel,
       probe.1 = inl err → errors_Is_ErrNotFound err = false →
       Delete env fuel req p w
       = Some ((failure resource.OperationDelete
                  resource.OperationErrorCodeInternalFailure (Error err), None),
               p', probe.2))
  ∧ (∀ fi fuel,
       probe.1 = inr fi → load w + 2 < fuel →
       let id := asyncsftp.uuid_String (asyncsftp.uuid_next w) in
       let l := length (asyncsftp.heap w) in
       let c1 := {| asyncsftp.operations :=
                      <[id := l]> (asyncsftp.operations c) |} in
       let w1 := (asyncsftp.StartDelete nid c probe.2).2 in
       ∃ k r o,
         Delete env fuel req p w
         = Some ((r, None), {| client := Some c1 |}, run k w1)
         ∧ asyncsftp.goroutines w1
           = asyncsftp.goroutines w ++ [asyncsftp.doDelete l]
         ∧ asyncsftp.GetStatus id c1 (run k w1) = inr o
         ∧ asyncsftp.ID o = id
         ∧ asyncsftp.op_Type o = asyncsftp.OperationTypeDelete
         ∧ asyncsftp.op_Path o = nid
         ∧ (∀ j, j < k →
              asyncsftp.State <$> asyncsftp.heap (run j w1) !! l
              = Some asyncsftp.StateInProgress)
         ∧ ((asyncsftp.State o = asyncsftp.StateCompleted
             ∧ r = {| Operation := resource.OperationDelete;
                      OperationStatus := resource.OperationStatusSuccess;
                      RequestID := EmptyString; NativeID := nid;
                      ResourceProperties := None; ErrorCode := None;
                      StatusMessage := EmptyString |})
            ∨ (asyncsftp.State o = asyncsftp.StateFailure
               ∧ r = failure resource.OperationDelete
                       resource.OperationErrorCodeInternalFailure
                       (asyncsftp.op_Error o)))).
Proof.
  intros Hc nid probe.
  pose proof (ReadFile_undisturbed nid w) as Hu. fold probe in Hu.
  split; [done|].
  split; [by apply ReadFile_absent|].
  split; [by intros n Hn Hd Hs; eexists; apply (ReadFile_present _ _ n)|].
  split; [|split].
  - intros err fuel Hp Hnf. unfold Delete. rewrite Hc. fold nid. fold probe.
    destruct probe as [res wr]. simpl in *. subst res. by rewrite Hnf.
  - intros err fuel Hp Hnf. unfold Delete. rewrite Hc. fold nid. fold probe.
    destruct probe as [res wr]. simpl in *. subst res. by rewrite Hnf.
  - intros fi fuel Hp Hfuel id l c1 w1. unfold Delete. rewrite Hc.
    fold nid. fold probe. subst w1.
    destruct probe as [res wr]. simpl in Hp, Hu |- *. subst res.
    destruct Hu as (_ & _ & _ & Hh & Hg & Hs & _ & Hn).
    unfold asyncsftp.StartDelete. simpl. rewrite Hn, Hh. fold id l c1.
    set (o0 := {| asyncsftp.ID := id;
                  asyncsftp.op_Type := asyncsftp.OperationTypeDelete;
                  asyncsftp.op_Path := nid;
                  asyncsftp.State := asyncsftp.StateInProgress;
                  asyncsftp.op_Error := EmptyString; asyncsftp.Result := None;
                  asyncsftp.StartedAt := asyncsftp.clock wr;
                  asyncsftp.CompletedAt := 0%Z |}).
    match goal with
    | |- context [Delete_wait fuel id nid c1 ?w] => set (w1 := w)
    end.
    assert (asyncsftp.heap w1 !! l = Some o0) as Ho0.
    { subst w1 l. simpl. by rewrite lookup_app_r, Nat.sub_diag. }
    assert (live l w1) as Hlive.
    { exists o0. split; [done|]. intros _. exists (asyncsftp.doDelete l).
      split; [|done]. subst w1. simpl. set_solver. }
    assert (load w1 < fuel) as Hload.
    { subst w1. unfold load in *. simpl. rewrite Hs, Hg.
      rewrite sum_list_with_app. simpl. lia. }
    destruct (Delete_wait_ends fuel id nid c1 w1 l) as (k & r & o & Hw & Ho & Hb & Hr);
      [by simpl; rewrite lookup_insert_eq|done|done|].
    rewrite Hw. exists k, r, o. split; [done|].
    split; [by subst w1; simpl; rewrite Hg|].
    destruct (run_same_job k _ _ _ Ho0) as (o' & Ho' & Hj).
    rewrite Ho in Ho'. injection Ho' as <-. destruct Hj as (HI & HT & HP & _).
    split; [by unfold asyncsftp.GetStatus; simpl; rewrite lookup_insert_eq, Ho, Copy_id|].
    done.
Qed.

Lemma Delete_probes_then_waits_witness :
  ∃ k o w1,
    Delete sample.env 3
      {| delete_NativeID := "/upload/a.txt";
         delete_TargetConfig := sample.target |}
      sample.connected sample.world_with_file
    = Some (({| Operation := resource.OperationDelete;
                OperationStatus := resource.OperationStatusSuccess;
                RequestID := EmptyString; NativeID := "/upload/a.txt";
                ResourceProperties := None; ErrorCode := None;
                StatusMessage := EmptyString |}, None),
            {| client := Some {| asyncsftp.operations := <["op-0" := 0]> ∅ |} |},
            run k w1)
    ∧ asyncsftp.GetStatus "op-0"
        {| asyncsftp.operations := <["op-0" := 0]> ∅ |} (run k w1) = inr o
    ∧ asyncsftp.State o = asyncsftp.StateCompleted.
Proof.
  destruct (Delete_probes_then_waits sample.env
              {| delete_NativeID := "/upload/a.txt";
                 delete_TargetConfig := sample.target |}
              sample.connected sample.connected sample.fresh_client
              sample.world_with_file eq_refl) as (_ & _ & _ & _ & _ & H).
  destruct (H {| asyncsftp.Path := "/upload/a.txt"; asyncsftp.Content := "hi";
                 asyncsftp.Permissions := "0644"; asyncsftp.Size := 2;
                 asyncsftp.ModifiedAt := 99%Z |} 3)
    as (k & r & o & Heq & _ & Hst & _ & _ & _ & _ & [[Hdone ->]|[Hfail ->]]).
  - reflexivity.
  - vm_compute. lia.
  - eexists k, o, _. split; [exact Heq|]. split; [exact Hst|exact Hdone].
  - exfalso. revert Heq. vm_compute. discriminate.
Defined.

(** C4, as stated, fails: the server holds a directory at the native id
    and serves every call, so the target is not absent; the read fails on
    it with an error that is not [ErrNotFound], and [Delete] returns
    Failure with InternalFailure and the message of the read.  No job is
    started (the wait loop is given no fuel, the store of the client and
    the world are as before): the result is neither NotFound nor that of
    a Delete job. *)
Lemma Delete_of_directory_starts_no_job :
  files (asyncsftp.remote scenario.tree_world) !! "/upload/sub"
  = Some {| is_dir := true; data := EmptyString; mode := 493%N;
            mtime := 3%Z |}
  ∧ faults (asyncsftp.remote scenario.tree_world) = []
  ∧ (∃ err, (asyncsftp.ReadFile "/upload/sub" scenario.tree_world).1
            = inl err
            ∧ errors_Is_ErrNotFound err = false
            ∧ Delete sample.env 0
                {| delete_NativeID := "/upload/sub";
                   delete_TargetConfig := sample.target |}
                sample.connected scenario.tree_world
              = Some ((failure resource.OperationDelete
                         resource.OperationErrorCodeInternalFailure
                         (Error err), None),
                      sample.connected, scenario.tree_world))
  ∧ asyncsftp.heap scenario.tree_world = []
  ∧ asyncsftp.goroutines scenario.tree_world = [].
Proof.
  split; [reflexivity|]. split; [reflexivity|]. split; [|by split].
  eexists. split; [reflexivity|]. split; reflexivity.
Qed.

(** ** Update *)

(** C8, as the code has it.  With a client at hand, prior properties that
    are read, and desired content and permissions equal to the prior ones,
    [Update] starts no job and issues no permission change: it only reads
    the file back, which leaves files, records and goroutines as they were.
    It returns Success with the properties of the file as read when the
    read succeeds, and Failure with InternalFailure and the message of the
    error when it fails; on a server that holds the file and answers the
    read, the properties are those of the held file. *)
Theorem Update_without_change_only_reads (env : Env) (fuel : nat)
    (req : UpdateRequest) (p p' : Plugin) (c : asyncsftp.Client)
    (w : asyncsftp.World) (priorProps desiredProps : FileProperties) :
  getClient env (update_TargetConfig req) p = (inr c, p') →
  parseFileProperties (DesiredProperties req) = inr desiredProps →
  parseFileProperties (PriorProperties req) = inr priorProps →
  Content priorProps = Content desiredProps →
  Permissions priorProps = Permissions desiredProps →
  let nid := update_NativeID req in
  let readback := asyncsftp.ReadFile nid w in
  ∃ r,
    Update env fuel req p w = Some ((r, None), p', readback.2)
    ∧ undisturbed w readback.2
    ∧ match readback.1 with
      | inr fileInfo =>
          r = {| Operation := resource.OperationUpdate;
                 OperationStatus := resource.OperationStatusSuccess;
                 RequestID := EmptyString; NativeID := nid;
                 ResourceProperties := Some (props_of env fileInfo);
                 ErrorCode := None; StatusMessage := EmptyString |}
      | inl err =>
          r = failure resource.OperationUpdate
                resource.OperationErrorCodeInternalFailure (Error err)
      end
    ∧ (∀ n, files (asyncsftp.remote w) !! nid = Some n →
         is_dir n = false →
         serves 3 (faults (asyncsftp.remote w)) = true →
         r = {| Operation := resource.OperationUpdate;
                OperationStatus := resource.OperationStatusSuccess;
                RequestID := EmptyString; NativeID := nid;
                ResourceProperties :=
                  Some {| Path := nid; Content := data n;
                          Permissions := Sprintf_04o (Perm (mode n));
                          Size := Z.of_nat (String.length (data n));
                          ModifiedAt := time_Format env (mtime n) |};
                ErrorCode := None; StatusMessage := EmptyString |}).
Proof.
  intros Hc Hd Hp Hcontent Hperm nid readback.
  pose proof (ReadFile_undisturbed nid w) as Hu. fold readback in Hu.
  assert (∀ n, files (asyncsftp.remote w) !! nid = Some n →
            is_dir n = false →
            serves 3 (faults (asyncsftp.remote w)) = true →
            readback.1
            = inr {| asyncsftp.Path := nid; asyncsftp.Content := data n;
                     asyncsftp.Permissions := Sprintf_04o (Perm (mode n));
                     asyncsftp.Size := Z.of_nat (String.length (data n));
                     asyncsftp.ModifiedAt := mtime n |}) as Hpresent
    by (intros; by apply ReadFile_present).
  unfold Update. rewrite Hc, Hd, Hp.
  rewrite bool_decide_eq_false_2 by (by intros []).
  rewrite bool_decide_eq_false_2 by (by intros []).
  unfold Update_readback. fold nid. fold readback.
  destruct readback as [[err|fileInfo] wr]; simpl in *.
  - eexists. split; [reflexivity|]. split; [done|]. split; [done|].
    intros n Hn Hdir Hs. by specialize (Hpresent n Hn Hdir Hs).
  - eexists. split; [reflexivity|]. split; [done|]. split; [done|].
    intros n Hn Hdir Hs. specialize (Hpresent n Hn Hdir Hs).
    by injection Hpresent as ->.
Qed.

Lemma Update_without_change_only_reads_witness :
  Update sample.env 0
    {| update_NativeID := "/upload/a.txt";
       PriorProperties := Encodes sample.props;
       DesiredProperties := Encodes sample.props;
       update_TargetConfig := sample.target |}
    sample.connected sample.world_with_file
  = Some (({| Operation := resource.OperationUpdate;
              OperationStatus := resource.OperationStatusSuccess;
              RequestID := EmptyString; NativeID := "/upload/a.txt";
              ResourceProperties :=
                Some {| Path := "/upload/a.txt"; Content := "hi";
                        Permissions := "0644"; Size := 2;
                        ModifiedAt := "2025-01-01T00:00:00Z" |};
              ErrorCode := None; StatusMessage := EmptyString |}, None),
          sample.connected, sample.world_with_file).
Proof.
  destruct (Update_without_change_only_reads sample.env 0
              {| update_NativeID := "/upload/a.txt";
                 PriorProperties := Encodes sample.props;
                 DesiredProperties := Encodes sample.props;
                 update_TargetConfig := sample.target |}
              sample.connected sample.connected sample.fresh_client
              sample.world_with_file sample.props sample.props)
    as (r & Heq & _ & _ & Hr);
    [reflexivity|reflexivity|reflexivity|reflexivity|reflexivity|].
  rewrite Heq.
  rewrite (Hr {| is_dir := false; data := "hi"; mode := 420%N; mtime := 99%Z |});
    reflexivity.
Defined.

(** C8, as stated, fails: prior and desired properties are equal, the
    server does not hold the file, and [Update] returns Failure with
    InternalFailure ("file not found"), not Success. *)
Lemma Update_without_change_can_fail :
  Update sample.env 0
    {| update_NativeID := "/upload/a.txt";
       PriorProperties := Encodes sample.props;
       DesiredProperties := Encodes sample.props;
       update_TargetConfig := sample.target |}
    sample.connected sample.world
  = Some (({| Operation := resource.OperationUpdate;
              OperationStatus := resource.OperationStatusFailure;
              RequestID := EmptyString; NativeID := EmptyString;
              ResourceProperties := None;
              ErrorCode := Some resource.OperationErrorCodeInternalFailure;
              StatusMessage := "file not found" |}, None),
          sample.connected, sample.world).
Proof. reflexivity. Qed.

(** ** Jobs and the server *)

(** While a goroutine remains, a step of the scheduler lowers the work. *)
Lemma sched_work w :
  asyncsftp.goroutines w ≠ [] → work (asyncsftp.sched w) < work w.
Proof.
  intros Hne. destruct (sched_pick w) as (i & w0 & -> & _ & _ & Hg & _ & _ & _ & Hi).
  specialize (Hi Hne). rewrite <- Hg in Hi.
  destruct (lookup_lt_is_Some_2 _ _ Hi) as [g Hgi].
  rewrite (run_goroutine_Some _ _ _ Hgi). unfold work. simpl. rewrite <- Hg.
  destruct (asyncsftp.exec g w0).1 as [g'|] eqn:E.
  - pose proof (sum_list_with_insert steps_left _ _ _ g' Hgi).
    destruct (exec_successor _ _ _ E) as (_ & _ & ?). lia.
  - pose proof (sum_list_with_delete steps_left _ _ _ Hgi).
    pose proof (steps_left_pos g). lia.
Qed.

Lemma sched_work_le w : work (asyncsftp.sched w) ≤ work w.
Proof.
  destruct (asyncsftp.goroutines w) as [|g gs] eqn:E.
  - destruct (sched_pick w) as (i & w0 & -> & _ & _ & Hg & _).
    rewrite run_goroutine_None; [by unfold work; rewrite Hg|].
    by rewrite Hg, E.
  - pose proof (sched_work w). rewrite E in *. by apply Nat.lt_le_incl, H.
Qed.

(** After as many steps as there is work, every goroutine has returned. *)
Lemma run_out k w : work w ≤ k → asyncsftp.goroutines (run k w) = [].
Proof.
  revert w. induction k as [|k IH]; intros w Hk.
  - simpl. unfold work in Hk. destruct (asyncsftp.goroutines w) as [|g gs]; [done|].
    simpl in Hk. pose proof (steps_left_pos g). lia.
  - rewrite run_S. apply IH.
    destruct (asyncsftp.goroutines w) as [|g gs] eqn:E.
    + pose proof (sched_work_le w). unfold work in *. rewrite E in *. simpl in *. lia.
    + pose proof (sched_work w). rewrite E in *.
      assert (work (asyncsftp.sched w) < work w) by (by apply H). lia.
Qed.

(** The step of the scheduler in a world with a single goroutine. *)
Lemma sched_single w g :
  asyncsftp.goroutines w = [g] →
  ∃ w0,
    asyncsftp.remote w0 = asyncsftp.remote w
    ∧ asyncsftp.heap w0 = asyncsftp.heap w
    ∧ asyncsftp.sched w
      = asyncsftp.with_goroutines
          match (asyncsftp.exec g w0).1 with
          | Some g' => [g']
          | None => []
          end (asyncsftp.exec g w0).2.
Proof.
  intros Hg. destruct (sched_pick w) as (i & w0 & -> & Hr & Hh & Hg0 & _ & _ & _ & Hi).
  rewrite Hg in Hi, Hg0. assert (i = 0) as -> by (specialize (Hi ltac:(done)); simpl in Hi; lia).
  exists w0. split; [done|]. split; [done|].
  rewrite (run_goroutine_Some 0 w0 g) by (by rewrite Hg0). rewrite Hg0.
  by destruct (asyncsftp.exec g w0).1.
Qed.

Lemma sched_idle w :
  asyncsftp.goroutines w = [] →
  asyncsftp.remote (asyncsftp.sched w) = asyncsftp.remote w
  ∧ asyncsftp.heap (asyncsftp.sched w) = asyncsftp.heap w
  ∧ asyncsftp.goroutines (asyncsftp.sched w) = [].
Proof.
  intros Hg. destruct (sched_pick w) as (i & w0 & -> & Hr & Hh & Hg0 & _).
  rewrite run_goroutine_None by (by rewrite Hg0, Hg). by rewrite Hg0.
Qed.

(** *** What the calls of an upload and of a delete do *)

Lemma sftp_Create_ok path r f r' :
  sftp_Create path r = (inr f, r') →
  f = path ∧ ∃ n, files r' !! path = Some n ∧ is_dir n = false.
Proof.
  unfold sftp_Create, call, next_fault.
  destruct r as [fs [|[e|] flt] rc cm]; simpl; try done;
    destruct (fs !! path) as [n|] eqn:E; simpl;
    try destruct (is_dir n) eqn:Ed; simpl; intros [= <- <-]; simpl;
    (split; [done|]); rewrite ?lookup_insert_eq; by eexists.
Qed.

Lemma sftp_Write_ok f content r u r' :
  sftp_Write f content r = (inr u, r') →
  (∃ n, files r !! f = Some n ∧ is_dir n = false) →
  holds f content r'.
Proof.
  unfold sftp_Write, call, next_fault. intros Hw (n & Hn & Hd). revert Hw.
  destruct r as [fs [|[e|] flt] rc cm]; simpl in *; try done;
    rewrite Hn; intros [= <- <-]; simpl;
    exists {| is_dir := is_dir n; data := content; mode := mode n; mtime := rc |};
    simpl; by rewrite lookup_insert_eq.
Qed.

Lemma sftp_Chmod_ok path m content r u r' :
  sftp_Chmod path m r = (inr u, r') →
  holds path content r → uploaded path content m r'.
Proof.
  unfold sftp_Chmod, call, next_fault. intros Hc (n & Hn & Hd & Hdata). revert Hc.
  destruct r as [fs [|[e|] flt] rc cm]; simpl in *; try done;
    rewrite Hn; intros [= <- <-]; simpl;
    exists {| is_dir := is_dir n; data := data n; mode := m; mtime := mtime n |};
    simpl; by rewrite lookup_insert_eq.
Qed.

Lemma holds_reading {A} (f : Remote → (LibError + A) * Remote) path content r :
  reading f → holds path content r → holds path content (f r).2.
Proof. intros Hf (n & Hn & ?). exists n. by destruct (Hf r) as (-> & _). Qed.

Lemma uploaded_reading {A} (f : Remote → (LibError + A) * Remote) path content m r :
  reading f → uploaded path content m r → uploaded path content m (f r).2.
Proof. intros Hf (n & Hn & ?). exists n. by destruct (Hf r) as (-> & _). Qed.

Lemma sftp_Remove_served path r n :
  serves (S n) (faults r) = true →
  (∀ f, files r !! path = Some f → is_dir f = false) →
  files (sftp_Remove path r).2 = delete path (files r)
  ∧ serves n (faults (sftp_Remove path r).2) = true
  ∧ ((sftp_Remove path r).1 = inr () ∨ (sftp_Remove path r).1 = inl ENOENT).
Proof.
  intros Hs Hplain. unfold sftp_Remove.
  destruct (call_served (λ r, match files r !! path with
                              | Some n =>
                                  if is_dir n
                                     && negb (bool_decide
                                                (entries path (files r) = []))
                                  then (inl EFAILURE, r)
                                  else (inr (), with_files (delete path (files r)) r)
                              | None => (inl ENOENT, r)
                              end) r n Hs) as (r1 & -> & Hf & _ & _ & _ & Hs1).
  rewrite Hf. destruct (files r !! path) as [f|] eqn:E.
  - rewrite (Hplain f eq_refl). simpl. split; [done|]. split; [done|]. by left.
  - simpl. rewrite Hf, delete_id by done. split; [done|]. split; [done|]. by right.
Qed.

(** *** An upload among goroutines that work elsewhere *)

Lemma path_of_lookup l w o :
  asyncsftp.heap w !! l = Some o → asyncsftp.path_of l w = asyncsftp.op_Path o.
Proof. unfold asyncsftp.path_of. by intros ->. Qed.

Lemma delete_app_l {A} (l1 l2 : list A) i :
  i < length l1 → delete i (l1 ++ l2) = delete i l1 ++ l2.
Proof.
  revert i. induction l1 as [|x l1 IH]; intros [|i] Hi; simpl in *; try lia;
    [done|]. f_equal. apply IH. lia.
Qed.

Lemma delete_app_r {A} (l1 l2 : list A) i :
  delete (length l1 + i) (l1 ++ l2) = l1 ++ delete i l2.
Proof. induction l1 as [|x l1 IH]; simpl; [done|]. by f_equal. Qed.

(** A step keeps the path of every record. *)
Lemma exec_path_of g w l :
  asyncsftp.path_of l (asyncsftp.exec g w).2 = asyncsftp.path_of l w.
Proof.
  unfold asyncsftp.path_of.
  destruct (asyncsftp.heap w !! l) as [o|] eqn:Ho.
  - destruct (exec_same_job g w l o Ho) as (o' & -> & _ & _ & Hp & _).
    simpl. by rewrite Hp.
  - destruct (exec_frame g w) as (_ & _ & _ & Hlen).
    apply lookup_ge_None in Ho. rewrite <- Hlen in Ho.
    apply lookup_ge_None in Ho. by rewrite Ho.
Qed.

(** The calls that write change the server at their path only. *)
Lemma sftp_Create_other p path r :
  p ≠ path → files (sftp_Create p r).2 !! path = files r !! path.
Proof.
  intros Hne. unfold sftp_Create. call_cases r;
    rewrite ?lookup_insert_ne by done; done.
Qed.

Lemma sftp_Write_other f content path r :
  f ≠ path → files (sftp_Write f content r).2 !! path = files r !! path.
Proof.
  intros Hne. unfold sftp_Write. call_cases r;
    rewrite ?lookup_insert_ne by done; done.
Qed.

Lemma sftp_Chmod_other p m path r :
  p ≠ path → files (sftp_Chmod p m r).2 !! path = files r !! path.
Proof.
  intros Hne. unfold sftp_Chmod. call_cases r;
    rewrite ?lookup_insert_ne by done; done.
Qed.

Lemma sftp_Remove_other p path r :
  p ≠ path → files (sftp_Remove p r).2 !! path = files r !! path.
Proof.
  intros Hne. unfold sftp_Remove. call_cases r;
    rewrite ?lookup_delete_ne by done; done.
Qed.

(** A goroutine that acts on another path leaves [path] on the server as it
    is. *)
Lemma exec_away_files g w path :
  away path w g →
  files (asyncsftp.remote (asyncsftp.exec g w).2) !! path
  = files (asyncsftp.remote w) !! path.
Proof.
  intros (Hp & Hf).
  destruct g as [op c p|op f c p|op f err c p|op c p|op c|op c st|op|op st err];
    simpl in *; rewrite ?on_remote_eq; simpl.
  - pose proof (sftp_Create_other _ path (asyncsftp.remote w) Hp) as H.
    by destruct (sftp_Create _ _) as [[e|f] r1].
  - pose proof (sftp_Write_other f c path (asyncsftp.remote w) Hf) as H.
    by destruct (sftp_Write _ _ _) as [[e|u] r1].
  - destruct (sftp_Close_reading f (asyncsftp.remote w)) as (H & _).
    destruct (sftp_Close _ _) as [[e|u] r1]; simpl in *; destruct err;
      simpl; by rewrite H.
  - pose proof (sftp_Chmod_other _ p path (asyncsftp.remote w) Hp) as H.
    by destruct (sftp_Chmod _ _ _) as [[e|u] r1].
  - destruct (sftp_Stat_reading (asyncsftp.path_of op w) (asyncsftp.remote w))
      as (H & _).
    destruct (sftp_Stat _ _) as [[e|st] r1]; simpl in *; by rewrite H.
  - done.
  - pose proof (sftp_Remove_other _ path (asyncsftp.remote w) Hp) as H.
    destruct (sftp_Remove _ _) as [[e|u] r1]; simpl in *;
      [by destruct (os_IsNotExist e)|done].
  - done.
Qed.

(** The goroutine that remains after a step elsewhere works elsewhere. *)
Lemma exec_away_successor g w g' path :
  away path w g →
  (asyncsftp.exec g w).1 = Some g' →
  away path (asyncsftp.exec g w).2 g'.
Proof.
  intros (Hp & Hf) Hg'.
  destruct (exec_successor _ _ _ Hg') as (Hown & _).
  split; [by rewrite Hown, exec_path_of|].
  revert Hg'.
  destruct g as [op c p|op f c p|op f err c p|op c p|op c|op c st|op|op st err];
    simpl in *; rewrite ?on_remote_eq; simpl.
  - destruct (sftp_Create _ _) as [[e|f] r1] eqn:Ec; simpl; intros [= <-]; [done|].
    by destruct (sftp_Create_ok _ _ _ _ Ec) as (-> & _).
  - destruct (sftp_Write _ _ _) as [[e|u] r1]; simpl; by intros [= <-].
  - destruct (sftp_Close _ _) as [[e|u] r1]; simpl; destruct err; simpl;
      by intros [= <-].
  - destruct (sftp_Chmod _ _ _) as [[e|u] r1]; simpl; by intros [= <-].
  - destruct (sftp_Stat _ _) as [[e|st] r1]; simpl; by intros [= <-].
  - by intros [= <-].
  - destruct (sftp_Remove _ _) as [[e|u] r1]; simpl;
      [destruct (os_IsNotExist e)|]; by intros [= <-].
  - done.
Qed.

(** The phase of an upload looks at [path] on the server only. *)
Lemma upload_phase_files path content m r r' g :
  files r' !! path = files r !! path →
  upload_phase path content m r g → upload_phase path content m r' g.
Proof.
  intros Hf. unfold upload_phase, holds, uploaded.
  destruct g; by rewrite ?Hf.
Qed.

Lemma uploaded_files path content m r r' :
  files r' !! path = files r !! path →
  uploaded path content m r → uploaded path content m r'.
Proof. intros Hf. unfold uploaded. by rewrite Hf. Qed.

(** A step of the goroutine of the upload: the record keeps its path; the
    goroutine that remains finds the record in progress and the server one
    phase further; when the goroutine returns, a Completed record means the
    file is uploaded. *)
Lemma exec_upload_phase g w l o path content m :
  asyncsftp.heap w !! l = Some o →
  asyncsftp.op_Path o = path →
  owner g = l →
  asyncsftp.State o = asyncsftp.StateInProgress →
  upload_phase path content m (asyncsftp.remote w) g →
  ∃ o', asyncsftp.heap (asyncsftp.exec g w).2 !! l = Some o'
        ∧ asyncsftp.op_Path o' = path
        ∧ match (asyncsftp.exec g w).1 with
          | Some g' =>
              owner g' = l
              ∧ asyncsftp.State o' = asyncsftp.StateInProgress
              ∧ upload_phase path content m
                  (asyncsftp.remote (asyncsftp.exec g w).2) g'
          | None =>
              asyncsftp.State o' = asyncsftp.StateCompleted →
              uploaded path content m (asyncsftp.remote (asyncsftp.exec g w).2)
          end.
Proof.
  intros Ho Hp Hown Hst Hphase.
  pose proof (path_of_lookup _ _ _ Ho) as Hpath. rewrite Hp in Hpath.
  destruct g as [op c p|op f c p|op f err c p|op c p|op c|op c st| |op st err];
    simpl in Hown, Hphase; subst l; simpl; rewrite ?on_remote_eq, ?Hpath; simpl.
  - destruct Hphase as (-> & ->).
    destruct (sftp_Create _ (asyncsftp.remote w)) as [[e|f] r1] eqn:Ec; simpl;
      exists o; (split; [done|]); (split; [done|]); simpl; [done|].
    by destruct (sftp_Create_ok _ _ _ _ Ec) as (-> & Hn).
  - destruct Hphase as (-> & -> & -> & Hn).
    destruct (sftp_Write _ _ (asyncsftp.remote w)) as [[e|u] r1] eqn:Ew; simpl;
      exists o; (split; [done|]); (split; [done|]); simpl; [done|].
    repeat split; try done. intros _. by eapply sftp_Write_ok.
  - destruct Hphase as (-> & -> & Hholds).
    pose proof (holds_reading _ path content
                  (asyncsftp.remote w) (sftp_Close_reading f)) as Hkeep.
    destruct (sftp_Close f (asyncsftp.remote w)) as [[e|u] r1]; simpl in *;
      destruct err as [e'|]; simpl; exists o; (split; [done|]);
      (split; [done|]); simpl; repeat split; auto; done.
  - destruct Hphase as (-> & -> & Hholds).
    destruct (sftp_Chmod _ _ (asyncsftp.remote w)) as [[e|u] r1] eqn:Ec; simpl;
      exists o; (split; [done|]); (split; [done|]); simpl; [done|].
    repeat split; try done. by eapply sftp_Chmod_ok.
  - pose proof (uploaded_reading _ path content m (asyncsftp.remote w)
                  (sftp_Stat_reading path) Hphase) as Hkeep.
    destruct (sftp_Stat _ (asyncsftp.remote w)) as [[e|st] r1]; simpl in *;
      exists o; (split; [done|]); (split; [done|]); by simpl.
  - unfold asyncsftp.set_Result. simpl.
    rewrite list_lookup_alter_eq, Ho. simpl. eexists. split; [reflexivity|].
    simpl. by repeat split.
  - done.
  - unfold asyncsftp.completeOperation. simpl.
    rewrite list_lookup_alter_eq, Ho. simpl. eexists. split; [reflexivity|].
    simpl. by split.
Qed.

Lemma elsewhere_exec l path g w g2 :
  elsewhere l path w g2 → elsewhere l path (asyncsftp.exec g w).2 g2.
Proof.
  intros (Hown & Hp & Hf). split; [done|]. split; [|done].
  by rewrite exec_path_of.
Qed.

(** What a step elsewhere leaves alone: the record at [l], [path] on the
    server, and the goroutines that work elsewhere, to which what remains of
    it belongs. *)
Lemma exec_elsewhere l path g w :
  elsewhere l path w g →
  asyncsftp.heap (asyncsftp.exec g w).2 !! l = asyncsftp.heap w !! l
  ∧ files (asyncsftp.remote (asyncsftp.exec g w).2) !! path
    = files (asyncsftp.remote w) !! path
  ∧ ∀ g', (asyncsftp.exec g w).1 = Some g' →
          elsewhere l path (asyncsftp.exec g w).2 g'.
Proof.
  intros (Hown & Haway). split; [by apply exec_other|].
  split; [by apply exec_away_files|].
  intros g' Hg'. destruct (exec_successor _ _ _ Hg') as (Ho & _).
  split; [by rewrite Ho|]. by apply exec_away_successor.
Qed.

Lemma upload_among_elsewhere_step l path w i gi o :
  asyncsftp.heap w !! l = Some o →
  asyncsftp.goroutines w !! i = Some gi →
  elsewhere l path w gi →
  ∀ P : Prop,
    (asyncsftp.heap (asyncsftp.exec gi w).2 !! l = Some o →
     files (asyncsftp.remote (asyncsftp.exec gi w).2) !! path
     = files (asyncsftp.remote w) !! path →
     (∀ gs, Forall (elsewhere l path w) gs →
            Forall (elsewhere l path (asyncsftp.exec gi w).2) gs) →
     (∀ g', (asyncsftp.exec gi w).1 = Some g' →
            elsewhere l path (asyncsftp.exec gi w).2 g') → P) → P.
Proof.
  intros Ho Hi He P HP. destruct (exec_elsewhere _ _ _ w He) as (Hh & Hf & Hs).
  apply HP; [by rewrite Hh|done| |done].
  intros gs Hgs. eapply Forall_impl; [done|]. intros g2. apply elsewhere_exec.
Qed.

Lemma run_goroutine_upload_among i l path content m w :
  upload_among l path content m w →
  upload_among l path content m (asyncsftp.run_goroutine i w).
Proof.
  intros (o & Ho & Hp & Hcases).
  destruct (asyncsftp.goroutines w !! i) as [gi|] eqn:Egi;
    [|rewrite run_goroutine_None by done; by exists o].
  rewrite (run_goroutine_Some _ _ _ Egi). unfold upload_among. simpl.
  destruct Hcases as [(pre & g & post & Hpool & Hall & Hown & Hst & Hphase)
                     |(Hall & Hdone)].
  - apply Forall_app in Hall as (Hpre & Hpost). rewrite Hpool in Egi |- *.
    destruct (decide (i < length pre)) as [Hlt|Hge].
    + rewrite lookup_app_l in Egi by done.
      pose proof (Forall_lookup_1 _ _ _ _ Hpre Egi) as Hgi.
      apply (upload_among_elsewhere_step l path w i gi o Ho);
        [by rewrite Hpool, lookup_app_l|done|].
      intros Hh Hf Hkeep Hsucc. exists o. split; [done|]. split; [done|]. left.
      destruct (asyncsftp.exec gi w).1 as [g'|].
      * exists (<[i:=g']> pre), g, post. rewrite insert_app_l by done.
        split; [done|]. split; [|split; [done|split; [done|]]].
        -- apply Forall_app. split; [|by apply Hkeep].
           apply Forall_insert; [by apply Hkeep|by apply Hsucc].
        -- by eapply upload_phase_files.
      * exists (delete i pre), g, post. rewrite delete_app_l by done.
        split; [done|]. split; [|split; [done|split; [done|]]].
        -- apply Forall_app. split; [|by apply Hkeep].
           by apply Forall_delete, Hkeep.
        -- by eapply upload_phase_files.
    + destruct (decide (i = length pre)) as [->|Hne].
      * rewrite list_lookup_middle in Egi by done. injection Egi as <-.
        destruct (exec_upload_phase g w l o path content m Ho Hp Hown Hst Hphase)
          as (o' & Ho' & Hp' & Hnext).
        exists o'. split; [done|]. split; [done|].
        assert (∀ gs, Forall (elsewhere l path w) gs →
                      Forall (elsewhere l path (asyncsftp.exec g w).2) gs) as Hkeep.
        { intros gs Hgs. eapply Forall_impl; [done|].
          intros g2. apply elsewhere_exec. }
        destruct (asyncsftp.exec g w).1 as [g'|].
        -- left. exists pre, g', post.
           rewrite insert_app_r_alt by done. rewrite Nat.sub_diag. simpl.
           split; [done|]. split; [|done].
           apply Forall_app. split; by apply Hkeep.
        -- right. rewrite delete_middle. split; [|done].
           apply Forall_app. split; by apply Hkeep.
      * assert (∃ j, i = length pre + S j) as (j & ->) by (exists (i - length pre - 1); lia).
        rewrite lookup_app_r in Egi by lia.
        replace (length pre + S j - length pre) with (S j) in Egi by lia.
        simpl in Egi.
        pose proof (Forall_lookup_1 _ _ _ _ Hpost Egi) as Hgi.
        apply (upload_among_elsewhere_step l path w
                 (length pre + S j) gi o Ho);
          [|done|].
        { rewrite Hpool, lookup_app_r by lia.
          by replace (length pre + S j - length pre) with (S j) by lia. }
        intros Hh Hf Hkeep Hsucc. exists o. split; [done|]. split; [done|]. left.
        destruct (asyncsftp.exec gi w).1 as [g'|].
        -- exists pre, g, (<[j:=g']> post). rewrite insert_app_r. simpl.
           split; [done|]. split; [|split; [done|split; [done|]]].
           ++ apply Forall_app. split; [by apply Hkeep|].
              apply Forall_insert; [by apply Hkeep|by apply Hsucc].
           ++ by eapply upload_phase_files.
        -- exists pre, g, (delete j post). rewrite delete_app_r. simpl.
           split; [done|]. split; [|split; [done|split; [done|]]].
           ++ apply Forall_app. split; [by apply Hkeep|].
              by apply Forall_delete, Hkeep.
           ++ by eapply upload_phase_files.
  - pose proof (Forall_lookup_1 _ _ _ _ Hall Egi) as Hgi.
    apply (upload_among_elsewhere_step l path w i gi o Ho Egi Hgi).
    intros Hh Hf Hkeep Hsucc. exists o. split; [done|]. split; [done|]. right.
    split.
    + destruct (asyncsftp.exec gi w).1 as [g'|].
      * apply Forall_insert; [by apply Hkeep|by apply Hsucc].
      * by apply Forall_delete, Hkeep.
    + intros Hc. eapply uploaded_files; [done|]. by apply Hdone.
Qed.

Lemma upload_among_frame l path content m w w' :
  asyncsftp.remote w' = asyncsftp.remote w →
  asyncsftp.heap w' = asyncsftp.heap w →
  asyncsftp.goroutines w' = asyncsftp.goroutines w →
  upload_among l path content m w → upload_among l path content m w'.
Proof.
  intros Hr Hh Hg. unfold upload_among, elsewhere, away, asyncsftp.path_of.
  by rewrite Hr, Hh, Hg.
Qed.

Lemma sched_upload_among l path content m w :
  upload_among l path content m w →
  upload_among l path content m (asyncsftp.sched w).
Proof.
  intros Hw. destruct (sched_pick w) as (i & w0 & -> & Hr & Hh & Hg & _).
  apply run_goroutine_upload_among. by eapply upload_among_frame.
Qed.

Lemma run_upload_among k l path content m w :
  upload_among l path content m w → upload_among l path content m (run k w).
Proof.
  revert w. induction k as [|k IH]; intros w Hw; [done|].
  rewrite run_S. by apply IH, sched_upload_among.
Qed.



(** *** A delete that runs alone *)

Lemma sched_delete_alone l path F n w :
  (∀ f, F !! path = Some f → is_dir f = false) →
  delete_alone l path F n w → delete_alone l path F n (asyncsftp.sched w).
Proof.
  intros Hplain (o & Ho & Hp & He & Hres & Hpool).
  destruct (asyncsftp.goroutines w) as [|g [|g2 gs]] eqn:Eg.
  { destruct (sched_idle w Eg) as (Hr & Hh & Hg).
    exists o. by rewrite Hh, Hg, Hr. }
  2:{ by destruct g. }
  destruct (sched_single w g Eg) as (w0 & Hr & Hh & ->).
  rewrite <- Hh in Ho. rewrite <- Hr in Hpool.
  pose proof (path_of_lookup _ _ _ Ho) as Hpath. rewrite Hp in Hpath.
  destruct g as [| | | | | |op|op st err]; try done.
  - destruct Hpool as (-> & Hst & Hf & Hs). simpl.
    rewrite on_remote_eq, Hpath. simpl.
    destruct (sftp_Remove_served path (asyncsftp.remote w0) n Hs)
      as (Hf' & Hs' & Hres').
    { intros f. rewrite Hf. apply Hplain. }
    rewrite Hf in Hf'.
    exists o. destruct Hres' as [-> | ->]; simpl; by repeat split.
  - destruct Hpool as (-> & -> & -> & Hst & Hf & Hs). simpl.
    unfold delete_alone, asyncsftp.completeOperation. simpl.
    rewrite list_lookup_alter_eq, Ho. simpl. eexists. split; [reflexivity|].
    simpl. by repeat split.
Qed.

Lemma run_delete_alone k l path F n w :
  (∀ f, F !! path = Some f → is_dir f = false) →
  delete_alone l path F n w → delete_alone l path F n (run k w).
Proof.
  intros Hplain. revert w. induction k as [|k IH]; intros w Hw; [done|].
  rewrite run_S. by apply IH, sched_delete_alone.
Qed.

(** A delete job started in a world where no other goroutine runs, on a
    server that serves its call and holds at [path] a plain file or
    nothing: after two steps or more the job is Completed with no error
    message and no result, the path is gone from the server, and no
    goroutine is left. *)
Lemma delete_job_alone path c w k n :
  asyncsftp.goroutines w = [] →
  serves (S n) (faults (asyncsftp.remote w)) = true →
  (∀ f, files (asyncsftp.remote w) !! path = Some f → is_dir f = false) →
  2 ≤ k →
  let '(id, c1, w1) := asyncsftp.StartDelete path c w in
  asyncsftp.goroutines (run k w1) = []
  ∧ files (asyncsftp.remote (run k w1)) = delete path (files (asyncsftp.remote w))
  ∧ serves n (faults (asyncsftp.remote (run k w1))) = true
  ∧ ∃ o, asyncsftp.GetStatus id c1 (run k w1) = inr o
         ∧ asyncsftp.State o = asyncsftp.StateCompleted
         ∧ asyncsftp.op_Error o = EmptyString
         ∧ asyncsftp.Result o = None.
Proof.
  intros Hq Hs Hplain Hk. unfold asyncsftp.StartDelete. simpl.
  set (l := length (asyncsftp.heap w)).
  match goal with
  | |- context [run k ?w] => set (w1 := w)
  end.
  assert (delete_alone l path (files (asyncsftp.remote w)) n w1) as H1.
  { eexists. split; [by subst w1 l; simpl; rewrite lookup_app_r, Nat.sub_diag|].
    subst w1. simpl. rewrite Hq. simpl. by repeat split. }
  assert (asyncsftp.goroutines (run k w1) = []) as Hout.
  { apply run_out. subst w1. unfold work. simpl. rewrite Hq. simpl. lia. }
  destruct (run_delete_alone k _ _ _ _ _ Hplain H1)
    as (o & Ho & Hp & He & Hres & Hpool).
  rewrite Hout in Hpool. destruct Hpool as (Hst & Hf & Hs').
  split; [done|]. split; [done|]. split; [done|].
  exists o. unfold asyncsftp.GetStatus. simpl.
  by rewrite lookup_insert_eq, Ho, Copy_id.
Qed.

(** C7.  In a world where no other goroutine runs, on a server that serves
    the calls and holds at [path] a plain file or nothing, a delete job of
    [path] and then a second one (each given two steps or more) both end
    Completed, with the same observable record (no error message, no
    result); after the first the path is gone, and the second leaves the
    files of the server as the first left them.  When the path is absent
    from the start, the first job too is Completed and changes no file. *)
Theorem delete_job_idempotent (path : string) (c : asyncsftp.Client)
    (w : asyncsftp.World) (k1 k2 : nat) :
  asyncsftp.goroutines w = [] →
  serves 2 (faults (asyncsftp.remote w)) = true →
  (∀ f, files (asyncsftp.remote w) !! path = Some f → is_dir f = false) →
  2 ≤ k1 → 2 ≤ k2 →
  let '(id1, c1, w1) := asyncsftp.StartDelete path c w in
  let w2 := run k1 w1 in
  let '(id2, c2, w3) := asyncsftp.StartDelete path c1 w2 in
  let w4 := run k2 w3 in
  ∃ o1 o2,
    asyncsftp.GetStatus id1 c1 w2 = inr o1
    ∧ asyncsftp.GetStatus id2 c2 w4 = inr o2
    ∧ asyncsftp.State o1 = asyncsftp.StateCompleted
    ∧ asyncsftp.State o2 = asyncsftp.StateCompleted
    ∧ asyncsftp.op_Error o1 = EmptyString
    ∧ asyncsftp.op_Error o2 = EmptyString
    ∧ asyncsftp.Result o1 = None
    ∧ asyncsftp.Result o2 = None
    ∧ files (asyncsftp.remote w2) !! path = None
    ∧ files (asyncsftp.remote w4) = files (asyncsftp.remote w2)
    ∧ (files (asyncsftp.remote w) !! path = None →
       files (asyncsftp.remote w2) = files (asyncsftp.remote w)).
Proof.
  intros Hq Hs Hplain Hk1 Hk2.
  pose proof (delete_job_alone path c w k1 1 Hq Hs Hplain Hk1) as H1.
  destruct (asyncsftp.StartDelete path c w) as [[id1 c1] w1].
  destruct H1 as (Hq2 & Hf2 & Hs2 & o1 & Hg1 & Hst1 & He1 & Hr1).
  assert (files (asyncsftp.remote (run k1 w1)) !! path = None) as Habs
    by (by rewrite Hf2, lookup_delete_eq).
  pose proof (delete_job_alone path c1 (run k1 w1) k2 0 Hq2 Hs2) as H2.
  intros w2. subst w2.
  destruct (asyncsftp.StartDelete path c1 (run k1 w1)) as [[id2 c2] w3].
  destruct H2 as (_ & Hf4 & _ & o2 & Hg2 & Hst2 & He2 & Hr2);
    [by intros f; rewrite Habs|done|].
  exists o1, o2. do 9 (split; [done|]). split.
  - rewrite Hf4. by apply delete_id.
  - intros Hnone. rewrite Hf2. by apply delete_id.
Qed.

Lemma delete_job_idempotent_witness :
  let '(id1, c1, w1) :=
    asyncsftp.StartDelete "/upload/missing.txt" sample.fresh_client
      sample.world in
  let w2 := run 2 w1 in
  let '(id2, c2, w3) := asyncsftp.StartDelete "/upload/missing.txt" c1 w2 in
  let w4 := run 2 w3 in
  ∃ o1 o2,
    asyncsftp.GetStatus id1 c1 w2 = inr o1
    ∧ asyncsftp.GetStatus id2 c2 w4 = inr o2
    ∧ asyncsftp.State o1 = asyncsftp.StateCompleted
    ∧ asyncsftp.State o2 = asyncsftp.StateCompleted
    ∧ asyncsftp.op_Error o1 = EmptyString
    ∧ asyncsftp.op_Error o2 = EmptyString
    ∧ asyncsftp.Result o1 = None
    ∧ asyncsftp.Result o2 = None
    ∧ files (asyncsftp.remote w2) !! "/upload/missing.txt" = None
    ∧ files (asyncsftp.remote w4) = files (asyncsftp.remote w2)
    ∧ (files (asyncsftp.remote sample.world) !! "/upload/missing.txt" = None →
       files (asyncsftp.remote w2) = files (asyncsftp.remote sample.world)).
Proof.
  apply (delete_job_idempotent "/upload/missing.txt" sample.fresh_client
           sample.world 2 2).
  - reflexivity.
  - reflexivity.
  - intros f. vm_compute. discriminate.
  - lia.
  - lia.
Defined.

(** ** The invariant of the store *)

Lemma uuid_String_inj n n' :
  asyncsftp.uuid_String n = asyncsftp.uuid_String n' → n = n'.
Proof.
  unfold asyncsftp.uuid_String. intros H.
  assert (NilEmpty.string_of_uint (Nat.to_uint n)
          = NilEmpty.string_of_uint (Nat.to_uint n')) as H'.
  { by apply (inj (String.append "op-")). }
  apply DecimalNat.Unsigned.to_uint_inj.
  apply (f_equal NilEmpty.uint_of_string) in H'.
  rewrite !NilEmpty.usu in H'. by injection H'.
Qed.

(** A step of a goroutine on its pending record: the goroutine that remains
    finds the record pending again; the goroutine that returns leaves it
    settled. *)
Lemma exec_pending g w o :
  asyncsftp.heap w !! owner g = Some o →
  pending_ok o g →
  ∃ o', asyncsftp.heap (asyncsftp.exec g w).2 !! owner g = Some o'
        ∧ match (asyncsftp.exec g w).1 with
          | Some g' => pending_ok o' g'
          | None => settled o'
          end.
Proof.
  intros Ho (Hst & He & Hg).
  assert (∀ pre e, ∃ e0, Some (Errorf_w (String "c" pre) e) = Some e0
                         ∧ Error e0 ≠ EmptyString) as Hc
    by (intros; eexists; split; [reflexivity|simpl; discriminate]).
  assert (∀ pre e, ∃ e0, Some (Errorf_w (String "w" pre) e) = Some e0
                         ∧ Error e0 ≠ EmptyString) as Hw
    by (intros; eexists; split; [reflexivity|simpl; discriminate]).
  assert (∀ pre e, ∃ e0, Some (Errorf_w (String "s" pre) e) = Some e0
                         ∧ Error e0 ≠ EmptyString) as Hs
    by (intros; eexists; split; [reflexivity|simpl; discriminate]).
  assert (∀ pre e, ∃ e0, Some (Errorf_w (String "r" pre) e) = Some e0
                         ∧ Error e0 ≠ EmptyString) as Hr
    by (intros; eexists; split; [reflexivity|simpl; discriminate]).
  destruct g as [op c p|op f c p|op f err c p|op c p|op c|op c st|op|op st err];
    simpl in *; rewrite ?on_remote_eq; simpl.
  - destruct (sftp_Create _ _) as [[e|f] r1]; simpl; exists o;
      (split; [done|]); repeat split;
      first [done | tauto | apply Hc].
  - destruct (sftp_Write _ _ _) as [[e|u] r1]; simpl; exists o;
      (split; [done|]); repeat split; tauto.
  - destruct (sftp_Close _ _) as [[e|u] r1]; simpl; destruct err as [e'|];
      simpl; exists o; (split; [done|]); repeat split;
      first [done | tauto | apply Hw].
  - destruct (sftp_Chmod _ _ _) as [[e|u] r1]; simpl; exists o;
      (split; [done|]); repeat split;
      first [done | tauto | apply Hc].
  - destruct (sftp_Stat _ _) as [[e|st] r1]; simpl; exists o;
      (split; [done|]); repeat split;
      first [done | tauto | apply Hs].
  - unfold asyncsftp.set_Result. simpl. rewrite list_lookup_alter_eq, Ho. simpl.
    eexists. split; [reflexivity|]. simpl. repeat split; try done; tauto.
  - destruct Hg as (Hty & Hres).
    destruct (sftp_Remove _ _) as [[e|u] r1]; simpl;
      [destruct (os_IsNotExist e)|]; simpl; exists o; (split; [done|]);
      repeat split;
      first [done | by rewrite Hres | by rewrite Hty | apply Hr].
  - unfold asyncsftp.completeOperation. simpl.
    rewrite list_lookup_alter_eq, Ho. simpl. eexists. split; [reflexivity|].
    unfold settled. simpl. destruct st; [done| |].
    + destruct Hg as (-> & Hres). rewrite He. repeat split; try done; tauto.
    + destruct Hg as ((e & -> & Hne) & Hres). rewrite Hres.
      repeat split; try done; by intros [].
Qed.

Lemma store_inv_frame c w w' :
  asyncsftp.heap w' = asyncsftp.heap w →
  asyncsftp.goroutines w' = asyncsftp.goroutines w →
  asyncsftp.uuid_next w' = asyncsftp.uuid_next w →
  store_inv (c, w) → store_inv (c, w').
Proof. unfold store_inv. simpl. by intros -> -> ->. Qed.

Lemma store_inv_spawn c w w' o0 g0 :
  store_inv (c, w) →
  owner g0 = length (asyncsftp.heap w) →
  pending_ok o0 g0 →
  asyncsftp.heap w' = asyncsftp.heap w ++ [o0] →
  asyncsftp.goroutines w' = asyncsftp.goroutines w ++ [g0] →
  asyncsftp.uuid_next w' = S (asyncsftp.uuid_next w) →
  store_inv
    ({| asyncsftp.operations :=
          <[asyncsftp.uuid_String (asyncsftp.uuid_next w)
            := length (asyncsftp.heap w)]> (asyncsftp.operations c) |}, w').
Proof.
  unfold store_inv. simpl. intros (Hnd & Hpend & Hset & Hreg) Hown Hok -> -> ->.
  assert (∀ g, g ∈ asyncsftp.goroutines w → owner g < length (asyncsftp.heap w))
    as Hlt.
  { intros g Hg. destruct (Hpend g Hg) as (o & Ho & _). by eapply lookup_lt_Some. }
  split; [|split; [|split]].
  - rewrite fmap_app. apply NoDup_app. split; [done|]. split; [|apply NoDup_singleton].
    intros l Hl Hin. simpl in Hin. apply list_elem_of_singleton in Hin. subst l.
    apply list_elem_of_fmap in Hl as (g & Heq & Hg). specialize (Hlt g Hg). lia.
  - intros g Hg. apply elem_of_app in Hg as [Hg|Hg].
    + destruct (Hpend g Hg) as (o & Ho & Hp). exists o. split; [|done].
      rewrite lookup_app_l; [done|]. by apply Hlt.
    + apply list_elem_of_singleton in Hg. subst g. exists o0. split; [|done].
      by rewrite Hown, lookup_app_r, Nat.sub_diag.
  - intros l o Hl Hnot. rewrite fmap_app in Hnot.
    apply not_elem_of_app in Hnot as (Hnot & Hnew).
    destruct (decide (l < length (asyncsftp.heap w))) as [Hlo|Hhi].
    + rewrite lookup_app_l in Hl by done. by eapply Hset.
    + exfalso. apply Hnew. simpl. apply list_elem_of_singleton.
      apply lookup_lt_Some in Hl. rewrite length_app in Hl. simpl in Hl. lia.
  - intros id l Hid.
    destruct (decide (asyncsftp.uuid_String (asyncsftp.uuid_next w) = id)) as [<-|Hne].
    + rewrite lookup_insert_eq in Hid. injection Hid as <-.
      split; [by rewrite lookup_app_r, Nat.sub_diag|].
      exists (asyncsftp.uuid_next w). split; [lia|done].
    + rewrite lookup_insert_ne in Hid by done.
      destruct (Hreg id l Hid) as ((o & Ho) & n & Hn & ->).
      split; [|exists n; split; [lia|done]].
      exists o. rewrite lookup_app_l; [done|]. by eapply lookup_lt_Some.
Qed.

Lemma store_inv_run_goroutine i c w :
  store_inv (c, w) → store_inv (c, asyncsftp.run_goroutine i w).
Proof.
  intros Hinv. destruct (asyncsftp.goroutines w !! i) as [g|] eqn:Egi;
    [|by rewrite run_goroutine_None].
  rewrite (run_goroutine_Some _ _ _ Egi).
  destruct Hinv as (Hnd & Hpend & Hset & Hreg). simpl in *.
  destruct (Hpend g) as (o & Ho & Hok); [by eapply list_elem_of_lookup_2|].
  destruct (exec_pending g w o Ho Hok) as (o' & Ho' & Hnext).
  destruct (exec_frame g w) as (_ & _ & Hu & Hlen).
  assert (∀ j g2, j ≠ i → asyncsftp.goroutines w !! j = Some g2 →
            owner g2 ≠ owner g) as Hdiff.
  { intros j g2 Hne Hj Heq. apply Hne.
    eapply (NoDup_lookup _ j i (owner g) Hnd); rewrite list_lookup_fmap.
    - rewrite Hj. simpl. by rewrite Heq.
    - by rewrite Egi. }
  assert (∀ g2, g2 ∈ asyncsftp.goroutines w → owner g2 ≠ owner g →
            ∃ o2, asyncsftp.heap (asyncsftp.exec g w).2 !! owner g2 = Some o2
                  ∧ pending_ok o2 g2) as Hkeep.
  { intros g2 Hg2 Hne. destruct (Hpend g2 Hg2) as (o2 & Ho2 & Hok2).
    exists o2. by rewrite exec_other. }
  unfold store_inv. simpl.
  destruct (asyncsftp.exec g w).1 as [g'|] eqn:Eg.
  - destruct (exec_successor _ _ _ Eg) as (Hown & _).
    assert (owner <$> <[i:=g']> (asyncsftp.goroutines w)
            = owner <$> asyncsftp.goroutines w) as Howners.
    { rewrite list_fmap_insert. apply list_insert_id.
      by rewrite list_lookup_fmap, Egi, Hown. }
    rewrite Howners. split; [done|]. split; [|split].
    + intros g2 Hg2. apply list_elem_of_lookup in Hg2 as (j & Hj).
      destruct (decide (j = i)) as [->|Hne].
      * rewrite list_lookup_insert_eq in Hj by (by eapply lookup_lt_Some).
        injection Hj as <-. exists o'. by rewrite Hown.
      * rewrite list_lookup_insert_ne in Hj by done.
        apply Hkeep; [by eapply list_elem_of_lookup_2|by eapply Hdiff].
    + intros l o2 Hl Hnot. destruct (decide (l = owner g)) as [->|Hne].
      * exfalso. apply Hnot. apply list_elem_of_fmap. exists g.
        split; [done|]. by eapply list_elem_of_lookup_2.
      * rewrite exec_other in Hl by done. by eapply Hset.
    + intros id l Hid. destruct (Hreg id l Hid) as (Hsome & Hn).
      rewrite Hu. split; [|done].
      apply lookup_lt_is_Some. rewrite Hlen. by apply lookup_lt_is_Some.
  - split; [|split; [|split]].
    + rewrite list_fmap_delete. eapply sublist_NoDup; [done|apply sublist_delete].
    + intros g2 Hg2. apply list_elem_of_lookup in Hg2 as (j & Hj).
      destruct (decide (j < i)).
      * rewrite list_lookup_delete_lt in Hj by done.
        apply Hkeep; [by eapply list_elem_of_lookup_2|eapply Hdiff; [|done]; lia].
      * rewrite list_lookup_delete_ge in Hj by lia.
        apply Hkeep; [by eapply list_elem_of_lookup_2|eapply Hdiff; [|done]; lia].
    + intros l o2 Hl Hnot. destruct (decide (l = owner g)) as [->|Hne].
      * rewrite Ho' in Hl. by injection Hl as <-.
      * rewrite exec_other in Hl by done. eapply Hset; [done|].
        intros Hin. apply Hnot. rewrite list_fmap_delete.
        apply list_elem_of_lookup in Hin as (j & Hj).
        assert (j ≠ i) as Hji.
        { intros ->. rewrite list_lookup_fmap, Egi in Hj. simpl in Hj. congruence. }
        destruct (decide (j < i)).
        -- eapply (list_elem_of_lookup_2 _ j). by rewrite list_lookup_delete_lt.
        -- destruct j as [|j]; [lia|]. eapply (list_elem_of_lookup_2 _ j).
           by rewrite list_lookup_delete_ge by lia.
    + intros id l Hid. destruct (Hreg id l Hid) as (Hsome & Hn).
      rewrite Hu. split; [|done].
      apply lookup_lt_is_Some. rewrite Hlen. by apply lookup_lt_is_Some.
Qed.

Lemma step_store_inv s s' : step s s' → store_inv s → store_inv s'.
Proof.
  intros Hstep Hinv. destruct Hstep.
  - unfold asyncsftp.StartUpload. simpl.
    eapply (store_inv_spawn c w _ _
              (asyncsftp.doUpload (length (asyncsftp.heap w)) content m));
      [done|done| |reflexivity|reflexivity|reflexivity].
    by repeat split.
  - unfold asyncsftp.StartDelete. simpl.
    eapply (store_inv_spawn c w _ _
              (asyncsftp.doDelete (length (asyncsftp.heap w))));
      [done|done| |reflexivity|reflexivity|reflexivity].
    by repeat split.
  - by apply store_inv_run_goroutine.
  - destruct (sched_pick w) as (i & w0 & -> & _ & Hh & Hg & _ & Hu & _).
    apply store_inv_run_goroutine. by eapply store_inv_frame.
  - destruct (ReadFile_undisturbed path w) as (_ & _ & _ & Hh & Hg & _ & _ & Hu).
    by eapply store_inv_frame.
  - unfold asyncsftp.SetPermissions. rewrite on_remote_eq.
    destruct (sftp_Chmod _ _ _).1; by eapply store_inv_frame.
  - unfold asyncsftp.ListFiles. rewrite on_remote_eq.
    destruct (sftp_ReadDir _ _).1 as [e|es]; [destruct (os_IsNotExist e)|];
      by eapply store_inv_frame.
Qed.

Lemma reachable_store_inv s : reachable s → store_inv s.
Proof.
  induction 1 as [r s t u|s s' _ IH Hstep]; [|by eapply step_store_inv].
  unfold store_inv. simpl. split; [apply NoDup_nil_2|].
  split; [by intros g Hg; inversion Hg|]. split; [done|].
  intros id l Hid. by rewrite lookup_empty in Hid.
Qed.

Lemma reachable_run k c w : reachable (c, w) → reachable (c, run k w).
Proof.
  intros Hw. induction k as [|k IH]; [done|].
  simpl. eapply reachable_step; [exact IH|apply step_sched].
Qed.

Lemma GetStatus_inr id c w o :
  asyncsftp.GetStatus id c w = inr o →
  ∃ l, asyncsftp.operations c !! id = Some l ∧ asyncsftp.heap w !! l = Some o.
Proof.
  unfold asyncsftp.GetStatus.
  destruct (asyncsftp.operations c !! id) as [l|]; [|done].
  destruct (asyncsftp.heap w !! l) as [o'|] eqn:E; [|done].
  rewrite Copy_id. intros [= ->]. by exists l.
Qed.

Lemma GetStatus_heap id c w w' :
  asyncsftp.heap w' = asyncsftp.heap w →
  asyncsftp.GetStatus id c w' = asyncsftp.GetStatus id c w.
Proof. unfold asyncsftp.GetStatus. by intros ->. Qed.

(** What holds of every record that [GetStatus] shows in a reachable state:
    its error message is present exactly when it is Failed; a result is
    present only on an upload that has not failed; and a Completed record
    holds a result exactly when it is an upload. *)
Lemma reachable_record c w id o :
  reachable (c, w) →
  asyncsftp.GetStatus id c w = inr o →
  (asyncsftp.op_Error o ≠ EmptyString
   ↔ asyncsftp.State o = asyncsftp.StateFailure)
  ∧ (asyncsftp.Result o ≠ None →
     asyncsftp.op_Type o = asyncsftp.OperationTypeUpload
     ∧ asyncsftp.State o ≠ asyncsftp.StateFailure)
  ∧ (asyncsftp.State o = asyncsftp.StateCompleted →
     (asyncsftp.Result o ≠ None
      ↔ asyncsftp.op_Type o = asyncsftp.OperationTypeUpload)).
Proof.
  intros Hreach Hget. apply GetStatus_inr in Hget as (l & _ & Ho).
  destruct (reachable_store_inv _ Hreach) as (_ & Hpend & Hset & _). simpl in *.
  destruct (decide (l ∈ owner <$> asyncsftp.goroutines w)) as [Hin|Hnot].
  - apply list_elem_of_fmap in Hin as (g & -> & Hg).
    destruct (Hpend g Hg) as (o' & Ho' & Hst & He & Hok).
    rewrite Ho in Ho'. injection Ho' as <-. rewrite Hst, He.
    split; [by split; [intros []|]|]. split; [|done].
    intros Hres. split; [|done].
    destruct g as [| | | | | | |op st err]; try (by destruct Hok as (? & ?)).
    destruct st; [done| |].
    + destruct Hok as (_ & Hiff). by apply Hiff.
    + by destruct Hok as (_ & ?).
  - destruct (Hset l o Ho Hnot) as (Hterm & Herr & Hres).
    split; [done|]. split.
    + intros H. apply Hres in H as (Hc & Hu). split; [done|]. by rewrite Hc.
    + intros Hc. split; [intros H; by apply Hres in H as (_ & ?)|].
      intros Hu. by apply Hres.
Qed.

Lemma run_goroutine_record i c w id o :
  (∀ g, g ∈ asyncsftp.goroutines w →
     ∃ o, asyncsftp.heap w !! owner g = Some o ∧ pending_ok o g) →
  asyncsftp.GetStatus id c w = inr o →
  ∃ o', asyncsftp.GetStatus id c (asyncsftp.run_goroutine i w) = inr o'
        ∧ same_job o o'
        ∧ (asyncsftp.State o ≠ asyncsftp.StateInProgress → o' = o).
Proof.
  intros Hpend Hget.
  destruct (asyncsftp.goroutines w !! i) as [g|] eqn:Egi;
    [|rewrite run_goroutine_None by done; exists o; by repeat split].
  apply GetStatus_inr in Hget as (l & Hid & Ho).
  rewrite (run_goroutine_Some _ _ _ Egi).
  unfold asyncsftp.GetStatus. simpl. rewrite Hid.
  destruct (decide (l = owner g)) as [->|Hne].
  - destruct (exec_same_job g w _ _ Ho) as (o' & Ho' & Hjob).
    exists o'. rewrite Ho', Copy_id. split; [done|]. split; [done|].
    destruct (Hpend g) as (o2 & Ho2 & Hst & _); [by eapply list_elem_of_lookup_2|].
    rewrite Ho in Ho2. injection Ho2 as <-. by rewrite Hst.
  - exists o. rewrite exec_other by done. rewrite Ho, Copy_id.
    by repeat split.
Qed.

Lemma spawn_record c w w' o0 id o :
  (∀ id l, asyncsftp.operations c !! id = Some l →
     is_Some (asyncsftp.heap w !! l)
     ∧ ∃ n, n < asyncsftp.uuid_next w ∧ id = asyncsftp.uuid_String n) →
  asyncsftp.heap w' = asyncsftp.heap w ++ [o0] →
  asyncsftp.GetStatus id c w = inr o →
  asyncsftp.GetStatus id
    {| asyncsftp.operations :=
         <[asyncsftp.uuid_String (asyncsftp.uuid_next w)
           := length (asyncsftp.heap w)]> (asyncsftp.operations c) |} w'
  = inr o.
Proof.
  intros Hreg Hh Hget. apply GetStatus_inr in Hget as (l & Hid & Ho).
  destruct (Hreg id l Hid) as (_ & n & Hn & ->).
  unfold asyncsftp.GetStatus. simpl.
  rewrite lookup_insert_ne by (intros Heq; apply uuid_String_inj in Heq; lia).
  rewrite Hid, Hh, lookup_app_l by (by eapply lookup_lt_Some).
  by rewrite Ho, Copy_id.
Qed.

(** The state of a record only moves forward: over a transition from a
    reachable state, a record that [GetStatus] shows is still shown, for the
    same job, and one that had left StateInProgress is shown unchanged. *)
Lemma step_record_monotone s s' id o :
  reachable s → step s s' →
  asyncsftp.GetStatus id s.1 s.2 = inr o →
  ∃ o', asyncsftp.GetStatus id s'.1 s'.2 = inr o'
        ∧ same_job o o'
        ∧ (asyncsftp.State o ≠ asyncsftp.StateInProgress → o' = o).
Proof.
  intros Hreach Hstep Hget.
  destruct (reachable_store_inv _ Hreach) as (_ & Hpend & _ & Hreg).
  destruct Hstep; simpl in *.
  - exists o. split; [|by repeat split].
    unfold asyncsftp.StartUpload. simpl. by eapply spawn_record.
  - exists o. split; [|by repeat split].
    unfold asyncsftp.StartDelete. simpl. by eapply spawn_record.
  - by apply run_goroutine_record.
  - destruct (sched_pick w) as (i & w0 & -> & _ & Hh & Hg & _).
    apply run_goroutine_record; [by rewrite Hg, Hh|].
    by rewrite (GetStatus_heap _ _ _ _ Hh).
  - destruct (ReadFile_undisturbed path w) as (_ & _ & _ & Hh & _).
    exists o. rewrite (GetStatus_heap _ _ _ _ Hh). by repeat split.
  - exists o. split; [|by repeat split]. rewrite <- Hget.
    apply GetStatus_heap. unfold asyncsftp.SetPermissions. rewrite on_remote_eq.
    by destruct (sftp_Chmod _ _ _).1.
  - exists o. split; [|by repeat split]. rewrite <- Hget.
    apply GetStatus_heap. unfold asyncsftp.ListFiles. rewrite on_remote_eq.
    by destruct (sftp_ReadDir _ _).1 as [e|es]; [destruct (os_IsNotExist e)|].
Qed.

(** C2, at the input where the code departs from it.  An upload of "hi" to
    /upload/a.txt by a new client on a server that serves every call: the
    state after the goroutine has run line 245 and before it calls
    [completeOperation] is reachable, and in it [GetStatus] returns the
    record in progress with its result already present. *)
Theorem Result_present_while_in_progress :
  let '(id, c, w) :=
    asyncsftp.StartUpload "/upload/a.txt" "hi" 420%N
      sample.fresh_client sample.world in
  reachable (c, run 6 w)
  ∧ asyncsftp.GetStatus id c (run 6 w)
    = inr {| asyncsftp.ID := "op-0";
             asyncsftp.op_Type := asyncsftp.OperationTypeUpload;
             asyncsftp.op_Path := "/upload/a.txt";
             asyncsftp.State := asyncsftp.StateInProgress;
             asyncsftp.op_Error := EmptyString;
             asyncsftp.Result :=
               Some {| asyncsftp.Path := "/upload/a.txt";
                       asyncsftp.Content := "hi";
                       asyncsftp.Permissions := "0644";
                       asyncsftp.Size := 2; asyncsftp.ModifiedAt := 101%Z |};
             asyncsftp.StartedAt := 0%Z; asyncsftp.CompletedAt := 0%Z |}
  ∧ asyncsftp.goroutines (run 6 w)
    = [asyncsftp.completeOperation_call 0 asyncsftp.StateCompleted None].
Proof.
  split; [|by vm_compute].
  apply (reachable_run 6). eapply reachable_step.
  - apply (reachable_new sample.server [] 0%Z 0).
  - apply (step_StartUpload "/upload/a.txt" "hi" 420%N).
Qed.

(** * Further properties of the code *)

(** ** The client of the plugin *)

(** X1.  [getClient] connects once.  When it returns a client, the plugin
    holds that client from then on, and every later call returns the same
    client and leaves the plugin as it is, whatever target configuration
    it is given (one that cannot be read, or one that names another server)
    and whatever the environment has become; a client made by [getClient]
    starts with an empty store. *)
Theorem getClient_keeps_first_client (env : Env) (tc : RawMessage TargetConfig)
    (p p' : Plugin) (c : asyncsftp.Client) :
  getClient env tc p = (inr c, p') →
  client p' = Some c
  ∧ (client p = None → c = {| asyncsftp.operations := ∅ |})
  ∧ ∀ env' tc', getClient env' tc' p' = (inr c, p').
Proof.
  unfold getClient at 1. destruct (client p) as [c0|] eqn:Ec.
  - intros [= <- <-]. split; [done|]. split; [done|].
    intros env' tc'. unfold getClient. by rewrite Ec.
  - destruct (parseTargetConfig tc) as [e|cfg]; [done|].
    destruct (parseURL env (cfg_URL cfg)) as [e|[host port]]; [done|].
    destruct (getCredentials env) as [e|[username password]]; [done|].
    unfold asyncsftp.NewClient.
    destruct (ssh_Dial _ _ _ _); [done|]. destruct (sftp_NewClient _ _); [done|].
    intros [= <- <-]. by repeat split.
Qed.

Lemma getClient_keeps_first_client_witness :
  getClient sample.env_unreachable (Malformed EFAILURE) sample.connected
  = (inr sample.fresh_client, sample.connected).
Proof.
  destruct (getClient_keeps_first_client sample.env sample.target
              sample.no_plugin_client sample.connected sample.fresh_client)
    as (_ & _ & H); [reflexivity|].
  apply H.
Defined.

(** X2.  When the plugin has no client, the target configuration is read and
    its URL is parsed, [getClient] makes a client exactly when: the URL is
    not empty, its scheme is "sftp", SFTP_USERNAME and SFTP_PASSWORD are
    both set, and the server at host:port accepts the dial and the SFTP
    session, where the port is "22" when the URL gives none.  It then
    returns a client with an empty store and keeps it in the plugin;
    otherwise it returns an error and the plugin stays without client. *)
Theorem getClient_connects_iff (env : Env) (cfg : TargetConfig) (u : URL)
    (p : Plugin) :
  client p = None →
  url_Parse env (cfg_URL cfg) = inr u →
  let port := if bool_decide (Port u = EmptyString) then "22" else Port u in
  let addr := Hostname u +:+ ":" +:+ port in
  let username := Getenv env "SFTP_USERNAME" in
  let password := Getenv env "SFTP_PASSWORD" in
  let new := {| asyncsftp.operations := ∅ |} in
  let ready :=
    cfg_URL cfg ≠ EmptyString ∧ Scheme u = "sftp"
    ∧ username ≠ EmptyString ∧ password ≠ EmptyString
    ∧ ssh_Dial env addr username password = None
    ∧ sftp_NewClient env addr = None in
  (ready → getClient env (Encodes cfg) p = (inr new, {| client := Some new |}))
  ∧ (¬ ready → ∃ err, getClient env (Encodes cfg) p = (inl err, p)).
Proof.
  intros Hp Hu port addr username password new ready. subst ready.
  unfold getClient, parseTargetConfig, parseURL, getCredentials,
    asyncsftp.NewClient. rewrite Hp. simpl.
  case_bool_decide as H1; simpl; [split; [by intros (? & _)|by eexists]|].
  rewrite Hu.
  case_bool_decide as H2; simpl; [split; [by intros (_ & ? & _)|by eexists]|].
  fold username password port.
  case_bool_decide as H3; simpl; [split; [by intros (_ & _ & ? & _)|by eexists]|].
  case_bool_decide as H4; simpl;
    [split; [by intros (_ & _ & _ & ? & _)|by eexists]|].
  fold addr.
  destruct (ssh_Dial env addr username password) eqn:H5;
    [split; [by intros (_ & _ & _ & _ & ? & _)|by eexists]|].
  destruct (sftp_NewClient env addr) eqn:H6;
    [split; [by intros (_ & _ & _ & _ & _ & ?)|by eexists]|].
  split; [done|]. intros Hnot. exfalso. apply Hnot. repeat split; try done.
Qed.

Lemma getClient_connects_iff_witness :
  getClient sample.env sample.target sample.no_plugin_client
  = (inr sample.fresh_client, sample.connected).
Proof.
  destruct (getClient_connects_iff sample.env
              {| cfg_URL := "sftp://localhost:2222" |}
              {| Scheme := "sftp"; Hostname := "localhost"; Port := "2222" |}
              sample.no_plugin_client) as (H & _); [reflexivity|reflexivity|].
  apply H. repeat split; discriminate.
Defined.

(** ** Permission text *)

(** [Perm] keeps the nine low bits. *)
Lemma Perm_lt m : (Perm m < 512)%N.
Proof.
  unfold Perm. change 511%N with (N.ones 9). rewrite N.land_ones.
  by apply N.mod_lt.
Qed.

(** Checked for each of the 512 values of the permission bits. *)
Lemma reads_back_all n : (n < 512)%N → reads_back n = true.
Proof.
  intros Hn.
  assert (forallb reads_back (N.of_nat <$> seq 0 512) = true) as Hall
    by (by vm_compute).
  rewrite forallb_forall in Hall. apply Hall. apply list_elem_of_In.
  apply list_elem_of_fmap. exists (N.to_nat n). split; [by rewrite N2Nat.id|].
  apply elem_of_seq. lia.
Qed.

(** X3.  The permission text that [ReadFile] and [doUpload] report for a
    mode ([%04o] of its permission bits) has four characters, and the scan
    [Create] and [Update] apply to a permission text ([Sscanf] with [%o])
    reads it back as those permission bits, whatever the mode held
    before. *)
Theorem permissions_text_reads_back (m perm : FileMode) :
  String.length (Sprintf_04o (Perm m)) = 4
  ∧ Sscanf_o (Sprintf_04o (Perm m)) perm = Perm m.
Proof.
  pose proof (reads_back_all _ (Perm_lt m)) as H. unfold reads_back in H.
  apply andb_prop in H as (Hl & Hp).
  apply bool_decide_eq_true in Hl, Hp. split; [done|].
  unfold Sscanf_o. rewrite Hp.
  pose proof (Perm_lt m).
  destruct (N.ltb_spec (Perm m) (2 ^ 32)); [done|]. 
  assert (2 ^ 32 = 4294967296)%N by reflexivity. lia.
Qed.

(** ** Reading and listing *)

(** A call that returns a value was served, by a server that holds the
    same files. *)
Lemma call_inr {A} (serve : Remote → (LibError + A) * Remote) r a r' :
  call serve r = (inr a, r') →
  ∃ r0, serve r0 = (inr a, r') ∧ files r0 = files r ∧ rclock r0 = rclock r
        ∧ create_mode r0 = create_mode r.
Proof.
  unfold call, next_fault. destruct r as [fs [|[e|] flt] rc cm]; simpl;
    try done; intros H; by eexists.
Qed.

(** What a read that succeeds has found. *)
Lemma ReadFile_inr path w fi :
  (asyncsftp.ReadFile path w).1 = inr fi →
  ∃ n, files (asyncsftp.remote w) !! path = Some n ∧ is_dir n = false
       ∧ fi = {| asyncsftp.Path := path; asyncsftp.Content := data n;
                 asyncsftp.Permissions := Sprintf_04o (Perm (mode n));
                 asyncsftp.Size := Z.of_nat (String.length (data n));
                 asyncsftp.ModifiedAt := mtime n |}.
Proof.
  unfold asyncsftp.ReadFile. rewrite on_remote_eq. simpl.
  destruct (sftp_Stat path (asyncsftp.remote w)) as [[e|st] r1] eqn:E1; simpl;
    [by destruct (os_IsNotExist e)|].
  rewrite on_remote_eq. simpl.
  destruct (sftp_Open path r1) as [[e|f] r2] eqn:E2; simpl; [done|].
  rewrite on_remote_eq. simpl.
  destruct (sftp_ReadAll f r2) as [[e|content] r3] eqn:E3; simpl;
    rewrite on_remote_eq; simpl; [done|].
  intros [= <-].
  unfold sftp_Stat in E1. apply call_inr in E1 as (r0 & E1 & Hf0 & _).
  destruct (files r0 !! path) as [n|] eqn:En; [|done].
  injection E1 as <- <-. rewrite Hf0 in En.
  unfold sftp_Open in E2. apply call_inr in E2 as (r1 & E2 & Hf1 & _).
  rewrite Hf1, Hf0, En in E2. injection E2 as <- <-.
  unfold sftp_ReadAll in E3. apply call_inr in E3 as (r2 & E3 & Hf2 & _).
  rewrite Hf2, Hf1, Hf0, En in E3.
  destruct (is_dir n) eqn:Hd; [done|]. injection E3 as <- _.
  by exists n.
Qed.





Lemma append_cons a s t : String a s +:+ t = String a (s +:+ t).
Proof. reflexivity. Qed.

Lemma append_assoc s1 s2 s3 : (s1 +:+ s2) +:+ s3 = s1 +:+ s2 +:+ s3.
Proof.
  induction s1 as [|a s1 IH]; [done|]. by rewrite !append_cons, IH.
Qed.

Lemma strip_prefix_Some p s t : strip_prefix p s = Some t ↔ s = p +:+ t.
Proof.
  revert s. induction p as [|a p IH]; intros s; simpl.
  - split; [by intros [= ->]|by intros ->].
  - destruct s as [|b s]; [by split|]. rewrite append_cons.
    destruct (Ascii.eqb_spec a b) as [->|Hne].
    + rewrite IH. split; [by intros ->|by intros [= ->]].
    + split; [done|]. by intros [= ? _].
Qed.

Lemma entry_name_Some dir path name :
  entry_name dir path = Some name
  ↔ path = dir +:+ "/" +:+ name ∧ name ≠ EmptyString ∧ has_slash name = false.
Proof.
  unfold entry_name.
  destruct (strip_prefix (dir +:+ "/") path) as [t|] eqn:E.
  - apply strip_prefix_Some in E. rewrite append_assoc in E. subst path.
    case_bool_decide as Ht; simpl.
    + split; [done|]. intros (Heq & Hne & _).
      apply (inj (String.append dir)), (inj (String.append "/")) in Heq.
      congruence.
    + destruct (has_slash t) eqn:Hsl.
      * split; [done|]. intros (Heq & _ & Hno).
        apply (inj (String.append dir)), (inj (String.append "/")) in Heq.
        congruence.
      * split; [by intros [= <-]|]. intros (Heq & _).
        apply (inj (String.append dir)), (inj (String.append "/")) in Heq.
        by subst.
  - split; [done|]. intros (-> & _).
    assert (strip_prefix (dir +:+ "/") (dir +:+ "/" +:+ name) = Some name)
      as H by (by apply strip_prefix_Some; rewrite append_assoc).
    congruence.
Qed.

(** The listing of a directory: the plain files directly under it. *)
Lemma listing_elem_of dir fs path :
  path ∈ omap (λ entry : string * bool,
                 if entry.2 then None else Some (dir +:+ "/" +:+ entry.1))
              (entries dir fs)
  ↔ ∃ name n, path = dir +:+ "/" +:+ name ∧ name ≠ EmptyString
              ∧ has_slash name = false
              ∧ fs !! path = Some n ∧ is_dir n = false.
Proof.
  rewrite list_elem_of_omap. unfold entries. split.
  - intros ([name d] & Hin & Hf). simpl in Hf.
    destruct d; [done|]. injection Hf as <-.
    apply list_elem_of_omap in Hin as ([p n] & Hpn & Hname). simpl in Hname.
    destruct (entry_name dir p) as [name'|] eqn:E; [|done].
    injection Hname as -> Hd.
    apply entry_name_Some in E as (-> & Hne & Hsl).
    apply elem_of_map_to_list in Hpn. by exists name, n.
  - intros (name & n & -> & Hne & Hsl & Hn & Hd).
    exists (name, false). split; [|done].
    apply list_elem_of_omap. exists (dir +:+ "/" +:+ name, n).
    split; [by apply elem_of_map_to_list|]. simpl.
    assert (entry_name dir (dir +:+ "/" +:+ name) = Some name) as ->
      by (by apply entry_name_Some).
    simpl. by rewrite Hd.
Qed.

Lemma sftp_ReadDir_reading dir : reading (sftp_ReadDir dir).
Proof. intros r. unfold sftp_ReadDir. by call_cases r. Qed.

Lemma ListFiles_undisturbed dir w :
  undisturbed w (asyncsftp.ListFiles dir w).2.
Proof.
  unfold asyncsftp.ListFiles.
  pose proof (on_remote_reading _ w (sftp_ReadDir_reading dir)) as H.
  destruct (asyncsftp.on_remote (sftp_ReadDir dir) w) as [[e|es] w1];
    simpl in H; [by destruct (os_IsNotExist e)|done].
Qed.

(** X5.  With a client at hand, [List] lists the directory named by the
    additional property "directory", or "/upload" when the request has
    none, never returns a page token, and leaves files, records and
    goroutines as they are.  Whenever the listing fails it returns the
    empty list.  When the server answers the call: for a directory, the
    native ids are exactly the paths dir/name of the plain files directly
    in it (directories and files further down are left out); for a path
    that is absent or is not a directory, the list is empty. *)
Theorem List_lists_plain_files (env : Env) (req : ListRequest)
    (p p' : Plugin) (c : asyncsftp.Client) (w : asyncsftp.World) :
  getClient env (list_TargetConfig req) p = (inr c, p') →
  let dir := default "/upload" (AdditionalProperties req !! "directory") in
  let fs := files (asyncsftp.remote w) in
  ∃ ids w',
    List env req p w
    = (({| NativeIDs := ids; NextPageToken := None |}, None), p', w')
    ∧ undisturbed w w'
    ∧ (∀ err, (asyncsftp.ListFiles dir w).1 = inl err → ids = [])
    ∧ (serves 1 (faults (asyncsftp.remote w)) = true →
       match fs !! dir with
       | Some d =>
           if is_dir d then
             ∀ path,
               path ∈ ids
               ↔ ∃ name n, path = dir +:+ "/" +:+ name ∧ name ≠ EmptyString
                           ∧ has_slash name = false
                           ∧ fs !! path = Some n ∧ is_dir n = false
           else ids = []
       | None => ids = []
       end).
Proof.
  intros Hc dir fs. unfold List. rewrite Hc.
  assert (match AdditionalProperties req !! "directory" with
          | Some d => d
          | None => "/upload"
          end = dir) as -> by (subst dir; by destruct (_ !! _)).
  pose proof (ListFiles_undisturbed dir w) as Hu.
  assert (serves 1 (faults (asyncsftp.remote w)) = true →
          (asyncsftp.ListFiles dir w).1
          = match fs !! dir with
            | Some d =>
                if is_dir d
                then inr (omap (λ entry : string * bool,
                                  if entry.2 then None
                                  else Some (dir +:+ "/" +:+ entry.1))
                               (entries dir fs))
                else inl (Errorf_w "readdir failed: " (FromLib EFAILURE))
            | None => inl ErrNotFound
            end) as Hserved.
  { intros Hs. unfold asyncsftp.ListFiles. rewrite on_remote_eq. simpl.
    unfold sftp_ReadDir.
    destruct (call_served
                (λ r, match files r !! dir with
                      | Some n =>
                          if is_dir n then (inr (entries dir (files r)), r)
                          else (inl EFAILURE, r)
                      | None => (inl ENOENT, r)
                      end) _ 0 Hs) as (r' & -> & Hf & _).
    rewrite Hf. fold fs. destruct (fs !! dir) as [d|]; [|done].
    by destruct (is_dir d). }
  destruct (asyncsftp.ListFiles dir w) as [[err|paths] w']; simpl in *.
  - exists [], w'. split; [by destruct (errors_Is_ErrNotFound err)|].
    split; [done|]. split; [done|]. intros Hs. specialize (Hserved Hs).
    destruct (fs !! dir) as [d|]; [|done]. by destruct (is_dir d).
  - exists paths, w'. split; [done|]. split; [done|]. split; [done|].
    intros Hs. specialize (Hserved Hs).
    destruct (fs !! dir) as [d|]; [|done]. destruct (is_dir d); [|done].
    injection Hserved as ->. intros path. apply listing_elem_of.
Qed.

Lemma List_lists_plain_files_witness :
  NativeIDs
    (List sample.env
       {| list_TargetConfig := sample.target; AdditionalProperties := ∅ |}
       sample.connected scenario.tree_world).1.1.1
  = ["/upload/a.txt"].
Proof.
  destruct (List_lists_plain_files sample.env
              {| list_TargetConfig := sample.target;
                 AdditionalProperties := ∅ |}
              sample.connected sample.connected sample.fresh_client
              scenario.tree_world eq_refl) as (ids & w' & Heq & _).
  rewrite Heq. simpl. revert Heq. vm_compute. by intros [= <- _].
Defined.

(** ** The store in the states a client can reach *)

(** The sample state with an upload in flight is reachable. *)
Lemma busy_reachable : reachable (sample.busy_client, sample.busy_world).
Proof.
  eapply reachable_step.
  - apply (reachable_new sample.server
             [1; 0; 1; 1; 0; 0; 1; 0; 1; 0; 1; 1; 0] 0%Z 0).
  - apply (step_StartUpload "/upload/b.txt" "other" 384%N).
Qed.

Lemma run_goroutine_same_job i w l o :
  asyncsftp.heap w !! l = Some o →
  ∃ o', asyncsftp.heap (asyncsftp.run_goroutine i w) !! l = Some o'
        ∧ same_job o o'.
Proof.
  intros Ho. destruct (asyncsftp.goroutines w !! i) as [g|] eqn:E.
  - rewrite (run_goroutine_Some _ _ _ E). simpl. by apply exec_same_job.
  - rewrite (run_goroutine_None _ _ E). by exists o.
Qed.

Lemma run_goroutine_heap_length i w :
  length (asyncsftp.heap (asyncsftp.run_goroutine i w))
  = length (asyncsftp.heap w).
Proof.
  destruct (asyncsftp.goroutines w !! i) as [g|] eqn:E.
  - rewrite (run_goroutine_Some _ _ _ E). simpl.
    by destruct (exec_frame g w) as (_ & _ & _ & ?).
  - by rewrite (run_goroutine_None _ _ E).
Qed.

(** A transition keeps every record on the heap, for the same job, and
    adds at most the record of the job it starts. *)
Lemma step_heap s s' :
  step s s' →
  (∀ l o, asyncsftp.heap s.2 !! l = Some o →
     ∃ o', asyncsftp.heap s'.2 !! l = Some o' ∧ same_job o o')
  ∧ ((s'.1 = s.1 ∧ length (asyncsftp.heap s'.2) = length (asyncsftp.heap s.2))
     ∨ (∃ o0,
          asyncsftp.ID o0 = asyncsftp.uuid_String (asyncsftp.uuid_next s.2)
          ∧ asyncsftp.heap s'.2 = asyncsftp.heap s.2 ++ [o0]
          ∧ asyncsftp.operations s'.1
            = <[asyncsftp.uuid_String (asyncsftp.uuid_next s.2)
                := length (asyncsftp.heap s.2)]> (asyncsftp.operations s.1))).
Proof.
  assert (∀ w w' : asyncsftp.World, asyncsftp.heap w' = asyncsftp.heap w →
            (∀ l o, asyncsftp.heap w !! l = Some o →
               ∃ o', asyncsftp.heap w' !! l = Some o' ∧ same_job o o')
            ∧ length (asyncsftp.heap w') = length (asyncsftp.heap w)) as Hsame.
  { intros w w' ->. split; [|done]. intros l o Ho. exists o. by repeat split. }
  intros Hstep. destruct Hstep; simpl.
  - unfold asyncsftp.StartUpload. simpl.
    split; [|right; eexists; (split; [|split]); [|reflexivity..]; reflexivity].
    intros l o Ho. exists o. split; [|by repeat split].
    rewrite lookup_app_l; [done|]. by eapply lookup_lt_Some.
  - unfold asyncsftp.StartDelete. simpl.
    split; [|right; eexists; (split; [|split]); [|reflexivity..]; reflexivity].
    intros l o Ho. exists o. split; [|by repeat split].
    rewrite lookup_app_l; [done|]. by eapply lookup_lt_Some.
  - split; [by intros l o; apply run_goroutine_same_job|].
    left. split; [done|]. apply run_goroutine_heap_length.
  - split; [by intros l o; apply sched_same_job|]. left. split; [done|].
    destruct (sched_pick w) as (i & w0 & -> & _ & Hh & _).
    by rewrite run_goroutine_heap_length, Hh.
  - destruct (ReadFile_undisturbed path w) as (_ & _ & _ & Hh & _).
    destruct (Hsame w _ Hh). split; [done|]. by left.
  - assert (asyncsftp.heap (asyncsftp.SetPermissions path m w).2
            = asyncsftp.heap w) as Hh.
    { unfold asyncsftp.SetPermissions. rewrite on_remote_eq.
      by destruct (sftp_Chmod _ _ _).1. }
    destruct (Hsame w _ Hh). split; [done|]. by left.
  - assert (asyncsftp.heap (asyncsftp.ListFiles dir w).2
            = asyncsftp.heap w) as Hh.
    { unfold asyncsftp.ListFiles. rewrite on_remote_eq.
      by destruct (sftp_ReadDir _ _).1 as [e|es]; [destruct (os_IsNotExist e)|]. }
    destruct (Hsame w _ Hh). split; [done|]. by left.
Qed.

(** In a reachable state a registered id leads to a record that carries it,
    and the store has one entry for each record of the heap. *)
Lemma reachable_ids s :
  reachable s →
  (∀ id l, asyncsftp.operations s.1 !! id = Some l →
     ∃ o, asyncsftp.heap s.2 !! l = Some o ∧ asyncsftp.ID o = id)
  ∧ size (asyncsftp.operations s.1) = length (asyncsftp.heap s.2).
Proof.
  induction 1 as [r sc t u|s s' Hreach (IHid & IHsize) Hstep]; simpl.
  { split; [|done]. intros id l Hid. by rewrite lookup_empty in Hid. }
  destruct (reachable_store_inv _ Hreach) as (_ & _ & _ & Hreg).
  destruct (step_heap _ _ Hstep) as (Hkeep & [(Hc & Hlen)|(o0 & Hid0 & Hh & Hops)]).
  - rewrite Hc, Hlen. split; [|done]. intros id l Hid.
    destruct (IHid id l Hid) as (o & Ho & HID).
    destruct (Hkeep l o Ho) as (o' & Ho' & (HID' & _)).
    exists o'. split; [done|]. by rewrite HID'.
  - rewrite Hops, Hh. split.
    + intros id l Hid.
      destruct (decide (asyncsftp.uuid_String (asyncsftp.uuid_next s.2) = id))
        as [<-|Hne].
      * rewrite lookup_insert_eq in Hid. injection Hid as <-.
        exists o0. split; [|done]. by apply list_lookup_middle.
      * rewrite lookup_insert_ne in Hid by done.
        destruct (IHid id l Hid) as (o & Ho & HID). exists o. split; [|done].
        rewrite lookup_app_l; [done|]. by eapply lookup_lt_Some.
    + rewrite length_app. simpl. rewrite map_size_insert_None; [lia|].
      destruct (asyncsftp.operations s.1 !! _) as [l|] eqn:E; [|done].
      destruct (Hreg _ l E) as (_ & n & Hn & Heq).
      apply uuid_String_inj in Heq. lia.
Qed.

(** X6.  In every state a client can reach, each id of the store leads to a
    record that [GetStatus] returns and that carries this id, no two ids
    lead to the same record, and the store has as many ids as jobs were
    started: nothing removes a job from the store. *)
Theorem registered_ids_resolve (c : asyncsftp.Client) (w : asyncsftp.World) :
  reachable (c, w) →
  (∀ id l, asyncsftp.operations c !! id = Some l →
     ∃ o, asyncsftp.GetStatus id c w = inr o ∧ asyncsftp.ID o = id)
  ∧ (∀ id id' l, asyncsftp.operations c !! id = Some l →
       asyncsftp.operations c !! id' = Some l → id = id')
  ∧ size (asyncsftp.operations c) = length (asyncsftp.heap w).
Proof.
  intros Hreach. destruct (reachable_ids _ Hreach) as (Hid & Hsize). simpl in *.
  split; [|split; [|done]].
  - intros id l Hl. destruct (Hid id l Hl) as (o & Ho & HID). exists o.
    unfold asyncsftp.GetStatus. by rewrite Hl, Ho, Copy_id.
  - intros id id' l Hl Hl'. destruct (Hid id l Hl) as (o & Ho & <-).
    destruct (Hid id' l Hl') as (o' & Ho' & <-). congruence.
Qed.

Lemma registered_ids_resolve_witness :
  size (asyncsftp.operations sample.busy_client)
  = length (asyncsftp.heap sample.busy_world).
Proof.
  destruct (registered_ids_resolve sample.busy_client sample.busy_world)
    as (_ & _ & H).
  - exact busy_reachable.
  - exact H.
Defined.

(** X7.  In a state a client can reach, [StartUpload] and [StartDelete]
    return an id that [GetStatus] did not know before; right after the
    call, before the goroutine has taken a step, [GetStatus] of that id
    returns the new record: in progress, of the kind and for the path of
    the call, with no error and no result, started at the time of the
    call; and every record that [GetStatus] showed before is shown
    unchanged. *)
Theorem Start_registers_fresh_job (c : asyncsftp.Client) (w : asyncsftp.World)
    (path content : string) (m : FileMode) :
  reachable (c, w) →
  let id := asyncsftp.uuid_String (asyncsftp.uuid_next w) in
  let up := asyncsftp.StartUpload path content m c w in
  let del := asyncsftp.StartDelete path c w in
  let record ty :=
    {| asyncsftp.ID := id; asyncsftp.op_Type := ty; asyncsftp.op_Path := path;
       asyncsftp.State := asyncsftp.StateInProgress;
       asyncsftp.op_Error := EmptyString; asyncsftp.Result := None;
       asyncsftp.StartedAt := asyncsftp.clock w;
       asyncsftp.CompletedAt := 0%Z |} in
  up.1.1 = id ∧ del.1.1 = id
  ∧ asyncsftp.GetStatus id c w = inl (Errorf ("operation not found: " +:+ id))
  ∧ asyncsftp.GetStatus id up.1.2 up.2
    = inr (record asyncsftp.OperationTypeUpload)
  ∧ asyncsftp.GetStatus id del.1.2 del.2
    = inr (record asyncsftp.OperationTypeDelete)
  ∧ (∀ id' o, asyncsftp.GetStatus id' c w = inr o →
       asyncsftp.GetStatus id' up.1.2 up.2 = inr o
       ∧ asyncsftp.GetStatus id' del.1.2 del.2 = inr o).
Proof.
  intros Hreach id up del record.
  destruct (reachable_store_inv _ Hreach) as (_ & _ & _ & Hreg). simpl in Hreg.
  assert (asyncsftp.operations c !! id = None) as Hfresh.
  { destruct (asyncsftp.operations c !! id) as [l|] eqn:E; [|done].
    destruct (Hreg _ l E) as (_ & n & Hn & Heq).
    apply uuid_String_inj in Heq. lia. }
  split; [done|]. split; [done|].
  split; [by unfold asyncsftp.GetStatus; rewrite Hfresh|].
  split.
  { subst up. unfold asyncsftp.StartUpload, asyncsftp.GetStatus. simpl. fold id.
    by rewrite lookup_insert_eq, list_lookup_middle. }
  split.
  { subst del. unfold asyncsftp.StartDelete, asyncsftp.GetStatus. simpl. fold id.
    by rewrite lookup_insert_eq, list_lookup_middle. }
  intros id' o Hget. split.
  - exact (spawn_record c w up.2 _ id' o Hreg eq_refl Hget).
  - exact (spawn_record c w del.2 _ id' o Hreg eq_refl Hget).
Qed.

Lemma Start_registers_fresh_job_witness :
  asyncsftp.GetStatus "op-1"
    (asyncsftp.StartDelete "/upload/a.txt" sample.busy_client
       sample.busy_world).1.2
    (asyncsftp.StartDelete "/upload/a.txt" sample.busy_client
       sample.busy_world).2
  = inr {| asyncsftp.ID := "op-1";
           asyncsftp.op_Type := asyncsftp.OperationTypeDelete;
           asyncsftp.op_Path := "/upload/a.txt";
           asyncsftp.State := asyncsftp.StateInProgress;
           asyncsftp.op_Error := EmptyString; asyncsftp.Result := None;
           asyncsftp.StartedAt := 1%Z; asyncsftp.CompletedAt := 0%Z |}.
Proof.
  destruct (Start_registers_fresh_job sample.busy_client sample.busy_world
              "/upload/a.txt" EmptyString 0%N) as (_ & _ & _ & _ & H & _).
  - eapply reachable_step.
    + apply (reachable_new sample.server
               [1; 0; 1; 1; 0; 0; 1; 0; 1; 0; 1; 1; 0] 0%Z 0).
    + apply (step_StartUpload "/upload/b.txt" "other" 384%N).
  - exact H.
Defined.

(** X8.  In every state a client can reach, a record of the store is in
    progress exactly when a goroutine works on it, and no two goroutines
    work on the same record; its error message is present exactly when it
    is Failed; a result is present only on an upload that has not failed;
    and a Completed record holds a result exactly when it is an upload. *)
Theorem record_in_progress_iff_worked_on (c : asyncsftp.Client)
    (w : asyncsftp.World) (id : string) (l : asyncsftp.loc)
    (o : asyncsftp.Operation) :
  reachable (c, w) →
  asyncsftp.operations c !! id = Some l →
  asyncsftp.heap w !! l = Some o →
  (asyncsftp.State o = asyncsftp.StateInProgress
   ↔ ∃ g, g ∈ asyncsftp.goroutines w ∧ owner g = l)
  ∧ (∀ i j g g', asyncsftp.goroutines w !! i = Some g →
       asyncsftp.goroutines w !! j = Some g' → owner g = owner g' → i = j)
  ∧ (asyncsftp.op_Error o ≠ EmptyString
     ↔ asyncsftp.State o = asyncsftp.StateFailure)
  ∧ (asyncsftp.Result o ≠ None →
     asyncsftp.op_Type o = asyncsftp.OperationTypeUpload
     ∧ asyncsftp.State o ≠ asyncsftp.StateFailure)
  ∧ (asyncsftp.State o = asyncsftp.StateCompleted →
     (asyncsftp.Result o ≠ None
      ↔ asyncsftp.op_Type o = asyncsftp.OperationTypeUpload)).
Proof.
  intros Hreach Hid Ho.
  destruct (reachable_store_inv _ Hreach) as (Hnd & Hpend & Hset & _).
  simpl in *.
  split; [|split].
  - split.
    + intros Hst.
      destruct (decide (l ∈ owner <$> asyncsftp.goroutines w)) as [Hin|Hnot].
      * apply list_elem_of_fmap in Hin as (g & -> & Hg). by exists g.
      * destruct (Hset l o Ho Hnot) as (Hterm & _). done.
    + intros (g & Hg & <-). destruct (Hpend g Hg) as (o' & Ho' & Hst & _).
      congruence.
  - intros i j g g' Hi Hj Heq.
    eapply (NoDup_lookup _ i j (owner g) Hnd); rewrite list_lookup_fmap.
    + by rewrite Hi.
    + rewrite Hj. simpl. by rewrite Heq.
  - apply (reachable_record c w id o Hreach).
    unfold asyncsftp.GetStatus. by rewrite Hid, Ho, Copy_id.
Qed.

Lemma record_in_progress_iff_worked_on_witness :
  ∃ g, g ∈ asyncsftp.goroutines sample.busy_world ∧ owner g = 0.
Proof.
  destruct (record_in_progress_iff_worked_on sample.busy_client
              sample.busy_world "op-0" 0
              {| asyncsftp.ID := "op-0";
                 asyncsftp.op_Type := asyncsftp.OperationTypeUpload;
                 asyncsftp.op_Path := "/upload/b.txt";
                 asyncsftp.State := asyncsftp.StateInProgress;
                 asyncsftp.op_Error := EmptyString; asyncsftp.Result := None;
                 asyncsftp.StartedAt := 0%Z; asyncsftp.CompletedAt := 0%Z |})
    as ((H & _) & _).
  - exact busy_reachable.
  - reflexivity.
  - reflexivity.
  - apply H. reflexivity.
Defined.

(** X9.  Over any sequence of transitions from a state a client can reach
    (jobs started, goroutines stepping in any order, reads, listings,
    permission changes), a record that [GetStatus] shows is still shown,
    for the same job (id, kind, path, start time), and a record that had
    left StateInProgress is shown unchanged: a terminal record is never
    written again. *)
Theorem shown_records_only_move_forward
    (s s' : asyncsftp.Client * asyncsftp.World) (id : string)
    (o : asyncsftp.Operation) :
  reachable s →
  rtc step s s' →
  asyncsftp.GetStatus id s.1 s.2 = inr o →
  reachable s'
  ∧ ∃ o', asyncsftp.GetStatus id s'.1 s'.2 = inr o'
          ∧ same_job o o'
          ∧ (asyncsftp.State o ≠ asyncsftp.StateInProgress → o' = o).
Proof.
  intros Hreach Hsteps. revert o Hreach.
  induction Hsteps as [s|s s1 s2 Hstep _ IH]; intros o Hreach Hget.
  - split; [done|]. exists o. by repeat split.
  - destruct (step_record_monotone s s1 id o Hreach Hstep Hget)
      as (o1 & Hget1 & Hjob1 & Hkeep1).
    destruct (IH o1) as (Hreach2 & o2 & Hget2 & Hjob2 & Hkeep2);
      [by eapply reachable_step|done|].
    split; [done|]. exists o2. split; [done|].
    split; [by eapply same_job_trans|].
    intros Hterm. rewrite <- (Hkeep1 Hterm). apply Hkeep2.
    by rewrite (Hkeep1 Hterm).
Qed.

Lemma shown_records_only_move_forward_witness :
  ∃ o', asyncsftp.GetStatus "op-0"
          (asyncsftp.StartDelete "/upload/b.txt" sample.busy_client
             (asyncsftp.sched sample.busy_world)).1.2
          (asyncsftp.StartDelete "/upload/b.txt" sample.busy_client
             (asyncsftp.sched sample.busy_world)).2 = inr o'
        ∧ asyncsftp.op_Path o' = "/upload/b.txt".
Proof.
  destruct (shown_records_only_move_forward
              (sample.busy_client, sample.busy_world)
              ((asyncsftp.StartDelete "/upload/b.txt" sample.busy_client
                  (asyncsftp.sched sample.busy_world)).1.2,
               (asyncsftp.StartDelete "/upload/b.txt" sample.busy_client
                  (asyncsftp.sched sample.busy_world)).2) "op-0"
              {| asyncsftp.ID := "op-0";
                 asyncsftp.op_Type := asyncsftp.OperationTypeUpload;
                 asyncsftp.op_Path := "/upload/b.txt";
                 asyncsftp.State := asyncsftp.StateInProgress;
                 asyncsftp.op_Error := EmptyString; asyncsftp.Result := None;
                 asyncsftp.StartedAt := 0%Z; asyncsftp.CompletedAt := 0%Z |})
    as (_ & o' & Hget & (_ & _ & Hpath & _) & _).
  - exact busy_reachable.
  - eapply rtc_l; [apply step_sched|].
    eapply rtc_l; [apply (step_StartDelete "/upload/b.txt")|].
    apply rtc_refl.
  - reflexivity.
  - exists o'. split; [exact Hget|exact Hpath].
Defined.

(** A goroutine returns within seven steps. *)
Lemma work_bound w : work w ≤ 7 * length (asyncsftp.goroutines w).
Proof.
  unfold work. induction (asyncsftp.goroutines w) as [|g gs IH]; simpl; [lia|].
  assert (steps_left g ≤ 7) by (destruct g; simpl; lia). lia.
Qed.

(** X10.  From a state a client can reach, after seven steps of the
    scheduler for each goroutine in flight (in any order, whatever the
    server answers), no goroutine is left and every record that
    [GetStatus] showed is shown for the same job in a terminal state;
    those that were terminal already are unchanged. *)
Theorem every_job_ends (c : asyncsftp.Client) (w : asyncsftp.World) (k : nat) :
  reachable (c, w) →
  7 * length (asyncsftp.goroutines w) ≤ k →
  asyncsftp.goroutines (run k w) = []
  ∧ ∀ id o, asyncsftp.GetStatus id c w = inr o →
      ∃ o', asyncsftp.GetStatus id c (run k w) = inr o'
            ∧ same_job o o'
            ∧ asyncsftp.State o' ≠ asyncsftp.StateInProgress
            ∧ (asyncsftp.State o ≠ asyncsftp.StateInProgress → o' = o).
Proof.
  intros Hreach Hk.
  assert (asyncsftp.goroutines (run k w) = []) as Hout
    by (apply run_out; pose proof (work_bound w); lia).
  split; [done|]. intros id o Hget.
  pose proof (reachable_run k _ _ Hreach) as Hreach'.
  destruct (reachable_store_inv _ Hreach') as (_ & _ & Hset & _). simpl in Hset.
  assert (∀ j, ∃ o', asyncsftp.GetStatus id c (run j w) = inr o'
                     ∧ same_job o o'
                     ∧ (asyncsftp.State o ≠ asyncsftp.StateInProgress → o' = o))
    as Hmono.
  { induction j as [|j (o1 & Hget1 & Hjob1 & Hkeep1)];
      [exists o; by repeat split|].
    pose proof (reachable_run j _ _ Hreach) as Hj.
    destruct (reachable_store_inv _ Hj) as (_ & Hpend & _). simpl in Hpend.
    destruct (sched_pick (run j w)) as (i & w0 & Hs & _ & Hh & Hg & _).
    destruct (run_goroutine_record i c w0 id o1) as (o2 & Hget2 & Hjob2 & Hkeep2);
      [by rewrite Hg, Hh|by rewrite (GetStatus_heap _ _ _ _ Hh)|].
    exists o2. simpl. rewrite Hs. split; [done|].
    split; [by eapply same_job_trans|].
    intros Hterm. rewrite <- (Hkeep1 Hterm). apply Hkeep2.
    by rewrite (Hkeep1 Hterm). }
  destruct (Hmono k) as (o' & Hget' & Hjob & Hkeep).
  exists o'. split; [done|]. split; [done|]. split; [|done].
  apply GetStatus_inr in Hget' as (l & _ & Ho').
  apply (Hset l o' Ho'). rewrite Hout. simpl. apply not_elem_of_nil.
Qed.

Lemma every_job_ends_witness :
  ∃ o', asyncsftp.GetStatus "op-0" sample.busy_client (run 7 sample.busy_world)
        = inr o'
        ∧ asyncsftp.State o' ≠ asyncsftp.StateInProgress.
Proof.
  destruct (every_job_ends sample.busy_client sample.busy_world 7) as (_ & H).
  - eapply reachable_step.
    + apply (reachable_new sample.server
               [1; 0; 1; 1; 0; 0; 1; 0; 1; 0; 1; 1; 0] 0%Z 0).
    + apply (step_StartUpload "/upload/b.txt" "other" 384%N).
  - simpl. lia.
  - destruct (H "op-0"
                {| asyncsftp.ID := "op-0";
                   asyncsftp.op_Type := asyncsftp.OperationTypeUpload;
                   asyncsftp.op_Path := "/upload/b.txt";
                   asyncsftp.State := asyncsftp.StateInProgress;
                   asyncsftp.op_Error := EmptyString; asyncsftp.Result := None;
                   asyncsftp.StartedAt := 0%Z; asyncsftp.CompletedAt := 0%Z |})
      as (o' & Hget & _ & Hterm & _); [reflexivity|].
    exists o'. by split.
Defined.

(** X11.  [Status], for a plugin whose client is in a reachable state: it
    returns no Go error; an id the store does not know gives Failure with
    InternalFailure and "operation not found: <id>"; for a record of the
    store, the result echoes the request id, gives the path of the job as
    native id and the error message of the record as status message, maps
    InProgress, Completed and Failure to InProgress, Success and Failure,
    and carries the code InternalFailure exactly for Failure.  A status
    message is present exactly for Failure, and properties are present
    exactly for a Success of an upload (never while the job is in progress,
    even when the record holds its result already), and are then those of
    the result of the record. *)
Theorem Status_reports_the_record (env : Env) (req : StatusRequest)
    (p : Plugin) (c : asyncsftp.Client) (w : asyncsftp.World) :
  client p = Some c →
  reachable (c, w) →
  let id := status_RequestID req in
  let r := (Status env req p w).1 in
  (Status env req p w).2 = None
  ∧ Operation r = resource.OperationCheckStatus
  ∧ (asyncsftp.operations c !! id = None →
     r = failure resource.OperationCheckStatus
           resource.OperationErrorCodeInternalFailure
           ("operation not found: " +:+ id))
  ∧ (∀ o, asyncsftp.GetStatus id c w = inr o →
       RequestID r = id
       ∧ NativeID r = asyncsftp.op_Path o
       ∧ StatusMessage r = asyncsftp.op_Error o
       ∧ OperationStatus r
         = match asyncsftp.State o with
           | asyncsftp.StateInProgress => resource.OperationStatusInProgress
           | asyncsftp.StateCompleted => resource.OperationStatusSuccess
           | asyncsftp.StateFailure => resource.OperationStatusFailure
           end
       ∧ ErrorCode r
         = match asyncsftp.State o with
           | asyncsftp.StateFailure =>
               Some resource.OperationErrorCodeInternalFailure
           | _ => None
           end
       ∧ (StatusMessage r ≠ EmptyString
          ↔ OperationStatus r = resource.OperationStatusFailure)
       ∧ (ResourceProperties r ≠ None
          ↔ OperationStatus r = resource.OperationStatusSuccess
            ∧ asyncsftp.op_Type o = asyncsftp.OperationTypeUpload)
       ∧ (∀ fi, asyncsftp.Result o = Some fi →
            asyncsftp.State o = asyncsftp.StateCompleted →
            ResourceProperties r = Some (props_of env fi))).
Proof.
  intros Hp Hreach id r. subst r. unfold Status. rewrite Hp. fold id.
  split.
  { destruct (asyncsftp.GetStatus id c w) as [e|o]; [done|].
    by destruct (asyncsftp.State o). }
  split.
  { destruct (asyncsftp.GetStatus id c w) as [e|o]; [done|].
    by destruct (asyncsftp.State o). }
  split.
  { intros Hnone. unfold asyncsftp.GetStatus. by rewrite Hnone. }
  intros o Hget. rewrite Hget.
  destruct (reachable_record c w id o Hreach Hget) as (Herr & Hres & Hdone).
  destruct (asyncsftp.State o) eqn:Hst; simpl.
  - do 5 (split; [done|]). split; [|split; [|done]].
    + split; [|done]. intros H. by apply Herr in H.
    + split; [done|]. by intros (? & _).
  - do 5 (split; [done|]). split; [|split].
    + split; [|done]. intros H. by apply Herr in H.
    + specialize (Hdone eq_refl). destruct (asyncsftp.Result o) as [fi|].
      * split; [|done]. intros _. split; [done|]. by apply Hdone.
      * split; [done|]. intros (_ & Hu). apply Hdone in Hu. done.
    + intros fi -> _. done.
  - do 5 (split; [done|]). split; [|split; [|done]].
    + split; [done|]. intros _. by apply Herr.
    + split; [done|]. by intros (? & _).
Qed.

Lemma Status_reports_the_record_witness :
  OperationStatus
    (Status sample.env {| status_RequestID := "op-0" |}
       {| client := Some sample.busy_client |} sample.busy_world).1
  = resource.OperationStatusInProgress.
Proof.
  destruct (Status_reports_the_record sample.env
              {| status_RequestID := "op-0" |}
              {| client := Some sample.busy_client |} sample.busy_client
              sample.busy_world) as (_ & _ & _ & H).
  - reflexivity.
  - exact busy_reachable.
  - destruct (H {| asyncsftp.ID := "op-0";
                   asyncsftp.op_Type := asyncsftp.OperationTypeUpload;
                   asyncsftp.op_Path := "/upload/b.txt";
                   asyncsftp.State := asyncsftp.StateInProgress;
                   asyncsftp.op_Error := EmptyString; asyncsftp.Result := None;
                   asyncsftp.StartedAt := 0%Z; asyncsftp.CompletedAt := 0%Z |})
      as (_ & _ & _ & Hst & _); [reflexivity|exact Hst].
Defined.

(** ** Jobs that run alone *)

(** The calls of an upload, by what they return, and when the server
    serves them. *)
Lemma sftp_Create_result path r :
  match (sftp_Create path r).1 with
  | inl e => files (sftp_Create path r).2 = files r
  | inr f =>
      f = path
      ∧ ∃ n, files (sftp_Create path r).2 = <[path := n]> (files r)
             ∧ is_dir n = false ∧ data n = EmptyString
  end.
Proof.
  unfold sftp_Create. call_cases r; try done; split; try done; by eexists.
Qed.

Lemma sftp_Create_served path r k :
  serves (S k) (faults r) = true →
  (∀ f, files r !! path = Some f → is_dir f = false) →
  (∃ f, (sftp_Create path r).1 = inr f)
  ∧ serves k (faults (sftp_Create path r).2) = true.
Proof.
  intros Hs Hplain. unfold sftp_Create.
  destruct (call_served
              (λ r, match files r !! path with
                    | Some n =>
                        if is_dir n then (inl EFAILURE, r)
                        else (inr path,
                              with_files
                                (<[path := {| is_dir := false;
                                              data := EmptyString;
                                              mode := mode n;
                                              mtime := rclock r |}]>
                                   (files r)) r)
                    | None =>
                        (inr path,
                         with_files
                           (<[path := {| is_dir := false; data := EmptyString;
                                         mode := create_mode r;
                                         mtime := rclock r |}]>
                              (files r)) r)
                    end) r k Hs) as (r1 & -> & Hf & _ & _ & _ & Hs1).
  rewrite Hf. destruct (files r !! path) as [n|] eqn:E.
  - rewrite (Hplain n eq_refl). simpl. split; [by eexists|done].
  - simpl. split; [by eexists|done].
Qed.

Lemma sftp_Create_served_0 path r k :
  serves (S k) (faults r) = true →
  serves k (faults (sftp_Create path r).2) = true.
Proof.
  unfold sftp_Create, call, next_fault.
  destruct r as [fs [|[e|] flt] rc cm]; simpl; intros Hs; try done;
    destruct (fs !! path) as [n|]; simpl; try destruct (is_dir n); simpl;
    try done; by destruct k.
Qed.

Lemma sftp_Write_result f content r :
  (∃ n, files r !! f = Some n ∧ is_dir n = false) →
  match (sftp_Write f content r).1 with
  | inl e => files (sftp_Write f content r).2 = files r
  | inr _ => holds f content (sftp_Write f content r).2
  end
  ∧ ∀ k, serves (S k) (faults r) = true →
         (∃ u, (sftp_Write f content r).1 = inr u)
         ∧ serves k (faults (sftp_Write f content r).2) = true.
Proof.
  intros (n & Hn & Hd). unfold sftp_Write, call, next_fault, holds.
  destruct r as [fs [|[e|] flt] rc cm]; simpl in *; rewrite ?Hn; simpl;
    rewrite ?lookup_insert_eq; (split; [try done; by eexists|]);
    intros k Hs; try done; (split; [by eexists|]); by destruct k.
Qed.

Lemma sftp_Close_result f r :
  files (sftp_Close f r).2 = files r
  ∧ ∀ k, serves (S k) (faults r) = true →
         (∃ u, (sftp_Close f r).1 = inr u)
         ∧ serves k (faults (sftp_Close f r).2) = true.
Proof.
  unfold sftp_Close, call, next_fault.
  destruct r as [fs [|[e|] flt] rc cm]; simpl; (split; [done|]);
    intros k Hs; try done; (split; [by eexists|]); by destruct k.
Qed.

Lemma sftp_Chmod_result path m content r :
  holds path content r →
  match (sftp_Chmod path m r).1 with
  | inl e => files (sftp_Chmod path m r).2 = files r
  | inr _ => uploaded path content m (sftp_Chmod path m r).2
  end
  ∧ ∀ k, serves (S k) (faults r) = true →
         (∃ u, (sftp_Chmod path m r).1 = inr u)
         ∧ serves k (faults (sftp_Chmod path m r).2) = true.
Proof.
  intros (n & Hn & Hd & Hdata). unfold sftp_Chmod, call, next_fault, uploaded.
  destruct r as [fs [|[e|] flt] rc cm]; simpl in *; rewrite ?Hn; simpl;
    rewrite ?lookup_insert_eq; (split; [try done; by eexists|]);
    intros k Hs; try done; (split; [by eexists|]); by destruct k.
Qed.

Lemma sftp_Stat_result path r n :
  files r !! path = Some n →
  files (sftp_Stat path r).2 = files r
  ∧ (∀ st, (sftp_Stat path r).1 = inr st → st = stat_of n)
  ∧ ∀ k, serves (S k) (faults r) = true →
         (∃ st, (sftp_Stat path r).1 = inr st)
         ∧ serves k (faults (sftp_Stat path r).2) = true.
Proof.
  intros Hn. unfold sftp_Stat, call, next_fault.
  destruct r as [fs [|[e|] flt] rc cm]; simpl in *; rewrite ?Hn; simpl;
    (split; [done|]); (split; [by intros st [= <-]|]);
    intros k Hs; try done; (split; [by eexists|]); by destruct k.
Qed.

Lemma holds_files path content r r' :
  files r' = files r → holds path content r → holds path content r'.
Proof. unfold holds. by intros ->. Qed.

Lemma truncated_files path content r r' :
  files r' = files r → truncated path content r → truncated path content r'.
Proof. unfold truncated. by intros ->. Qed.

Lemma holds_truncated path content r :
  holds path content r → truncated path content r.
Proof. intros (n & ? & ? & ?). exists n. auto. Qed.

(** A step of the goroutine of an upload that runs alone. *)
Lemma exec_upload_point g w l o path content m F (healthy : Prop) :
  asyncsftp.heap w !! l = Some o →
  asyncsftp.op_Path o = path →
  owner g = l →
  asyncsftp.State o = asyncsftp.StateInProgress →
  asyncsftp.op_Error o = EmptyString →
  (∀ p, p ≠ path → files (asyncsftp.remote w) !! p = F !! p) →
  (healthy → ∀ f, F !! path = Some f → is_dir f = false) →
  upload_point path content m F o (asyncsftp.remote w) g →
  (healthy → serves (calls_left g) (faults (asyncsftp.remote w)) = true
             ∧ failing g = false) →
  ∃ o', asyncsftp.heap (asyncsftp.exec g w).2 !! l = Some o'
        ∧ asyncsftp.op_Path o' = path
        ∧ (∀ p, p ≠ path →
             files (asyncsftp.remote (asyncsftp.exec g w).2) !! p = F !! p)
        ∧ match (asyncsftp.exec g w).1 with
          | Some g' =>
              owner g' = l
              ∧ asyncsftp.State o' = asyncsftp.StateInProgress
              ∧ asyncsftp.op_Error o' = EmptyString
              ∧ upload_point path content m F o'
                  (asyncsftp.remote (asyncsftp.exec g w).2) g'
              ∧ (healthy →
                 serves (calls_left g')
                   (faults (asyncsftp.remote (asyncsftp.exec g w).2)) = true
                 ∧ failing g' = false)
          | None =>
              match asyncsftp.State o' with
              | asyncsftp.StateInProgress => False
              | asyncsftp.StateCompleted =>
                  asyncsftp.op_Error o' = EmptyString
                  ∧ upload_result path content m
                      (asyncsftp.remote (asyncsftp.exec g w).2)
                      (asyncsftp.Result o')
              | asyncsftp.StateFailure =>
                  ¬ healthy ∧ asyncsftp.Result o' = None
                  ∧ ∃ err, asyncsftp.op_Error o' = Error err
                           ∧ upload_failed path content m F
                               (asyncsftp.remote (asyncsftp.exec g w).2) err
              end
          end.
Proof.
  intros Ho Hp Hown Hst He Hother Hplain Hpoint Hhealthy.
  pose proof (path_of_lookup _ _ _ Ho) as Hpath. rewrite Hp in Hpath.
  set (r := asyncsftp.remote w) in *.
  destruct g as [op c p|op f c p|op f err c p|op c p|op c|op c st| |op st err];
    simpl in Hown, Hpoint, Hhealthy; subst l; simpl;
    rewrite ?on_remote_eq, ?Hpath; simpl; fold r.
  - destruct Hpoint as (-> & -> & Hres & HF).
    pose proof (sftp_Create_result path r) as Hc.
    pose proof (λ p H, sftp_Create_other path p r H) as Hkeep.
    destruct (sftp_Create path r) as [[e|f] r1] eqn:Ec; simpl in *;
      exists o; (split; [done|]); (split; [done|]);
      (split; [by intros p Hne; rewrite Hkeep by done; apply Hother|]);
      (split; [done|]); (split; [done|]); (split; [done|]).
    + split.
      * split; [done|]. left. exists e. split; [done|]. by rewrite Hc.
      * intros Hh. destruct (Hhealthy Hh) as (Hs & _).
        destruct (sftp_Create_served path r 4 Hs) as ((f & Hf) & _).
        { intros f. subst r. rewrite HF. by apply Hplain. }
        rewrite Ec in Hf. done.
    + destruct Hc as (-> & n & Hn & Hd & Hdata). split.
      * do 4 (split; [done|]). exists n. by rewrite Hn, lookup_insert_eq.
      * intros Hh. destruct (Hhealthy Hh) as (Hs & _). split; [|done].
        pose proof (sftp_Create_served_0 path r 4 Hs) as Hs'.
        by rewrite Ec in Hs'.
  - destruct Hpoint as (-> & -> & -> & Hres & n & Hn & Hd & Hdata).
    destruct (sftp_Write_result path content r) as (Hw & Hserved);
      [by exists n|].
    pose proof (λ p H, sftp_Write_other path content p r H) as Hkeep.
    destruct (sftp_Write path content r) as [[e|u] r1] eqn:Ew; simpl in *;
      exists o; (split; [done|]); (split; [done|]);
      (split; [by intros p Hne; rewrite Hkeep by done; apply Hother|]);
      (split; [done|]); (split; [done|]); (split; [done|]).
    + split.
      * do 3 (split; [done|]). exists n. rewrite Hw. auto.
      * intros Hh. destruct (Hhealthy Hh) as (Hs & _).
        by destruct (Hserved 3 Hs) as ((u & ?) & _).
    + split; [done|]. intros Hh. destruct (Hhealthy Hh) as (Hs & _).
      by destruct (Hserved 3 Hs) as (_ & ?).
  - destruct Hpoint as (-> & -> & Hres & Herr).
    destruct (sftp_Close_result f r) as (Hf & Hserved).
    destruct (sftp_Close f r) as [[e|u] r1] eqn:Ec; simpl in *;
      destruct err as [e'|]; simpl; exists o; (split; [done|]);
      (split; [done|]);
      (split; [by intros p Hne; rewrite Hf; apply Hother|]);
      (split; [done|]); (split; [done|]); (split; [done|]).
    + split; [|by intros Hh; destruct (Hhealthy Hh)].
      split; [done|]. right. left. exists e'. split; [done|].
      by eapply truncated_files.
    + split.
      * split; [done|]. right. left. exists e. split; [done|].
        eapply truncated_files; [done|]. by apply holds_truncated.
      * intros Hh. destruct (Hhealthy Hh) as (Hs & _).
        by destruct (Hserved 2 Hs) as ((u & ?) & _).
    + split; [|by intros Hh; destruct (Hhealthy Hh)].
      split; [done|]. right. left. exists e'. split; [done|].
      by eapply truncated_files.
    + split; [by do 3 (split; [done|]); eapply holds_files|].
      intros Hh. destruct (Hhealthy Hh) as (Hs & _).
      by destruct (Hserved 2 Hs) as (_ & ?).
  - destruct Hpoint as (-> & -> & Hres & Hholds).
    destruct (sftp_Chmod_result path m content r Hholds) as (Hc & Hserved).
    pose proof (λ p H, sftp_Chmod_other path m p r H) as Hkeep.
    destruct (sftp_Chmod path m r) as [[e|u] r1] eqn:Ec; simpl in *;
      exists o; (split; [done|]); (split; [done|]);
      (split; [by intros p Hne; rewrite Hkeep by done; apply Hother|]);
      (split; [done|]); (split; [done|]); (split; [done|]).
    + split.
      * split; [done|]. right. right. left. exists e. split; [done|].
        by eapply holds_files.
      * intros Hh. destruct (Hhealthy Hh) as (Hs & _).
        by destruct (Hserved 1 Hs) as ((u & ?) & _).
    + split; [done|]. intros Hh. destruct (Hhealthy Hh) as (Hs & _).
      by destruct (Hserved 1 Hs) as (_ & ?).
  - destruct Hpoint as (-> & Hres & n & Hn & Hd & Hdata & Hmode).
    destruct (sftp_Stat_result path r n Hn) as (Hf & Hstat & Hserved).
    destruct (sftp_Stat path r) as [[e|st] r1] eqn:Es; simpl in *;
      exists o; (split; [done|]); (split; [done|]);
      (split; [by intros p Hne; rewrite Hf; apply Hother|]);
      (split; [done|]); (split; [done|]); (split; [done|]).
    + split.
      * split; [done|]. right. right. right. exists e. split; [done|].
        exists n. by rewrite Hf.
      * intros Hh. destruct (Hhealthy Hh) as (Hs & _).
        by destruct (Hserved 0 Hs) as ((u & ?) & _).
    + split; [|done]. do 2 (split; [done|]). exists n. rewrite Hf.
      by rewrite (Hstat st eq_refl).
  - destruct Hpoint as (-> & Hres & n & Hn & Hd & Hdata & Hmode & ->).
    unfold asyncsftp.set_Result. simpl. rewrite list_lookup_alter_eq, Ho. simpl.
    eexists. split; [reflexivity|]. simpl.
    do 5 (split; [done|]). split; [|done].
    exists n. rewrite Hdata, Hmode. by repeat split.
  - done.
  - unfold asyncsftp.completeOperation. simpl.
    rewrite list_lookup_alter_eq, Ho. simpl. eexists. split; [reflexivity|].
    simpl. split; [done|]. split; [done|].
    destruct st; [done| |]; destruct err as [e|]; try done.
    + destruct Hpoint as (Hres & Hfail). split; [|split; [done|by exists e]].
      intros Hh. by destruct (Hhealthy Hh).
Qed.

Lemma sched_upload_alone l path content m F (healthy : Prop) w :
  upload_alone l path content m F healthy w →
  upload_alone l path content m F healthy (asyncsftp.sched w).
Proof.
  intros (o & Ho & Hp & Hother & Hplain & Hpool).
  destruct (asyncsftp.goroutines w) as [|g [|g2 gs]] eqn:Eg; [| |done].
  { destruct (sched_idle w Eg) as (Hr & Hh & Hg).
    exists o. by rewrite Hh, Hg, Hr. }
  destruct Hpool as (Hown & Hst & He & Hpoint & Hhealthy).
  destruct (sched_single w g Eg) as (w0 & Hr & Hh & ->).
  rewrite <- Hh in Ho. rewrite <- Hr in Hother, Hpoint, Hhealthy.
  destruct (exec_upload_point g w0 l o path content m F healthy
              Ho Hp Hown Hst He Hother Hplain Hpoint Hhealthy)
    as (o' & Ho' & Hp' & Hother' & Hnext).
  exists o'. unfold upload_alone. simpl.
  split; [done|]. split; [done|]. split; [done|]. split; [done|].
  by destruct (asyncsftp.exec g w0).1.
Qed.

Lemma run_upload_alone k l path content m F (healthy : Prop) w :
  upload_alone l path content m F healthy w →
  upload_alone l path content m F healthy (run k w).
Proof.
  revert w. induction k as [|k IH]; intros w Hw; [done|].
  rewrite run_S. by apply IH, sched_upload_alone.
Qed.

(** An upload started where no goroutine runs, after seven steps or more:
    no goroutine is left and the invariant holds of the record of the
    job. *)
Lemma upload_job_alone path content m c w k (healthy : Prop) :
  asyncsftp.goroutines w = [] →
  (healthy →
   serves 5 (faults (asyncsftp.remote w)) = true
   ∧ ∀ f, files (asyncsftp.remote w) !! path = Some f → is_dir f = false) →
  7 ≤ k →
  let up := asyncsftp.StartUpload path content m c w in
  asyncsftp.goroutines (run k up.2) = []
  ∧ ∃ o, asyncsftp.GetStatus up.1.1 up.1.2 (run k up.2) = inr o
         ∧ upload_alone (length (asyncsftp.heap w)) path content m
             (files (asyncsftp.remote w)) healthy (run k up.2)
         ∧ asyncsftp.heap (run k up.2) !! length (asyncsftp.heap w) = Some o.
Proof.
  intros Hq Hh Hk up. subst up. unfold asyncsftp.StartUpload. simpl.
  set (l := length (asyncsftp.heap w)).
  match goal with
  | |- context [run k ?w] => set (w1 := w)
  end.
  assert (upload_alone l path content m (files (asyncsftp.remote w)) healthy w1)
    as H1.
  { eexists. split; [by apply list_lookup_middle|].
    split; [done|]. split; [done|]. split; [by intros H; apply Hh|].
    subst w1. simpl. rewrite Hq. simpl. do 4 (split; [done|]).
    intros H. by destruct (Hh H). }
  assert (asyncsftp.goroutines (run k w1) = []) as Hout.
  { apply run_out. subst w1. unfold work. simpl. rewrite Hq. simpl. lia. }
  split; [done|].
  pose proof (run_upload_alone k _ _ _ _ _ _ _ H1) as H2.
  pose proof H2 as (o & Ho & _).
  exists o. split; [|done]. unfold asyncsftp.GetStatus. simpl.
  by rewrite lookup_insert_eq, Ho, Copy_id.
Qed.

(** X12.  An upload job started where no other goroutine runs, after seven
    steps or more, whatever the server answers: files at other paths are
    untouched, and the record is either Completed, with no error message,
    the server holding the content with the mode, and the result giving
    path, content, the four octal digits of the permission bits, the size
    and the modification time of the file; or Failed, with no result and
    the message of the call that failed, and then nothing is rolled back:
    after "create failed" the files are as before, after "write failed"
    the file is there, empty or with the new content, after "chmod failed"
    it holds the new content, after "stat failed" it holds the content
    with the mode.  On a server that held at the path a plain file or
    nothing and serves the five calls, the record is Completed. *)
Theorem upload_alone_outcome (path content : string) (m : FileMode)
    (c : asyncsftp.Client) (w : asyncsftp.World) (k : nat) :
  asyncsftp.goroutines w = [] →
  7 ≤ k →
  let up := asyncsftp.StartUpload path content m c w in
  let r := asyncsftp.remote (run k up.2) in
  ∃ o,
    asyncsftp.GetStatus up.1.1 up.1.2 (run k up.2) = inr o
    ∧ (∀ p, p ≠ path → files r !! p = files (asyncsftp.remote w) !! p)
    ∧ ((asyncsftp.State o = asyncsftp.StateCompleted
        ∧ asyncsftp.op_Error o = EmptyString
        ∧ upload_result path content m r (asyncsftp.Result o))
       ∨ (asyncsftp.State o = asyncsftp.StateFailure
          ∧ asyncsftp.Result o = None
          ∧ ∃ err, asyncsftp.op_Error o = Error err
                   ∧ upload_failed path content m
                       (files (asyncsftp.remote w)) r err))
    ∧ (serves 5 (faults (asyncsftp.remote w)) = true →
       (∀ f, files (asyncsftp.remote w) !! path = Some f → is_dir f = false) →
       asyncsftp.State o = asyncsftp.StateCompleted).
Proof.
  intros Hq Hk up r.
  set (healthy :=
         serves 5 (faults (asyncsftp.remote w)) = true
         ∧ ∀ f, files (asyncsftp.remote w) !! path = Some f → is_dir f = false).
  destruct (upload_job_alone path content m c w k healthy Hq) as (Hout & o & Hget & Hinv & Ho);
    [done|done|].
  fold up in Hout, Hget, Hinv, Ho.
  destruct Hinv as (o' & Ho' & _ & Hother & _ & Hpool).
  rewrite Ho in Ho'. injection Ho' as <-. rewrite Hout in Hpool.
  exists o. split; [done|]. split; [done|].
  destruct (asyncsftp.State o); [done| |].
  - split; [by left|done].
  - destruct Hpool as (Hnot & Hrest). split; [by right|].
    intros Hs Hplain. by destruct Hnot.
Qed.

Lemma upload_alone_outcome_witness :
  ∃ o, asyncsftp.GetStatus "op-0"
         {| asyncsftp.operations := <["op-0" := 0]> ∅ |}
         (run 7 (asyncsftp.StartUpload "/upload/a.txt" "new" 384%N
                   sample.fresh_client scenario.flaky_world).2) = inr o
       ∧ asyncsftp.State o = asyncsftp.StateFailure
       ∧ asyncsftp.op_Error o = "chmod failed: failure"
       ∧ holds "/upload/a.txt" "new"
           (asyncsftp.remote
              (run 7 (asyncsftp.StartUpload "/upload/a.txt" "new" 384%N
                        sample.fresh_client scenario.flaky_world).2)).
Proof.
  destruct (upload_alone_outcome "/upload/a.txt" "new" 384%N
              sample.fresh_client scenario.flaky_world 7)
    as (o & Hget & _ & Hcases & _).
  - reflexivity.
  - lia.
  - exists o. split; [exact Hget|].
    assert (asyncsftp.State o = asyncsftp.StateFailure
            ∧ asyncsftp.op_Error o = "chmod failed: failure") as (Hst & Herr)
      by (revert Hget; vm_compute; by intros [= <-]).
    split; [exact Hst|]. split; [exact Herr|].
    destruct Hcases as [(Hdone & _)|(_ & _ & err & Herr' & Hfailed)];
      [congruence|].
    rewrite Herr in Herr'.
    destruct Hfailed as [(e & -> & _)|[(e & -> & _)|[(e & _ & Hh)|(e & -> & _)]]];
      [discriminate Herr'|discriminate Herr'|exact Hh|discriminate Herr'].
Defined.

(** With no goroutine left the scheduler changes neither server nor
    records. *)
Lemma run_idle k w :
  asyncsftp.goroutines w = [] →
  asyncsftp.remote (run k w) = asyncsftp.remote w
  ∧ asyncsftp.heap (run k w) = asyncsftp.heap w
  ∧ asyncsftp.goroutines (run k w) = [].
Proof.
  revert w. induction k as [|k IH]; intros w Hq; [done|]. rewrite run_S.
  destruct (sched_idle w Hq) as (Hr & Hh & Hg).
  destruct (IH _ Hg) as (-> & -> & ->). by rewrite Hr, Hh.
Qed.

Lemma sftp_Remove_result path r :
  match (sftp_Remove path r).1 with
  | inl e => files (sftp_Remove path r).2 = files r
  | inr _ => files (sftp_Remove path r).2 = delete path (files r)
  end.
Proof.
  unfold sftp_Remove, call, next_fault.
  destruct r as [fs [|[e|] flt] rc cm]; simpl; try done;
    destruct (fs !! path) as [n|]; simpl; try done;
    by destruct (is_dir n && negb (bool_decide (entries path fs = []))).
Qed.

(** X13.  A delete job started where no other goroutine runs, after two
    steps or more: the record is a Delete record for the path with no
    result, files at other paths are untouched, and by the answer of the
    server to the one [Remove] call: when it succeeds, the record is
    Completed with no error message and the path is gone; when it fails
    with an error of which [os.IsNotExist] holds, the record is Completed
    all the same and the files are as before; when it fails otherwise, the
    record is Failed with "remove failed: " and the message of the error,
    and the files are as before. *)
Theorem delete_alone_outcome (path : string) (c : asyncsftp.Client)
    (w : asyncsftp.World) (k : nat) :
  asyncsftp.goroutines w = [] →
  2 ≤ k →
  let del := asyncsftp.StartDelete path c w in
  let removed := (sftp_Remove path (asyncsftp.remote w)).1 in
  let r := asyncsftp.remote (run k del.2) in
  ∃ o,
    asyncsftp.GetStatus del.1.1 del.1.2 (run k del.2) = inr o
    ∧ asyncsftp.op_Type o = asyncsftp.OperationTypeDelete
    ∧ asyncsftp.op_Path o = path
    ∧ asyncsftp.Result o = None
    ∧ (∀ p, p ≠ path → files r !! p = files (asyncsftp.remote w) !! p)
    ∧ match removed with
      | inr _ =>
          asyncsftp.State o = asyncsftp.StateCompleted
          ∧ asyncsftp.op_Error o = EmptyString
          ∧ files r = delete path (files (asyncsftp.remote w))
      | inl e =>
          files r = files (asyncsftp.remote w)
          ∧ if os_IsNotExist e
            then asyncsftp.State o = asyncsftp.StateCompleted
                 ∧ asyncsftp.op_Error o = EmptyString
            else asyncsftp.State o = asyncsftp.StateFailure
                 ∧ asyncsftp.op_Error o = "remove failed: " +:+ lib_message e
      end.
Proof.
  intros Hq Hk del removed r. subst del r removed.
  unfold asyncsftp.StartDelete. simpl.
  set (l := length (asyncsftp.heap w)).
  set (id := asyncsftp.uuid_String (asyncsftp.uuid_next w)).
  match goal with
  | |- context [run k ?w] => set (w1 := w)
  end.
  destruct k as [|[|k]]; [lia|lia|]. rewrite !run_S.
  set (o0 := {| asyncsftp.ID := id;
                asyncsftp.op_Type := asyncsftp.OperationTypeDelete;
                asyncsftp.op_Path := path;
                asyncsftp.State := asyncsftp.StateInProgress;
                asyncsftp.op_Error := EmptyString; asyncsftp.Result := None;
                asyncsftp.StartedAt := asyncsftp.clock w;
                asyncsftp.CompletedAt := 0%Z |}) in *.
  assert (asyncsftp.heap w1 !! l = Some o0) as Ho0
    by (by apply list_lookup_middle).
  (* the call of Remove *)
  destruct (sched_single w1 (asyncsftp.doDelete l)) as (w0 & Hr0 & Hh0 & ->);
    [by subst w1; simpl; rewrite Hq|].
  rewrite <- Hh0 in Ho0.
  pose proof (path_of_lookup _ _ _ Ho0) as Hpath. simpl in Hpath.
  simpl. rewrite on_remote_eq, Hpath, Hr0. simpl.
  pose proof (sftp_Remove_result path (asyncsftp.remote w)) as Hres.
  pose proof (λ p H, sftp_Remove_other path p (asyncsftp.remote w) H) as Hother.
  destruct (sftp_Remove path (asyncsftp.remote w)) as [res r1]. simpl in *.
  set (g1 := match res with
             | inl err =>
                 if os_IsNotExist err
                 then asyncsftp.completeOperation_call l
                        asyncsftp.StateCompleted None
                 else asyncsftp.completeOperation_call l
                        asyncsftp.StateFailure
                        (Some (Errorf_w "remove failed: " (FromLib err)))
             | inr _ =>
                 asyncsftp.completeOperation_call l asyncsftp.StateCompleted None
             end).
  match goal with
  | |- context [run k (asyncsftp.sched ?w)] => set (w2 := w)
  end.
  assert (asyncsftp.goroutines w2 = [g1] ∧ asyncsftp.remote w2 = r1
          ∧ asyncsftp.heap w2 = asyncsftp.heap w0) as (Hg2 & Hr2 & Hh2).
  { subst w2 g1. destruct res as [e|u]; [destruct (os_IsNotExist e)|]; done. }
  clearbody w2.
  (* the call of completeOperation *)
  destruct (sched_single w2 g1 Hg2) as (w3 & Hr3 & Hh3 & ->).
  rewrite <- Hh2, <- Hh3 in Ho0.
  assert (∃ st err, g1 = asyncsftp.completeOperation_call l st err
                    ∧ match res with
                      | inl e =>
                          if os_IsNotExist e
                          then st = asyncsftp.StateCompleted ∧ err = None
                          else st = asyncsftp.StateFailure
                               ∧ err = Some (Errorf_w "remove failed: "
                                               (FromLib e))
                      | inr _ => st = asyncsftp.StateCompleted ∧ err = None
                      end) as (st & err & -> & Hst).
  { subst g1. destruct res as [e|u]; [destruct (os_IsNotExist e)|];
      by eexists _, _. }
  simpl.
  match goal with
  | |- context [run k ?w] => set (w4 := w)
  end.
  destruct (run_idle k w4) as (Hrk & Hhk & _); [done|].
  rewrite Hrk. unfold asyncsftp.GetStatus. simpl.
  rewrite lookup_insert_eq, Hhk. subst w4. simpl.
  rewrite Hr3, Hr2, list_lookup_alter_eq, Ho0. simpl.
  eexists. split; [reflexivity|]. simpl.
  do 3 (split; [done|]). split; [by intros p Hne; apply Hother|].
  destruct res as [e|u]; [|by destruct Hst as (-> & ->)].
  split; [done|]. destruct (os_IsNotExist e); by destruct Hst as (-> & ->).
Qed.

Lemma delete_alone_outcome_witness :
  ∃ o, asyncsftp.GetStatus "op-0"
         {| asyncsftp.operations := <["op-0" := 0]> ∅ |}
         (run 2 (asyncsftp.StartDelete "/upload/a.txt" sample.fresh_client
                   sample.world_with_file).2) = inr o
       ∧ asyncsftp.State o = asyncsftp.StateCompleted.
Proof.
  destruct (delete_alone_outcome "/upload/a.txt" sample.fresh_client
              sample.world_with_file 2) as (o & Hget & _ & _ & _ & _ & Hst & _).
  - reflexivity.
  - lia.
  - exists o. split; [exact Hget|exact Hst].
Defined.

(** X14.  [Create], then [Status].  With properties that are read and a
    client at hand, where no other goroutine runs, on a server that holds
    at the path a plain file or nothing and serves the five calls of the
    upload: [Create] returns InProgress with the path as native id, and
    after seven steps or more [Status] of the request id it returned gives
    Success with the properties of the uploaded file: path, content, the
    four octal digits of the permission bits of the mode scanned from the
    permission text, the length of the content, and the formatted
    modification time; and a read of the path that the server answers
    returns the same file information. *)
Theorem Create_alone_then_Status (env : Env) (req : CreateRequest)
    (p p' : Plugin) (c : asyncsftp.Client) (w : asyncsftp.World)
    (props : FileProperties) (k : nat) :
  parseFileProperties (create_Properties req) = inr props →
  getClient env (create_TargetConfig req) p = (inr c, p') →
  asyncsftp.goroutines w = [] →
  serves 5 (faults (asyncsftp.remote w)) = true →
  (∀ f, files (asyncsftp.remote w) !! Path props = Some f → is_dir f = false) →
  7 ≤ k →
  let created := Create env req p w in
  let wk := run k created.2 in
  let m := Sscanf_o (Permissions props) 420%N in
  OperationStatus created.1.1.1 = resource.OperationStatusInProgress
  ∧ NativeID created.1.1.1 = Path props
  ∧ ∃ t,
      let fileInfo :=
        {| asyncsftp.Path := Path props; asyncsftp.Content := Content props;
           asyncsftp.Permissions := Sprintf_04o (Perm m);
           asyncsftp.Size := Z.of_nat (String.length (Content props));
           asyncsftp.ModifiedAt := t |} in
      Status env {| status_RequestID := RequestID created.1.1.1 |}
        created.1.2 wk
      = ({| Operation := resource.OperationCheckStatus;
            OperationStatus := resource.OperationStatusSuccess;
            RequestID := RequestID created.1.1.1; NativeID := Path props;
            ResourceProperties := Some (props_of env fileInfo);
            ErrorCode := None; StatusMessage := EmptyString |}, None)
      ∧ (serves 3 (faults (asyncsftp.remote wk)) = true →
         (asyncsftp.ReadFile (Path props) wk).1 = inr fileInfo).
Proof.
  intros Hprops Hc Hq Hs Hplain Hk created wk m.
  subst wk created. unfold Create. rewrite Hprops, Hc.
  rewrite bool_decide_eq_true_2
    by (by destruct (parseFileProperties_inr _ _ Hprops) as (_ & ? & _)).
  fold m.
  destruct (upload_job_alone (Path props) (Content props) m c w k True Hq)
    as (Hout & o & Hget & Hinv & Ho); [done|done|].
  destruct (asyncsftp.StartUpload (Path props) (Content props) m c w)
    as [[id c1] w1] eqn:Eup. simpl in *.
  split; [done|]. split; [done|].
  destruct Hinv as (o' & Ho' & Hpath & _ & _ & Hpool).
  rewrite Ho in Ho'. injection Ho' as <-. rewrite Hout in Hpool.
  unfold Status. simpl. rewrite Hget.
  destruct (asyncsftp.State o); [done| |by destruct Hpool as (Hnot & _)].
  destruct Hpool as (Herr & n & Hn & Hd & Hdata & Hmode & ->).
  exists (mtime n). simpl. rewrite Hpath, Herr. split; [done|].
  intros Hs3. rewrite (ReadFile_present _ _ n Hn Hd Hs3). by rewrite Hdata, Hmode.
Qed.

Lemma Create_alone_then_Status_witness :
  Status sample.env {| status_RequestID := "op-0" |}
    {| client := Some {| asyncsftp.operations := <["op-0" := 0]> ∅ |} |}
    (run 7 (Create sample.env
              {| create_Properties := Encodes sample.props;
                 create_TargetConfig := sample.target |}
              sample.no_plugin_client sample.world).2)
  = ({| Operation := resource.OperationCheckStatus;
        OperationStatus := resource.OperationStatusSuccess;
        RequestID := "op-0"; NativeID := "/upload/a.txt";
        ResourceProperties :=
          Some {| Path := "/upload/a.txt"; Content := "hi";
                  Permissions := "0644"; Size := 2;
                  ModifiedAt := "2025-01-01T00:00:00Z" |};
        ErrorCode := None; StatusMessage := EmptyString |}, None).
Proof.
  destruct (Create_alone_then_Status sample.env
              {| create_Properties := Encodes sample.props;
                 create_TargetConfig := sample.target |}
              sample.no_plugin_client sample.connected sample.fresh_client
              sample.world sample.props 7)
    as (_ & _ & t & H & _).
  - reflexivity.
  - reflexivity.
  - reflexivity.
  - reflexivity.
  - intros f. vm_compute. discriminate.
  - lia.
  - exact H.
Defined.

Lemma serves_tail n fs : serves (S n) fs = true → serves n (tail fs) = true.
Proof. destruct fs as [|[e|] fs]; simpl; try done. by destruct n. Qed.

Lemma serves_drop n k fs : serves (n + k) fs = true → serves k (drop n fs) = true.
Proof.
  revert fs. induction n as [|n IH]; intros fs Hs; [done|].
  destruct fs as [|f fs]; [by destruct k|]. simpl.
  apply IH. by apply (serves_tail (n + k) (f :: fs)).
Qed.

(** A call that reads uses up one outcome of the server. *)
Lemma call_faults {A} (serve : Remote → (LibError + A) * Remote) r :
  (∀ r0, faults (serve r0).2 = faults r0) →
  faults (call serve r).2 = tail (faults r).
Proof.
  intros Hserve. unfold call, next_fault.
  destruct r as [fs [|[e|] flt] rc cm]; simpl; try done;
    by rewrite Hserve.
Qed.

(** A read that succeeds has made four calls. *)
Lemma ReadFile_inr_faults path w fi :
  (asyncsftp.ReadFile path w).1 = inr fi →
  faults (asyncsftp.remote (asyncsftp.ReadFile path w).2)
  = drop 4 (faults (asyncsftp.remote w)).
Proof.
  unfold asyncsftp.ReadFile. rewrite on_remote_eq. simpl.
  assert (∀ r, faults (sftp_Stat path r).2 = tail (faults r)) as H1.
  { intros r. unfold sftp_Stat. apply call_faults. intros r0.
    by destruct (files r0 !! path). }
  assert (∀ r, faults (sftp_Open path r).2 = tail (faults r)) as H2.
  { intros r. unfold sftp_Open. apply call_faults. intros r0.
    by destruct (files r0 !! path). }
  assert (∀ f r, faults (sftp_ReadAll f r).2 = tail (faults r)) as H3.
  { intros f r. unfold sftp_ReadAll. apply call_faults. intros r0.
    destruct (files r0 !! f) as [n|]; [by destruct (is_dir n)|done]. }
  assert (∀ f r, faults (sftp_Close f r).2 = tail (faults r)) as H4.
  { intros f r. unfold sftp_Close. by apply call_faults. }
  specialize (H1 (asyncsftp.remote w)).
  destruct (sftp_Stat path (asyncsftp.remote w)) as [[e|st] r1]; simpl in *;
    [by destruct (os_IsNotExist e)|].
  rewrite on_remote_eq. simpl. specialize (H2 r1).
  destruct (sftp_Open path r1) as [[e|f] r2]; simpl in *; [done|].
  rewrite on_remote_eq. simpl. specialize (H3 f r2).
  destruct (sftp_ReadAll f r2) as [[e|content] r3]; simpl in *;
    rewrite on_remote_eq; simpl; [done|].
  intros _. rewrite H4, H3, H2, H1.
  by destruct (faults (asyncsftp.remote w)) as [|? [|? [|? [|? ?]]]].
Qed.

(** X15.  [Delete], then [Delete] or [Read].  With a client at hand, where
    no goroutine runs, on a server that holds a plain file at the native
    id and serves six calls, given fuel beyond the choices of the
    scheduler: [Delete] returns Success, the path is gone from the server
    and no goroutine is left; a second [Delete] of the same native id then
    returns Failure with NotFound and changes no file, and a [Read] of it
    returns the error code NotFound. *)
Theorem Delete_then_gone (env : Env) (fuel : nat) (req : DeleteRequest)
    (p p' : Plugin) (c : asyncsftp.Client) (w : asyncsftp.World)
    (n : RemoteFile) :
  getClient env (delete_TargetConfig req) p = (inr c, p') →
  asyncsftp.goroutines w = [] →
  files (asyncsftp.remote w) !! delete_NativeID req = Some n →
  is_dir n = false →
  serves 6 (faults (asyncsftp.remote w)) = true →
  length (asyncsftp.schedule w) + 2 < fuel →
  let nid := delete_NativeID req in
  ∃ p1 w1,
    Delete env fuel req p w
    = Some (({| Operation := resource.OperationDelete;
                OperationStatus := resource.OperationStatusSuccess;
                RequestID := EmptyString; NativeID := nid;
                ResourceProperties := None; ErrorCode := None;
                StatusMessage := EmptyString |}, None), p1, w1)
    ∧ files (asyncsftp.remote w1) = delete nid (files (asyncsftp.remote w))
    ∧ asyncsftp.goroutines w1 = []
    ∧ (∀ env' fuel' tc,
         ∃ w2,
           Delete env' fuel'
             {| delete_NativeID := nid; delete_TargetConfig := tc |} p1 w1
           = Some (({| Operation := resource.OperationDelete;
                       OperationStatus := resource.OperationStatusFailure;
                       RequestID := EmptyString; NativeID := nid;
                       ResourceProperties := None;
                       ErrorCode := Some resource.OperationErrorCodeNotFound;
                       StatusMessage := EmptyString |}, None), p1, w2)
           ∧ files (asyncsftp.remote w2) = files (asyncsftp.remote w1))
    ∧ (∀ env' ty tc,
         ∃ w2,
           Read env'
             {| read_NativeID := nid; req_ResourceType := ty;
                read_TargetConfig := tc |} p1 w1
           = (({| read_ResourceType := ty; read_Properties := None;
                  read_ErrorCode :=
                    Some resource.OperationErrorCodeNotFound |}, None),
              p1, w2)).
Proof.
  intros Hc Hq Hn Hd Hs Hfuel nid. unfold Delete. rewrite Hc. fold nid.
  assert (serves 3 (faults (asyncsftp.remote w)) = true) as Hs3.
  { destruct (faults (asyncsftp.remote w)) as [|[|] [|[|] [|[|] ?]]]; done. }
  pose proof (ReadFile_present nid w n Hn Hd Hs3) as Hprobe.
  pose proof (ReadFile_inr_faults nid w _ Hprobe) as Hfaults.
  destruct (ReadFile_undisturbed nid w) as (Hf & _ & _ & Hh & Hg & Hsch & _ & Hu).
  destruct (asyncsftp.ReadFile nid w) as [res wr].
  simpl in Hprobe, Hfaults, Hf, Hh, Hg, Hsch, Hu |- *. subst res.
  assert (serves 2 (faults (asyncsftp.remote wr)) = true) as Hs2.
  { rewrite Hfaults. by apply (serves_drop 4 2). }
  unfold asyncsftp.StartDelete. simpl.
  set (id := asyncsftp.uuid_String (asyncsftp.uuid_next wr)).
  set (l := length (asyncsftp.heap wr)).
  match goal with
  | |- context [Delete_wait fuel id nid ?c ?w] => set (c1 := c); set (w1 := w)
  end.
  assert (delete_alone l nid (files (asyncsftp.remote w)) 1 w1) as H1.
  { eexists. split; [by apply list_lookup_middle|].
    subst w1. simpl. rewrite Hg, Hq. simpl. by repeat split. }
  assert (live l w1) as Hlive.
  { eexists. split; [by apply list_lookup_middle|]. intros _.
    exists (asyncsftp.doDelete l). split; [|done]. subst w1. simpl. set_solver. }
  assert (load w1 < fuel) as Hload.
  { subst w1. unfold load. simpl. rewrite Hsch, Hg, Hq. simpl. lia. }
  destruct (Delete_wait_ends fuel id nid c1 w1 l)
    as (k & r & o & Hw & Ho & _ & Hr);
    [by simpl; rewrite lookup_insert_eq|done|done|].
  rewrite Hw.
  destruct (run_delete_alone k l nid (files (asyncsftp.remote w)) 1 w1) as (o' & Ho' & _ & _ & _ & Hpool);
    [intros f Hf'; subst nid; congruence|done|].
  rewrite Ho in Ho'. injection Ho' as <-.
  assert (asyncsftp.goroutines (run k w1) = []
          ∧ asyncsftp.State o = asyncsftp.StateCompleted
          ∧ files (asyncsftp.remote (run k w1))
            = delete nid (files (asyncsftp.remote w))
          ∧ serves 1 (faults (asyncsftp.remote (run k w1))) = true)
    as (Hout & Hdone & Hfiles & Hs1).
  { destruct (asyncsftp.goroutines (run k w1)) as [|g [|g2 gs]];
      [by destruct Hpool as (? & ? & ?)| |by destruct g].
    destruct g as [| | | | | |op|op st err]; try done.
    - destruct Hpool as (_ & Hst & _). destruct Hr as [(? & _)|(? & _)]; congruence.
    - destruct Hpool as (_ & _ & _ & Hst & _).
      destruct Hr as [(? & _)|(? & _)]; congruence. }
  destruct Hr as [(_ & ->)|(Hfail & _)]; [|congruence].
  exists {| client := Some c1 |}, (run k w1).
  split; [done|]. split; [done|]. split; [done|].
  assert (files (asyncsftp.remote (run k w1)) !! nid = None) as Habs
    by (by rewrite Hfiles, lookup_delete_eq).
  pose proof (ReadFile_absent nid (run k w1) Habs Hs1) as Hgone.
  destruct (ReadFile_undisturbed nid (run k w1)) as (Hf2 & _).
  split.
  - intros env' fuel' tc. unfold Delete, getClient. simpl.
    destruct (asyncsftp.ReadFile nid (run k w1)) as [res w2]. simpl in *.
    subst res. simpl. by exists w2.
  - intros env' ty tc. unfold Read, getClient. simpl.
    destruct (asyncsftp.ReadFile nid (run k w1)) as [res w2]. simpl in *.
    subst res. simpl. by exists w2.
Qed.

Lemma Delete_then_gone_witness :
  ∃ p1 w1,
    Delete sample.env 3
      {| delete_NativeID := "/upload/a.txt";
         delete_TargetConfig := sample.target |}
      sample.connected sample.world_with_file
    = Some (({| Operation := resource.OperationDelete;
                OperationStatus := resource.OperationStatusSuccess;
                RequestID := EmptyString; NativeID := "/upload/a.txt";
                ResourceProperties := None; ErrorCode := None;
                StatusMessage := EmptyString |}, None), p1, w1)
    ∧ files (asyncsftp.remote w1) = ∅.
Proof.
  destruct (Delete_then_gone sample.env 3
              {| delete_NativeID := "/upload/a.txt";
                 delete_TargetConfig := sample.target |}
              sample.connected sample.connected sample.fresh_client
              sample.world_with_file
              {| is_dir := false; data := "hi"; mode := 420%N; mtime := 99%Z |})
    as (p1 & w1 & Heq & Hfiles & _).
  - reflexivity.
  - reflexivity.
  - reflexivity.
  - reflexivity.
  - reflexivity.
  - vm_compute. lia.
  - exists p1, w1. split; [exact Heq|]. rewrite Hfiles. by vm_compute.
Defined.

(** ** Jobs among others on a server that serves every call *)

(** A server with no fault in store serves the call. *)
Lemma call_no_fault {A} (serve : Remote → (LibError + A) * Remote) r :
  faults r = [] → call serve r = serve r.
Proof.
  unfold call, next_fault. destruct r as [fs flt rc cm]. simpl.
  by intros ->.
Qed.

(** A step of a goroutine leaves no fault in store where there was none. *)
Lemma exec_no_fault g w :
  faults (asyncsftp.remote w) = [] →
  faults (asyncsftp.remote (asyncsftp.exec g w).2) = [].
Proof.
  intros Hf.
  destruct g; simpl; rewrite ?on_remote_eq; simpl;
    unfold sftp_Create, sftp_Write, sftp_Close, sftp_Chmod, sftp_Stat,
      sftp_Remove;
    rewrite ?call_no_fault by done;
    repeat match goal with
           | |- context [match ?m !! ?k with _ => _ end] =>
               destruct (m !! k); simpl
           | |- context [if ?b then _ else _] => destruct b; simpl
           end; done.
Qed.

(** The invariant is kept by the scheduler, for any job of which a step
    on a server with no fault in store keeps it. *)
Section among.

Variables (l : asyncsftp.loc) (path : string).
Variable going : asyncsftp.Operation → Remote → asyncsftp.goroutine → Prop.
Variable ended : asyncsftp.Operation → Remote → Prop.

Hypothesis going_files : ∀ o r r' g,
  files r' !! path = files r !! path → going o r g → going o r' g.
Hypothesis ended_files : ∀ o r r',
  files r' !! path = files r !! path → ended o r → ended o r'.
Hypothesis exec_going : ∀ g w o,
  faults (asyncsftp.remote w) = [] →
  asyncsftp.heap w !! l = Some o →
  asyncsftp.op_Path o = path →
  owner g = l →
  asyncsftp.State o = asyncsftp.StateInProgress →
  going o (asyncsftp.remote w) g →
  ∃ o', asyncsftp.heap (asyncsftp.exec g w).2 !! l = Some o'
        ∧ asyncsftp.op_Path o' = path
        ∧ match (asyncsftp.exec g w).1 with
          | Some g' =>
              owner g' = l
              ∧ asyncsftp.State o' = asyncsftp.StateInProgress
              ∧ going o' (asyncsftp.remote (asyncsftp.exec g w).2) g'
          | None => ended o' (asyncsftp.remote (asyncsftp.exec g w).2)
          end.

Lemma run_goroutine_among_served i w :
  among_served l path going ended w →
  among_served l path going ended (asyncsftp.run_goroutine i w).
Proof using going_files ended_files exec_going.
  intros (Hflt & o & Ho & Hp & Hcases).
  destruct (asyncsftp.goroutines w !! i) as [gi|] eqn:Egi;
    [|rewrite run_goroutine_None by done; split; [done|]; by exists o].
  rewrite (run_goroutine_Some _ _ _ Egi). unfold among_served. simpl.
  split; [by apply exec_no_fault|].
  destruct Hcases as [(pre & g & post & Hpool & Hall & Hown & Hst & Hpoint)
                     |(Hall & Hended)].
  - apply Forall_app in Hall as (Hpre & Hpost). rewrite Hpool in Egi |- *.
    destruct (decide (i < length pre)) as [Hlt|Hge].
    + rewrite lookup_app_l in Egi by done.
      pose proof (Forall_lookup_1 _ _ _ _ Hpre Egi) as Hgi.
      apply (upload_among_elsewhere_step l path w i gi o Ho);
        [by rewrite Hpool, lookup_app_l|done|].
      intros Hh Hf Hkeep Hsucc. exists o. do 2 (split; [done|]). left.
      destruct (asyncsftp.exec gi w).1 as [g'|].
      * exists (<[i:=g']> pre), g, post. rewrite insert_app_l by done.
        split; [done|]. split; [|split; [done|split; [done|]]].
        -- apply Forall_app. split; [|by apply Hkeep].
           apply Forall_insert; [by apply Hkeep|by apply Hsucc].
        -- by eapply going_files.
      * exists (delete i pre), g, post. rewrite delete_app_l by done.
        split; [done|]. split; [|split; [done|split; [done|]]].
        -- apply Forall_app. split; [|by apply Hkeep].
           by apply Forall_delete, Hkeep.
        -- by eapply going_files.
    + destruct (decide (i = length pre)) as [->|Hne].
      * rewrite list_lookup_middle in Egi by done. injection Egi as <-.
        destruct (exec_going g w o Hflt Ho Hp Hown Hst Hpoint)
          as (o' & Ho' & Hp' & Hnext).
        exists o'. do 2 (split; [done|]).
        assert (∀ gs, Forall (elsewhere l path w) gs →
                      Forall (elsewhere l path (asyncsftp.exec g w).2) gs)
          as Hkeep.
        { intros gs Hgs. eapply Forall_impl; [done|].
          intros g2. apply elsewhere_exec. }
        destruct (asyncsftp.exec g w).1 as [g'|].
        -- left. exists pre, g', post.
           rewrite insert_app_r_alt by done. rewrite Nat.sub_diag. simpl.
           split; [done|]. split; [|done].
           apply Forall_app. split; by apply Hkeep.
        -- right. rewrite delete_middle. split; [|done].
           apply Forall_app. split; by apply Hkeep.
      * assert (∃ j, i = length pre + S j) as (j & ->)
          by (exists (i - length pre - 1); lia).
        rewrite lookup_app_r in Egi by lia.
        replace (length pre + S j - length pre) with (S j) in Egi by lia.
        simpl in Egi.
        pose proof (Forall_lookup_1 _ _ _ _ Hpost Egi) as Hgi.
        apply (upload_among_elsewhere_step l path w
                 (length pre + S j) gi o Ho);
          [|done|].
        { rewrite Hpool, lookup_app_r by lia.
          by replace (length pre + S j - length pre) with (S j) by lia. }
        intros Hh Hf Hkeep Hsucc. exists o. do 2 (split; [done|]). left.
        destruct (asyncsftp.exec gi w).1 as [g'|].
        -- exists pre, g, (<[j:=g']> post). rewrite insert_app_r. simpl.
           split; [done|]. split; [|split; [done|split; [done|]]].
           ++ apply Forall_app. split; [by apply Hkeep|].
              apply Forall_insert; [by apply Hkeep|by apply Hsucc].
           ++ by eapply going_files.
        -- exists pre, g, (delete j post). rewrite delete_app_r. simpl.
           split; [done|]. split; [|split; [done|split; [done|]]].
           ++ apply Forall_app. split; [by apply Hkeep|].
              by apply Forall_delete, Hkeep.
           ++ by eapply going_files.
  - pose proof (Forall_lookup_1 _ _ _ _ Hall Egi) as Hgi.
    apply (upload_among_elsewhere_step l path w i gi o Ho Egi Hgi).
    intros Hh Hf Hkeep Hsucc. exists o. do 2 (split; [done|]). right.
    split; [|by eapply ended_files].
    destruct (asyncsftp.exec gi w).1 as [g'|].
    + apply Forall_insert; [by apply Hkeep|by apply Hsucc].
    + by apply Forall_delete, Hkeep.
Qed.

Lemma sched_among_served w :
  among_served l path going ended w →
  among_served l path going ended (asyncsftp.sched w).
Proof using going_files ended_files exec_going.
  intros Hw. destruct (sched_pick w) as (i & w0 & -> & Hr & Hh & Hg & _).
  apply run_goroutine_among_served.
  revert Hw. unfold among_served, elsewhere, away, asyncsftp.path_of.
  by rewrite Hr, Hh, Hg.
Qed.

Lemma run_among_served k w :
  among_served l path going ended w →
  among_served l path going ended (run k w).
Proof using going_files ended_files exec_going.
  revert w. induction k as [|k IH]; intros w Hw; [done|].
  rewrite run_S. by apply IH, sched_among_served.
Qed.

(** Once no goroutine is left, the job has ended. *)
Lemma among_served_out w :
  among_served l path going ended w →
  asyncsftp.goroutines w = [] →
  ∃ o, asyncsftp.heap w !! l = Some o
       ∧ ended o (asyncsftp.remote w)
       ∧ faults (asyncsftp.remote w) = [].
Proof using Type.
  intros (Hflt & o & Ho & _ & Hcases) Hout. exists o. split; [done|].
  destruct Hcases as [(pre & g & post & Hpool & _)|(_ & Hended)]; [|done].
  rewrite Hout in Hpool. by destruct pre.
Qed.

(** While the record is not in progress, the job has ended. *)
Lemma among_served_terminal w o :
  among_served l path going ended w →
  asyncsftp.heap w !! l = Some o →
  asyncsftp.State o ≠ asyncsftp.StateInProgress →
  ended o (asyncsftp.remote w) ∧ faults (asyncsftp.remote w) = [].
Proof using Type.
  intros (Hflt & o' & Ho' & _ & Hcases) Ho Hterm.
  rewrite Ho in Ho'. injection Ho' as <-.
  by destruct Hcases as [(pre & g & post & _ & _ & _ & Hst & _)|(_ & Hended)].
Qed.

End among.

Lemma upload_going_files path content m o r r' g :
  files r' !! path = files r !! path →
  upload_going path content m o r g → upload_going path content m o r' g.
Proof.
  intros Hf. unfold upload_going, upload_result, holds, uploaded.
  destruct g; by rewrite ?Hf.
Qed.

Lemma upload_ended_files path content m o r r' :
  files r' !! path = files r !! path →
  upload_ended path content m o r → upload_ended path content m o r'.
Proof. intros Hf. unfold upload_ended, upload_result. by rewrite Hf. Qed.

(** A step of the goroutine of the upload on a server with no fault in
    store. *)
Lemma exec_upload_going path content m g w o :
  faults (asyncsftp.remote w) = [] →
  asyncsftp.heap w !! owner g = Some o →
  asyncsftp.op_Path o = path →
  asyncsftp.State o = asyncsftp.StateInProgress →
  upload_going path content m o (asyncsftp.remote w) g →
  ∃ o', asyncsftp.heap (asyncsftp.exec g w).2 !! owner g = Some o'
        ∧ asyncsftp.op_Path o' = path
        ∧ match (asyncsftp.exec g w).1 with
          | Some g' =>
              owner g' = owner g
              ∧ asyncsftp.State o' = asyncsftp.StateInProgress
              ∧ upload_going path content m o'
                  (asyncsftp.remote (asyncsftp.exec g w).2) g'
          | None =>
              upload_ended path content m o'
                (asyncsftp.remote (asyncsftp.exec g w).2)
          end.
Proof.
  intros Hflt Ho Hp Hst (He & Hpoint).
  pose proof (path_of_lookup _ _ _ Ho) as Hpath. rewrite Hp in Hpath.
  set (r := asyncsftp.remote w) in *.
  assert (∀ k, serves k (faults r) = true) as Hs
    by (intros k; rewrite Hflt; by destruct k).
  unfold upload_going, upload_ended.
  destruct g as [op c p|op f c p|op f err c p|op c p|op c|op c st| |op st err];
    simpl in Ho, Hpath, Hpoint; simpl;
    rewrite ?on_remote_eq, ?Hpath; simpl; fold r.
  - destruct Hpoint as (-> & -> & Hres & Hplain).
    pose proof (sftp_Create_result path r) as Hc.
    destruct (sftp_Create_served path r 0 (Hs 1) Hplain) as ((f & Hf) & _).
    destruct (sftp_Create path r) as [res r1]. simpl in *. subst res. simpl.
    destruct Hc as (-> & n & Hn & Hd & _).
    exists o. do 5 (split; [done|]). do 4 (split; [done|]).
    exists n. by rewrite Hn, lookup_insert_eq.
  - destruct Hpoint as (-> & -> & -> & Hres & n & Hn & Hd).
    destruct (sftp_Write_result path content r) as (Hw & Hserved);
      [by exists n|].
    destruct (Hserved 0 (Hs 1)) as ((u & Hu) & _).
    destruct (sftp_Write path content r) as [res r1]. simpl in *. subst res.
    simpl. exists o. by do 5 (split; [done|]).
  - destruct Hpoint as (-> & -> & -> & Hres & Hholds).
    destruct (sftp_Close_result f r) as (Hf & Hserved).
    destruct (Hserved 0 (Hs 1)) as ((u & Hu) & _).
    destruct (sftp_Close f r) as [res r1]. simpl in *. subst res. simpl.
    exists o. do 5 (split; [done|]). do 3 (split; [done|]).
    by eapply holds_files.
  - destruct Hpoint as (-> & -> & Hres & Hholds).
    destruct (sftp_Chmod_result path m content r Hholds) as (Hc & Hserved).
    destruct (Hserved 0 (Hs 1)) as ((u & Hu) & _).
    destruct (sftp_Chmod path m r) as [res r1]. simpl in *. subst res.
    simpl. exists o. by do 5 (split; [done|]).
  - destruct Hpoint as (-> & Hres & n & Hn & Hd & Hdata & Hmode).
    destruct (sftp_Stat_result path r n Hn) as (Hf & Hstat & Hserved).
    destruct (Hserved 0 (Hs 1)) as ((st & Hst') & _).
    destruct (sftp_Stat path r) as [res r1]. simpl in *. subst res. simpl.
    exists o. do 7 (split; [done|]).
    exists n. rewrite Hf. by rewrite (Hstat st eq_refl).
  - destruct Hpoint as (-> & Hres & n & Hn & Hd & Hdata & Hmode & ->).
    unfold asyncsftp.set_Result. simpl. rewrite list_lookup_alter_eq, Ho. simpl.
    eexists. split; [reflexivity|]. simpl. do 4 (split; [done|]).
    do 2 (split; [done|]). exists n. rewrite Hdata, Hmode. by repeat split.
  - done.
  - destruct Hpoint as (-> & -> & Hresult).
    unfold asyncsftp.completeOperation. simpl.
    rewrite list_lookup_alter_eq, Ho. simpl. eexists. split; [reflexivity|].
    by simpl.
Qed.

(** The invariant of an upload among others is kept by the scheduler. *)
Lemma run_upload_among_served k l path content m w :
  among_served l path (upload_going path content m)
    (upload_ended path content m) w →
  among_served l path (upload_going path content m)
    (upload_ended path content m) (run k w).
Proof.
  apply run_among_served.
  - apply upload_going_files.
  - apply upload_ended_files.
  - intros g w' o Hflt Ho Hp <- Hst Hgoing.
    by apply (exec_upload_going path content m g w' o).
Qed.

(** The state in which an upload starts among goroutines that act on other
    paths, on a server with no fault in store. *)
Lemma upload_among_served_start path content m c w :
  faults (asyncsftp.remote w) = [] →
  Forall (λ g, owner g < length (asyncsftp.heap w) ∧ away path w g)
    (asyncsftp.goroutines w) →
  (∀ f, files (asyncsftp.remote w) !! path = Some f → is_dir f = false) →
  among_served (length (asyncsftp.heap w)) path (upload_going path content m)
    (upload_ended path content m)
    (asyncsftp.StartUpload path content m c w).2.
Proof.
  intros Hflt Hothers Hplain. unfold asyncsftp.StartUpload. simpl.
  set (l := length (asyncsftp.heap w)).
  split; [done|]. eexists. split; [by apply list_lookup_middle|].
  split; [done|]. left.
  exists (asyncsftp.goroutines w), (asyncsftp.doUpload l content m), [].
  split; [reflexivity|]. rewrite app_nil_r.
  split; [|by repeat split].
  eapply Forall_impl; [exact Hothers|]. intros g (Hlt & Hpath & Hf).
  split; [subst l; lia|]. split; [|done].
  unfold asyncsftp.path_of in *. simpl. by rewrite lookup_app_l.
Qed.

(** X16.  An upload among others.  On a server that serves every call,
    where the goroutines in flight act on other paths and the path holds a
    plain file or nothing, an upload that is started completes: after seven
    steps of the scheduler for each goroutine, the new one included, in any
    order, no goroutine is left and [GetStatus] of the id that
    [StartUpload] returned shows the record Completed, with no error
    message, the server holding the content with the mode at the path, and
    the result giving path, content, the four octal digits of the
    permission bits, the length of the content and the modification time
    of that file. *)
Theorem upload_among_others_completes (path content : string) (m : FileMode)
    (c : asyncsftp.Client) (w : asyncsftp.World) (k : nat) :
  faults (asyncsftp.remote w) = [] →
  Forall (λ g, owner g < length (asyncsftp.heap w) ∧ away path w g)
    (asyncsftp.goroutines w) →
  (∀ f, files (asyncsftp.remote w) !! path = Some f → is_dir f = false) →
  7 * S (length (asyncsftp.goroutines w)) ≤ k →
  let up := asyncsftp.StartUpload path content m c w in
  ∃ o,
    asyncsftp.GetStatus up.1.1 up.1.2 (run k up.2) = inr o
    ∧ asyncsftp.State o = asyncsftp.StateCompleted
    ∧ asyncsftp.op_Error o = EmptyString
    ∧ upload_result path content m (asyncsftp.remote (run k up.2))
        (asyncsftp.Result o)
    ∧ asyncsftp.goroutines (run k up.2) = [].
Proof.
  intros Hflt Hothers Hplain Hk up.
  pose proof (upload_among_served_start path content m c w Hflt Hothers Hplain)
    as H1. fold up in H1.
  assert (asyncsftp.goroutines (run k up.2) = []) as Hout.
  { apply run_out. pose proof (work_bound up.2) as Hb.
    subst up. unfold asyncsftp.StartUpload in *. simpl in *.
    rewrite length_app in Hb. simpl in Hb. lia. }
  destruct (among_served_out _ _ _ _ _
              (run_upload_among_served k _ _ _ _ _ H1) Hout)
    as (o & Ho & (Hdone & He & Hresult) & _).
  exists o. split; [|done].
  subst up. unfold asyncsftp.StartUpload, asyncsftp.GetStatus in *.
  simpl in *. by rewrite lookup_insert_eq, Ho, Copy_id.
Qed.

Lemma upload_among_others_completes_witness :
  ∃ o,
    asyncsftp.GetStatus "op-1"
      (asyncsftp.StartUpload "/upload/a.txt" "hi" 420%N sample.busy_client
         sample.busy_world).1.2
      (run 14 (asyncsftp.StartUpload "/upload/a.txt" "hi" 420%N
                 sample.busy_client sample.busy_world).2) = inr o
    ∧ asyncsftp.State o = asyncsftp.StateCompleted.
Proof.
  destruct (upload_among_others_completes "/upload/a.txt" "hi" 420%N
              sample.busy_client sample.busy_world 14)
    as (o & Hget & Hst & _).
  - reflexivity.
  - apply Forall_cons. split; [|apply Forall_nil_2].
    split; [vm_compute; lia|]. split; [|exact I]. vm_compute. discriminate.
  - intros f. vm_compute. discriminate.
  - simpl. lia.
  - exists o. split; [exact Hget|exact Hst].
Defined.

Lemma delete_going_files path o r r' g :
  files r' !! path = files r !! path →
  delete_going path o r g → delete_going path o r' g.
Proof. intros Hf. unfold delete_going. destruct g; by rewrite ?Hf. Qed.

Lemma delete_ended_files path o r r' :
  files r' !! path = files r !! path →
  delete_ended path o r → delete_ended path o r'.
Proof. intros Hf. unfold delete_ended. by rewrite Hf. Qed.

(** A step of the goroutine of the delete on a server with no fault in
    store. *)
Lemma exec_delete_going path g w o :
  faults (asyncsftp.remote w) = [] →
  asyncsftp.heap w !! owner g = Some o →
  asyncsftp.op_Path o = path →
  asyncsftp.State o = asyncsftp.StateInProgress →
  delete_going path o (asyncsftp.remote w) g →
  ∃ o', asyncsftp.heap (asyncsftp.exec g w).2 !! owner g = Some o'
        ∧ asyncsftp.op_Path o' = path
        ∧ match (asyncsftp.exec g w).1 with
          | Some g' =>
              owner g' = owner g
              ∧ asyncsftp.State o' = asyncsftp.StateInProgress
              ∧ delete_going path o'
                  (asyncsftp.remote (asyncsftp.exec g w).2) g'
          | None =>
              delete_ended path o' (asyncsftp.remote (asyncsftp.exec g w).2)
          end.
Proof.
  intros Hflt Ho Hp Hst (He & Hres & Hpoint).
  pose proof (path_of_lookup _ _ _ Ho) as Hpath. rewrite Hp in Hpath.
  assert (serves 1 (faults (asyncsftp.remote w)) = true) as Hs
    by (by rewrite Hflt).
  unfold delete_going, delete_ended.
  destruct g as [| | | | | |op|op st err]; try done; simpl in *.
  - rewrite on_remote_eq, Hpath. simpl.
    destruct (sftp_Remove_served path (asyncsftp.remote w) 0 Hs Hpoint)
      as (Hf & _ & Hr).
    destruct (sftp_Remove path (asyncsftp.remote w)) as [res r1]. simpl in *.
    assert (files r1 !! path = None) as Hgone
      by (by rewrite Hf, lookup_delete_eq).
    exists o. destruct Hr as [-> | ->]; simpl; by repeat split.
  - destruct Hpoint as (-> & -> & Hgone).
    unfold asyncsftp.completeOperation. simpl.
    rewrite list_lookup_alter_eq, Ho. simpl. eexists. split; [reflexivity|].
    by simpl.
Qed.

(** The invariant of a delete among others is kept by the scheduler. *)
Lemma run_delete_among_served k l path w :
  among_served l path (delete_going path) (delete_ended path) w →
  among_served l path (delete_going path) (delete_ended path) (run k w).
Proof.
  apply run_among_served.
  - apply delete_going_files.
  - apply delete_ended_files.
  - intros g w' o Hflt Ho Hp <- Hst Hgoing.
    by apply (exec_delete_going path g w' o).
Qed.

(** X17.  [Delete] on a server that serves every call.  With a client at
    hand, while the goroutines in flight act on other paths, for a native
    id at which the server holds a plain file, given fuel beyond the load
    of the world: [Delete] returns Success with the native id, no request
    id, no properties and no error code, and the path is gone from the
    server when it returns. *)
Theorem Delete_on_a_server_that_serves (env : Env) (fuel : nat)
    (req : DeleteRequest) (p p' : Plugin) (c : asyncsftp.Client)
    (w : asyncsftp.World) (n : RemoteFile) :
  getClient env (delete_TargetConfig req) p = (inr c, p') →
  faults (asyncsftp.remote w) = [] →
  Forall (λ g, owner g < length (asyncsftp.heap w)
               ∧ away (delete_NativeID req) w g) (asyncsftp.goroutines w) →
  files (asyncsftp.remote w) !! delete_NativeID req = Some n →
  is_dir n = false →
  load w + 2 < fuel →
  let nid := delete_NativeID req in
  ∃ p1 w',
    Delete env fuel req p w
    = Some (({| Operation := resource.OperationDelete;
                OperationStatus := resource.OperationStatusSuccess;
                RequestID := EmptyString; NativeID := nid;
                ResourceProperties := None; ErrorCode := None;
                StatusMessage := EmptyString |}, None), p1, w')
    ∧ files (asyncsftp.remote w') !! nid = None.
Proof.
  intros Hc Hflt Hothers Hn Hd Hfuel nid. unfold Delete. rewrite Hc. fold nid.
  assert (serves 3 (faults (asyncsftp.remote w)) = true) as Hs3
    by (by rewrite Hflt).
  pose proof (ReadFile_present nid w n Hn Hd Hs3) as Hprobe.
  pose proof (ReadFile_inr_faults nid w _ Hprobe) as Hfaults.
  rewrite Hflt in Hfaults. simpl in Hfaults.
  destruct (ReadFile_undisturbed nid w) as (Hf & _ & _ & Hh & Hg & Hsch & _ & Hu).
  destruct (asyncsftp.ReadFile nid w) as [res wr].
  simpl in Hprobe, Hfaults, Hf, Hh, Hg, Hsch, Hu |- *. subst res.
  unfold asyncsftp.StartDelete. simpl.
  set (id := asyncsftp.uuid_String (asyncsftp.uuid_next wr)).
  set (l := length (asyncsftp.heap wr)).
  match goal with
  | |- context [Delete_wait fuel id nid ?c ?w] => set (c1 := c); set (w1 := w)
  end.
  assert (among_served l nid (delete_going nid) (delete_ended nid) w1) as H1.
  { split; [done|]. eexists. split; [by apply list_lookup_middle|].
    split; [done|]. left.
    exists (asyncsftp.goroutines wr), (asyncsftp.doDelete l), [].
    split; [reflexivity|]. rewrite app_nil_r. split.
    - rewrite Hg. eapply Forall_impl; [exact Hothers|].
      intros g (Hlt & Hpath & Hfile).
      split; [subst l; rewrite Hh; lia|]. split; [|done].
      unfold asyncsftp.path_of in *. subst w1. simpl.
      rewrite Hh. by rewrite lookup_app_l.
    - do 2 (split; [done|]). repeat split; try done. simpl.
      intros f. rewrite Hf. unfold nid. rewrite Hn. by intros [= <-]. }
  assert (live l w1) as Hlive.
  { eexists. split; [by apply list_lookup_middle|]. intros _.
    exists (asyncsftp.doDelete l). split; [|done]. subst w1. simpl. set_solver. }
  assert (load w1 < fuel) as Hload.
  { subst w1. unfold load in *. simpl. rewrite Hsch, Hg.
    rewrite sum_list_with_app. simpl. lia. }
  destruct (Delete_wait_ends fuel id nid c1 w1 l)
    as (k & r & o & Hw & Ho & _ & Hr);
    [by simpl; rewrite lookup_insert_eq|done|done|].
  rewrite Hw.
  destruct (among_served_terminal _ _ _ _ _ o
              (run_delete_among_served k _ _ _ H1) Ho)
    as ((Hdone & _ & _ & Hgone) & _).
  { destruct Hr as [(-> & _)|(-> & _)]; done. }
  destruct Hr as [(_ & ->)|(Hfail & _)]; [|congruence].
  by exists {| client := Some c1 |}, (run k w1).
Qed.

Lemma Delete_on_a_server_that_serves_witness :
  ∃ p1 w',
    Delete sample.env 23
      {| delete_NativeID := "/upload/a.txt";
         delete_TargetConfig := sample.target |}
      {| client := Some scenario.crowded_client |} scenario.crowded_world
    = Some (({| Operation := resource.OperationDelete;
                OperationStatus := resource.OperationStatusSuccess;
                RequestID := EmptyString; NativeID := "/upload/a.txt";
                ResourceProperties := None; ErrorCode := None;
                StatusMessage := EmptyString |}, None), p1, w')
    ∧ files (asyncsftp.remote w') !! "/upload/a.txt" = None.
Proof.
  apply (Delete_on_a_server_that_serves sample.env 23
           {| delete_NativeID := "/upload/a.txt";
              delete_TargetConfig := sample.target |}
           {| client := Some scenario.crowded_client |}
           {| client := Some scenario.crowded_client |}
           scenario.crowded_client scenario.crowded_world
           {| is_dir := false; data := "hi"; mode := 420%N; mtime := 99%Z |}).
  - reflexivity.
  - reflexivity.
  - apply Forall_cons. split; [|apply Forall_nil_2].
    split; [vm_compute; lia|]. split; [|exact I]. vm_compute. discriminate.
  - reflexivity.
  - reflexivity.
  - vm_compute. lia.
Defined.

(** ** Update *)

(** The wait loop of [Update] ends, as that of [Delete] does: at the first
    world in which the record is terminal; it breaks for Completed and
    returns Failure with the message of the record for Failed. *)
Lemma Update_wait_ends fuel id c w l :
  asyncsftp.operations c !! id = Some l →
  live l w →
  load w < fuel →
  ∃ k res o,
    Update_wait fuel id c w = Some (res, run k w)
    ∧ asyncsftp.heap (run k w) !! l = Some o
    ∧ (∀ j, j < k →
         asyncsftp.State <$> asyncsftp.heap (run j w) !! l
         = Some asyncsftp.StateInProgress)
    ∧ ((asyncsftp.State o = asyncsftp.StateCompleted ∧ res = None)
       ∨ (asyncsftp.State o = asyncsftp.StateFailure
          ∧ res = Some (failure resource.OperationUpdate
                          resource.OperationErrorCodeInternalFailure
                          (asyncsftp.op_Error o)))).
Proof.
  intros Hid. revert w. induction fuel as [|fuel IH]; intros w Hlive Hload; [lia|].
  pose proof Hlive as (o & Ho & Hg). simpl.
  unfold asyncsftp.GetStatus. rewrite Hid, Ho, Copy_id.
  destruct (asyncsftp.State o) eqn:Hst.
  - destruct (Hg eq_refl) as (g & Hin & _).
    assert (asyncsftp.goroutines w ≠ []) as Hne
      by (by intros E; rewrite E in Hin; inversion Hin).
    pose proof (sched_load _ Hne).
    destruct (IH (asyncsftp.sched w)) as (k & r & o' & Hw & Ho' & Hbefore & Hr);
      [by eapply sched_live|lia|].
    exists (S k), r, o'. rewrite run_S. split; [done|]. split; [done|].
    split; [|done]. intros [|j] Hj; [by simpl; rewrite Ho; simpl; rewrite Hst|].
    rewrite run_S. apply Hbefore. lia.
  - eexists 0, _, o. split; [reflexivity|]. split; [done|].
    split; [intros; lia|]. by left.
  - eexists 0, _, o. split; [reflexivity|]. split; [done|].
    split; [intros; lia|]. by right.
Qed.

(** Where the wait loop of [Update] ends when it ends: after some steps of
    the scheduler; it breaks only on a record that is Completed, and what
    it returns otherwise is a Failure. *)
Lemma Update_wait_Some fuel id c w res w' :
  Update_wait fuel id c w = Some (res, w') →
  ∃ k, w' = run k w
       ∧ match res with
         | None => ∃ o, asyncsftp.GetStatus id c w' = inr o
                        ∧ asyncsftp.State o = asyncsftp.StateCompleted
         | Some r =>
             ∃ msg, r = failure resource.OperationUpdate
                          resource.OperationErrorCodeInternalFailure msg
         end.
Proof.
  revert w. induction fuel as [|fuel IH]; intros w; [done|]. simpl.
  destruct (asyncsftp.GetStatus id c w) as [err|o] eqn:Hget.
  - intros [= <- <-]. exists 0. split; [done|]. by eexists.
  - destruct (asyncsftp.State o) eqn:Hst.
    + intros H. destruct (IH _ H) as (k & -> & Hres).
      exists (S k). by rewrite run_S.
    + intros [= <- <-]. exists 0. split; [done|]. by exists o.
    + intros [= <- <-]. exists 0. split; [done|]. by eexists.
Qed.

(** What [Update] returns from its read-back. *)
Lemma Update_readback_eq env req p w :
  ∃ r, Update_readback env req p w
       = ((r, None), p, (asyncsftp.ReadFile (update_NativeID req) w).2)
       ∧ match (asyncsftp.ReadFile (update_NativeID req) w).1 with
         | inr fileInfo =>
             r = {| Operation := resource.OperationUpdate;
                    OperationStatus := resource.OperationStatusSuccess;
                    RequestID := EmptyString; NativeID := update_NativeID req;
                    ResourceProperties := Some (props_of env fileInfo);
                    ErrorCode := None; StatusMessage := EmptyString |}
         | inl err =>
             r = failure resource.OperationUpdate
                   resource.OperationErrorCodeInternalFailure (Error err)
         end.
Proof.
  unfold Update_readback.
  destruct (asyncsftp.ReadFile (update_NativeID req) w) as [[err|fi] w'];
    by eexists.
Qed.

(** [Update] rewrites the file when the prior properties are not read or
    give another content. *)
Lemma Update_rewrite_eq env fuel req p p' c w desiredProps :
  getClient env (update_TargetConfig req) p = (inr c, p') →
  parseFileProperties (DesiredProperties req) = inr desiredProps →
  (∀ priorProps, parseFileProperties (PriorProperties req) = inr priorProps →
     Content priorProps ≠ Content desiredProps) →
  Update env fuel req p w = Update_rewrite env fuel req desiredProps c w.
Proof.
  intros Hc Hd Hp. unfold Update. rewrite Hc, Hd.
  destruct (parseFileProperties (PriorProperties req)) as [e|prior]; [done|].
  by rewrite bool_decide_eq_true_2 by (by apply Hp).
Qed.

(** X18.  [Update] when the prior properties cannot be read or give another
    content than the desired ones.  With a client at hand and desired
    properties that are read, it starts one upload job of the desired
    content, with the mode scanned from the desired permission text, to the
    native id of the request (not to the path of the desired properties),
    and waits: given fuel beyond the load of the world, the wait ends at
    the first world where the record is terminal.  If the job has Failed,
    the result is Failure with InternalFailure and the error message of the
    record; if it is Completed, the file is read back, and the result is
    Success with the properties as read, or Failure with InternalFailure
    and the message of the read error. *)
Theorem Update_rewrites_then_reads_back (env : Env) (fuel : nat)
    (req : UpdateRequest) (p p' : Plugin) (c : asyncsftp.Client)
    (w : asyncsftp.World) (desiredProps : FileProperties) :
  getClient env (update_TargetConfig req) p = (inr c, p') →
  parseFileProperties (DesiredProperties req) = inr desiredProps →
  (∀ priorProps, parseFileProperties (PriorProperties req) = inr priorProps →
     Content priorProps ≠ Content desiredProps) →
  load w + 7 < fuel →
  let nid := update_NativeID req in
  let m := Sscanf_o (Permissions desiredProps) 420%N in
  let id := asyncsftp.uuid_String (asyncsftp.uuid_next w) in
  let l := length (asyncsftp.heap w) in
  let c1 := {| asyncsftp.operations := <[id := l]> (asyncsftp.operations c) |} in
  let w1 := (asyncsftp.StartUpload nid (Content desiredProps) m c w).2 in
  ∃ k o r w',
    Update env fuel req p w = Some ((r, None), {| client := Some c1 |}, w')
    ∧ asyncsftp.goroutines w1
      = asyncsftp.goroutines w
        ++ [asyncsftp.doUpload l (Content desiredProps) m]
    ∧ asyncsftp.GetStatus id c1 (run k w1) = inr o
    ∧ asyncsftp.op_Type o = asyncsftp.OperationTypeUpload
    ∧ asyncsftp.op_Path o = nid
    ∧ (∀ j, j < k →
         asyncsftp.State <$> asyncsftp.heap (run j w1) !! l
         = Some asyncsftp.StateInProgress)
    ∧ ((asyncsftp.State o = asyncsftp.StateFailure
        ∧ w' = run k w1
        ∧ r = failure resource.OperationUpdate
                resource.OperationErrorCodeInternalFailure
                (asyncsftp.op_Error o))
       ∨ (asyncsftp.State o = asyncsftp.StateCompleted
          ∧ w' = (asyncsftp.ReadFile nid (run k w1)).2
          ∧ match (asyncsftp.ReadFile nid (run k w1)).1 with
            | inr fileInfo =>
                r = {| Operation := resource.OperationUpdate;
                       OperationStatus := resource.OperationStatusSuccess;
                       RequestID := EmptyString; NativeID := nid;
                       ResourceProperties := Some (props_of env fileInfo);
                       ErrorCode := None; StatusMessage := EmptyString |}
            | inl err =>
                r = failure resource.OperationUpdate
                      resource.OperationErrorCodeInternalFailure (Error err)
            end)).
Proof.
  intros Hc Hd Hp Hfuel nid m id l c1 w1.
  rewrite (Update_rewrite_eq _ _ _ _ _ _ _ _ Hc Hd Hp).
  unfold Update_rewrite.
  rewrite bool_decide_eq_true_2
    by (by destruct (parseFileProperties_inr _ _ Hd) as (_ & ? & _)).
  fold nid m. subst w1. unfold asyncsftp.StartUpload. simpl. fold id l c1.
  set (o0 := {| asyncsftp.ID := id;
                asyncsftp.op_Type := asyncsftp.OperationTypeUpload;
                asyncsftp.op_Path := nid;
                asyncsftp.State := asyncsftp.StateInProgress;
                asyncsftp.op_Error := EmptyString; asyncsftp.Result := None;
                asyncsftp.StartedAt := asyncsftp.clock w;
                asyncsftp.CompletedAt := 0%Z |}).
  match goal with
  | |- context [Update_wait fuel id c1 ?w] => set (w1 := w)
  end.
  assert (asyncsftp.heap w1 !! l = Some o0) as Ho0
    by (by apply list_lookup_middle).
  assert (live l w1) as Hlive.
  { exists o0. split; [done|]. intros _.
    exists (asyncsftp.doUpload l (Content desiredProps) m).
    split; [|done]. subst w1. simpl. set_solver. }
  assert (load w1 < fuel) as Hload.
  { subst w1. unfold load in *. simpl. rewrite sum_list_with_app. simpl. lia. }
  destruct (Update_wait_ends fuel id c1 w1 l) as (k & res & o & Hw & Ho & Hb & Hr);
    [by simpl; rewrite lookup_insert_eq|done|done|].
  rewrite Hw.
  destruct (run_same_job k _ _ _ Ho0) as (o' & Ho' & Hj).
  rewrite Ho in Ho'. injection Ho' as <-. destruct Hj as (HI & HT & HP & _).
  assert (asyncsftp.GetStatus id c1 (run k w1) = inr o) as Hget
    by (by unfold asyncsftp.GetStatus; simpl; rewrite lookup_insert_eq, Ho, Copy_id).
  destruct Hr as [(Hdone & ->)|(Hfail & ->)].
  - destruct (Update_readback_eq env req {| client := Some c1 |} (run k w1))
      as (r & -> & Hr). fold nid in Hr |- *.
    exists k, o, r, (asyncsftp.ReadFile nid (run k w1)).2.
    split; [done|]. do 5 (split; [done|]). right. by repeat split.
  - eexists k, o, _, (run k w1). split; [reflexivity|].
    do 5 (split; [done|]). left. by repeat split.
Qed.

Lemma Update_rewrites_then_reads_back_witness :
  ∃ k o r w',
    Update sample.env 8
      {| update_NativeID := "/upload/a.txt";
         PriorProperties := Encodes sample.props;
         DesiredProperties :=
           Encodes {| Path := "/upload/a.txt"; Content := "new";
                      Permissions := "0600"; Size := 0;
                      ModifiedAt := EmptyString |};
         update_TargetConfig := sample.target |}
      sample.connected sample.world_with_file
    = Some ((r, None),
            {| client := Some {| asyncsftp.operations := <["op-0" := 0]> ∅ |} |},
            w')
    ∧ asyncsftp.GetStatus "op-0"
        {| asyncsftp.operations := <["op-0" := 0]> ∅ |}
        (run k (asyncsftp.StartUpload "/upload/a.txt" "new" 384%N
                  sample.fresh_client sample.world_with_file).2)
      = inr o.
Proof.
  destruct (Update_rewrites_then_reads_back sample.env 8
              {| update_NativeID := "/upload/a.txt";
                 PriorProperties := Encodes sample.props;
                 DesiredProperties :=
                   Encodes {| Path := "/upload/a.txt"; Content := "new";
                              Permissions := "0600"; Size := 0;
                              ModifiedAt := EmptyString |};
                 update_TargetConfig := sample.target |}
              sample.connected sample.connected sample.fresh_client
              sample.world_with_file
              {| Path := "/upload/a.txt"; Content := "new";
                 Permissions := "0600"; Size := 0; ModifiedAt := EmptyString |})
    as (k & o & r & w' & Heq & _ & Hget & _).
  - reflexivity.
  - reflexivity.
  - intros priorProps [= <-]. simpl. discriminate.
  - vm_compute. lia.
  - exists k, o, r, w'. split; [exact Heq|exact Hget].
Defined.

(** X19.  When [Update] rewrites the file (prior properties not read, or
    another content) while the goroutines in flight act on other paths,
    and it returns Success, the properties it returns are those of the
    desired state: the native id as path, the desired content, the four
    octal digits of the permission bits of the desired mode, and the
    length of the content as size. *)
Theorem Update_success_shows_desired (env : Env) (fuel : nat)
    (req : UpdateRequest) (p p' : Plugin) (c : asyncsftp.Client)
    (w : asyncsftp.World) (desiredProps : FileProperties)
    (out : (ProgressResult * option error) * Plugin * asyncsftp.World) :
  getClient env (update_TargetConfig req) p = (inr c, p') →
  parseFileProperties (DesiredProperties req) = inr desiredProps →
  (∀ priorProps, parseFileProperties (PriorProperties req) = inr priorProps →
     Content priorProps ≠ Content desiredProps) →
  Forall (λ g, owner g < length (asyncsftp.heap w)
               ∧ away (update_NativeID req) w g) (asyncsftp.goroutines w) →
  Update env fuel req p w = Some out →
  OperationStatus out.1.1.1 = resource.OperationStatusSuccess →
  ∃ t,
    ResourceProperties out.1.1.1
    = Some {| Path := update_NativeID req; Content := Content desiredProps;
              Permissions :=
                Sprintf_04o (Perm (Sscanf_o (Permissions desiredProps) 420%N));
              Size := Z.of_nat (String.length (Content desiredProps));
              ModifiedAt := t |}.
Proof.
  intros Hc Hd Hp Hothers.
  rewrite (Update_rewrite_eq _ _ _ _ _ _ _ _ Hc Hd Hp).
  unfold Update_rewrite.
  rewrite bool_decide_eq_true_2
    by (by destruct (parseFileProperties_inr _ _ Hd) as (_ & ? & _)).
  set (nid := update_NativeID req) in *.
  set (m := Sscanf_o (Permissions desiredProps) 420%N).
  unfold asyncsftp.StartUpload. simpl.
  set (id := asyncsftp.uuid_String (asyncsftp.uuid_next w)).
  set (l := length (asyncsftp.heap w)).
  match goal with
  | |- context [Update_wait fuel id ?c ?w] => set (c1 := c); set (w1 := w)
  end.
  assert (upload_among l nid (Content desiredProps) m w1) as H1.
  { eexists. split; [by apply list_lookup_middle|].
    split; [done|]. left.
    exists (asyncsftp.goroutines w),
      (asyncsftp.doUpload l (Content desiredProps) m), [].
    split; [reflexivity|]. rewrite app_nil_r.
    split; [|by repeat split].
    eapply Forall_impl; [exact Hothers|]. intros g (Hlt & Hpath & Hf).
    split; [subst l; lia|]. split; [|done].
    unfold asyncsftp.path_of in *. subst w1. simpl.
    by rewrite lookup_app_l. }
  destruct (Update_wait fuel id c1 w1) as [[[r|] w2]|] eqn:Hw; [| |done].
  - intros [= <-]. simpl.
    by destruct (Update_wait_Some _ _ _ _ _ _ Hw) as (k & _ & msg & ->).
  - destruct (Update_wait_Some _ _ _ _ _ _ Hw) as (k & -> & o & Hget & Hdone).
    destruct (Update_readback_eq env req {| client := Some c1 |} (run k w1))
      as (r & -> & Hr). fold nid in Hr.
    intros [= <-]. simpl.
    pose proof (ReadFile_inr nid (run k w1)) as Hin.
    destruct (asyncsftp.ReadFile nid (run k w1)).1 as [err|fi];
      [by subst r|].
    destruct (Hin fi eq_refl) as (n & Hn & _ & ->). subst r. simpl. intros _.
    destruct (run_upload_among k _ _ _ _ _ H1) as (o' & Ho' & _ & Hcases).
    apply GetStatus_inr in Hget as (l' & Hl' & Ho). simpl in Hl'.
    rewrite lookup_insert_eq in Hl'. injection Hl' as <-.
    rewrite Ho in Ho'. injection Ho' as <-.
    destruct Hcases as [(pre & g & post & _ & _ & _ & Hst & _)|(_ & Hup)];
      [congruence|].
    destruct (Hup Hdone) as (n' & Hn' & _ & Hdata & Hmode).
    rewrite Hn in Hn'. injection Hn' as <-.
    exists (time_Format env (mtime n)). unfold props_of. simpl.
    by rewrite Hdata, Hmode.
Qed.

Lemma Update_success_shows_desired_witness :
  ∃ out t,
    Update sample.env 8
      {| update_NativeID := "/upload/a.txt";
         PriorProperties := Malformed EFAILURE;
         DesiredProperties :=
           Encodes {| Path := "/elsewhere"; Content := "new";
                      Permissions := "0600"; Size := 0;
                      ModifiedAt := EmptyString |};
         update_TargetConfig := sample.target |}
      sample.connected sample.world_with_file = Some out
    ∧ ResourceProperties out.1.1.1
      = Some {| Path := "/upload/a.txt"; Content := "new";
                Permissions := "0600"; Size := 3; ModifiedAt := t |}.
Proof.
  destruct (Update sample.env 8
              {| update_NativeID := "/upload/a.txt";
                 PriorProperties := Malformed EFAILURE;
                 DesiredProperties :=
                   Encodes {| Path := "/elsewhere"; Content := "new";
                              Permissions := "0600"; Size := 0;
                              ModifiedAt := EmptyString |};
                 update_TargetConfig := sample.target |}
              sample.connected sample.world_with_file) as [out|] eqn:E;
    [|revert E; vm_compute; discriminate].
  destruct (Update_success_shows_desired sample.env 8
              {| update_NativeID := "/upload/a.txt";
                 PriorProperties := Malformed EFAILURE;
                 DesiredProperties :=
                   Encodes {| Path := "/elsewhere"; Content := "new";
                              Permissions := "0600"; Size := 0;
                              ModifiedAt := EmptyString |};
                 update_TargetConfig := sample.target |}
              sample.connected sample.connected sample.fresh_client
              sample.world_with_file
              {| Path := "/elsewhere"; Content := "new";
                 Permissions := "0600"; Size := 0; ModifiedAt := EmptyString |}
              out) as (t & Ht).
  - reflexivity.
  - reflexivity.
  - intros priorProps. discriminate.
  - apply Forall_nil_2.
  - exact E.
  - revert E. vm_compute. intros [= <-]. reflexivity.
  - exists out, t. split; [reflexivity|exact Ht].
Defined.

(** X20.  [Update] on a server that serves every call.  With a client at
    hand and desired properties that are read, when the prior properties
    cannot be read or give another content, while the goroutines in flight
    act on other paths and the native id holds a plain file or nothing,
    given fuel beyond the load of the world: [Update] returns Success with
    the native id of the request, no request id, and the properties of the
    desired state (the native id as path, the desired content, the four
    octal digits of the permission bits of the mode scanned from the
    desired permission text, the length of the content, a formatted
    modification time), and the server holds the desired content with
    that mode at the native id when it returns. *)
Theorem Update_on_a_server_that_serves (env : Env) (fuel : nat)
    (req : UpdateRequest) (p p' : Plugin) (c : asyncsftp.Client)
    (w : asyncsftp.World) (desiredProps : FileProperties) :
  getClient env (update_TargetConfig req) p = (inr c, p') →
  parseFileProperties (DesiredProperties req) = inr desiredProps →
  (∀ priorProps, parseFileProperties (PriorProperties req) = inr priorProps →
     Content priorProps ≠ Content desiredProps) →
  faults (asyncsftp.remote w) = [] →
  Forall (λ g, owner g < length (asyncsftp.heap w)
               ∧ away (update_NativeID req) w g) (asyncsftp.goroutines w) →
  (∀ f, files (asyncsftp.remote w) !! update_NativeID req = Some f →
     is_dir f = false) →
  load w + 7 < fuel →
  let nid := update_NativeID req in
  let m := Sscanf_o (Permissions desiredProps) 420%N in
  ∃ t p1 w',
    Update env fuel req p w
    = Some (({| Operation := resource.OperationUpdate;
                OperationStatus := resource.OperationStatusSuccess;
                RequestID := EmptyString; NativeID := nid;
                ResourceProperties :=
                  Some {| Path := nid; Content := Content desiredProps;
                          Permissions := Sprintf_04o (Perm m);
                          Size :=
                            Z.of_nat (String.length (Content desiredProps));
                          ModifiedAt := time_Format env t |};
                ErrorCode := None; StatusMessage := EmptyString |}, None),
            p1, w')
    ∧ uploaded nid (Content desiredProps) m (asyncsftp.remote w').
Proof.
  intros Hc Hd Hp Hflt Hothers Hplain Hfuel nid m.
  rewrite (Update_rewrite_eq _ _ _ _ _ _ _ _ Hc Hd Hp).
  unfold Update_rewrite.
  rewrite bool_decide_eq_true_2
    by (by destruct (parseFileProperties_inr _ _ Hd) as (_ & ? & _)).
  fold nid m.
  pose proof (upload_among_served_start nid (Content desiredProps) m c w
                Hflt Hothers Hplain) as H1.
  unfold asyncsftp.StartUpload in *. simpl in *.
  set (id := asyncsftp.uuid_String (asyncsftp.uuid_next w)) in *.
  set (l := length (asyncsftp.heap w)) in *.
  match goal with
  | |- context [Update_wait fuel id ?c ?w] => set (c1 := c); set (w1 := w) in *
  end.
  assert (live l w1) as Hlive.
  { eexists. split; [by apply list_lookup_middle|]. intros _.
    exists (asyncsftp.doUpload l (Content desiredProps) m).
    split; [|done]. subst w1. simpl. set_solver. }
  assert (load w1 < fuel) as Hload.
  { subst w1. unfold load in *. simpl. rewrite sum_list_with_app. simpl. lia. }
  destruct (Update_wait_ends fuel id c1 w1 l) as (k & res & o & Hw & Ho & _ & Hr);
    [by simpl; rewrite lookup_insert_eq|done|done|].
  rewrite Hw.
  destruct (among_served_terminal _ _ _ _ _ o
              (run_upload_among_served k _ _ _ _ _ H1) Ho)
    as ((Hdone & _ & n & Hn & Hdir & Hdata & Hmode & _) & Hflt').
  { destruct Hr as [(-> & _)|(-> & _)]; done. }
  destruct Hr as [(_ & ->)|(Hfail & _)]; [|congruence].
  unfold Update_readback. fold nid.
  assert (serves 3 (faults (asyncsftp.remote (run k w1))) = true) as Hs3
    by (by rewrite Hflt').
  pose proof (ReadFile_present nid (run k w1) n Hn Hdir Hs3) as Hread.
  destruct (ReadFile_undisturbed nid (run k w1)) as (Hfiles & _).
  destruct (asyncsftp.ReadFile nid (run k w1)) as [res wr]. simpl in *.
  subst res. exists (mtime n), {| client := Some c1 |}, wr.
  unfold props_of. simpl. rewrite Hdata, Hmode. split; [done|].
  exists n. by rewrite Hfiles.
Qed.

Lemma Update_on_a_server_that_serves_witness :
  ∃ p1 w',
    Update sample.env 30
      {| update_NativeID := "/upload/a.txt";
         PriorProperties := Malformed EFAILURE;
         DesiredProperties :=
           Encodes {| Path := "/elsewhere"; Content := "new";
                      Permissions := "0600"; Size := 0;
                      ModifiedAt := EmptyString |};
         update_TargetConfig := sample.target |}
      {| client := Some sample.busy_client |} sample.busy_world
    = Some (({| Operation := resource.OperationUpdate;
                OperationStatus := resource.OperationStatusSuccess;
                RequestID := EmptyString; NativeID := "/upload/a.txt";
                ResourceProperties :=
                  Some {| Path := "/upload/a.txt"; Content := "new";
                          Permissions := "0600"; Size := 3;
                          ModifiedAt := "2025-01-01T00:00:00Z" |};
                ErrorCode := None; StatusMessage := EmptyString |}, None),
            p1, w').
Proof.
  destruct (Update_on_a_server_that_serves sample.env 30
              {| update_NativeID := "/upload/a.txt";
                 PriorProperties := Malformed EFAILURE;
                 DesiredProperties :=
                   Encodes {| Path := "/elsewhere"; Content := "new";
                              Permissions := "0600"; Size := 0;
                              ModifiedAt := EmptyString |};
                 update_TargetConfig := sample.target |}
              {| client := Some sample.busy_client |}
              {| client := Some sample.busy_client |} sample.busy_client
              sample.busy_world
              {| Path := "/elsewhere"; Content := "new";
                 Permissions := "0600"; Size := 0; ModifiedAt := EmptyString |})
    as (t & p1 & w' & Heq & _).
  - reflexivity.
  - reflexivity.
  - intros priorProps. discriminate.
  - reflexivity.
  - apply Forall_cons. split; [|apply Forall_nil_2].
    split; [vm_compute; lia|]. split; [|exact I]. vm_compute. discriminate.
  - intros f. vm_compute. discriminate.
  - vm_compute. lia.
  - exists p1, w'. exact Heq.
Defined.





(** ** What every verb returns *)

Lemma well_formed_failure op code msg : well_formed (failure op code msg).
Proof. by split. Qed.

(** What the wait loop of [Delete] returns when it ends. *)
Lemma Delete_wait_Some fuel id nid c w r w' :
  Delete_wait fuel id nid c w = Some (r, w') →
  (∃ k, w' = run k w) ∧ well_formed r
  ∧ Operation r = resource.OperationDelete ∧ RequestID r = EmptyString.
Proof.
  revert w. induction fuel as [|fuel IH]; intros w; [done|]. simpl.
  destruct (asyncsftp.GetStatus id c w) as [err|o] eqn:Hget.
  - intros [= <- <-]. split; [by exists 0|]. by split; [apply well_formed_failure|].
  - destruct (asyncsftp.State o) eqn:Hst.
    + intros H. destruct (IH _ H) as ((k & ->) & Hr). split; [|done].
      exists (S k). by rewrite run_S.
    + intros [= <- <-]. split; [by exists 0|]. by split; [split|].
    + intros [= <- <-]. split; [by exists 0|].
      by split; [apply well_formed_failure|].
Qed.

(** An id of the store is never the empty string. *)
Lemma uuid_String_nonempty n : asyncsftp.uuid_String n ≠ EmptyString.
Proof. unfold asyncsftp.uuid_String. by rewrite append_cons. Qed.

(** X22.  No verb returns a Go error: every failure is told in the result.
    The results of [Create], [Update], [Delete] and [Status] name their
    operation and carry an error code exactly when their status is
    Failure; [Read] echoes the resource type; [List] never returns a page
    token.  Only [Create] hands out a request id: its result carries one
    exactly when its status is InProgress, and the results of [Update] and
    [Delete], which wait for their job, carry none.  ([Update] and
    [Delete]: whenever their wait has ended.) *)
Theorem verbs_encode_failure_in_the_result (env : Env) (p : Plugin)
    (w : asyncsftp.World) (fuel : nat) :
  (∀ req, (Create env req p w).1.1.2 = None
          ∧ well_formed (Create env req p w).1.1.1
          ∧ Operation (Create env req p w).1.1.1 = resource.OperationCreate
          ∧ (RequestID (Create env req p w).1.1.1 ≠ EmptyString
             ↔ OperationStatus (Create env req p w).1.1.1
               = resource.OperationStatusInProgress))
  ∧ (∀ req, (Read env req p w).1.1.2 = None
            ∧ read_ResourceType (Read env req p w).1.1.1
              = req_ResourceType req)
  ∧ (∀ req out, Update env fuel req p w = Some out →
       out.1.1.2 = None ∧ well_formed out.1.1.1
       ∧ Operation out.1.1.1 = resource.OperationUpdate
       ∧ RequestID out.1.1.1 = EmptyString)
  ∧ (∀ req out, Delete env fuel req p w = Some out →
       out.1.1.2 = None ∧ well_formed out.1.1.1
       ∧ Operation out.1.1.1 = resource.OperationDelete
       ∧ RequestID out.1.1.1 = EmptyString)
  ∧ (∀ req, (Status env req p w).2 = None
            ∧ well_formed (Status env req p w).1
            ∧ Operation (Status env req p w).1
              = resource.OperationCheckStatus)
  ∧ (∀ req, (List env req p w).1.1.2 = None
            ∧ NextPageToken (List env req p w).1.1.1 = None).
Proof.
  assert (∀ req p' w', (Update_readback env req p' w').1.1.2 = None
                       ∧ well_formed (Update_readback env req p' w').1.1.1
                       ∧ Operation (Update_readback env req p' w').1.1.1
                         = resource.OperationUpdate
                       ∧ RequestID (Update_readback env req p' w').1.1.1
                         = EmptyString) as Hback.
  { intros req p' w'. destruct (Update_readback_eq env req p' w') as (r & -> & Hr).
    simpl. destruct (asyncsftp.ReadFile _ _).1; subst r; by repeat split. }
  assert (∀ req d c w' out, Update_rewrite env fuel req d c w' = Some out →
            out.1.1.2 = None ∧ well_formed out.1.1.1
            ∧ Operation out.1.1.1 = resource.OperationUpdate
            ∧ RequestID out.1.1.1 = EmptyString) as Hrewrite.
  { intros req d c w' out. unfold Update_rewrite.
    destruct (asyncsftp.StartUpload _ _ _ _ _) as [[id c1] w1].
    destruct (Update_wait fuel id c1 w1) as [[[r|] w2]|] eqn:Hw; [| |done].
    - destruct (Update_wait_Some _ _ _ _ _ _ Hw) as (k & _ & msg & ->).
      intros [= <-]. by repeat split.
    - intros [= <-]. apply Hback. }
  split; [|split; [|split; [|split; [|split]]]].
  - intros req. unfold Create.
    destruct (parseFileProperties _) as [e|props]; [by repeat split|].
    destruct (getClient _ _ _) as [[e|c] p1]; [by repeat split|].
    unfold asyncsftp.StartUpload. simpl. do 3 (split; [done|]).
    split; [done|]. intros _. apply uuid_String_nonempty.
  - intros req. unfold Read.
    destruct (getClient _ _ _) as [[e|c] p1]; [done|].
    destruct (asyncsftp.ReadFile _ _) as [[e|fi] w1]; [|done].
    by destruct (errors_Is_ErrNotFound e).
  - intros req out. unfold Update.
    destruct (getClient _ _ _) as [[e|c] p1];
      [by intros [= <-]; repeat split|].
    destruct (parseFileProperties (DesiredProperties req)) as [e|d];
      [by intros [= <-]; repeat split|].
    destruct (parseFileProperties (PriorProperties req)) as [e|pr];
      [by apply Hrewrite|].
    case_bool_decide; [by apply Hrewrite|].
    case_bool_decide; [|intros [= <-]; apply Hback].
    destruct (asyncsftp.SetPermissions _ _ _) as [[e|] w1];
      [by intros [= <-]; repeat split|intros [= <-]; apply Hback].
  - intros req out. unfold Delete.
    destruct (getClient _ _ _) as [[e|c] p1];
      [by intros [= <-]; repeat split|].
    destruct (asyncsftp.ReadFile _ _) as [[e|fi] w1].
    + destruct (errors_Is_ErrNotFound e); intros [= <-]; by repeat split.
    + destruct (asyncsftp.StartDelete _ _ _) as [[id c1] w2].
      destruct (Delete_wait _ _ _ _ _) as [[r w3]|] eqn:Hw; [|done].
      intros [= <-]. simpl.
      by destruct (Delete_wait_Some _ _ _ _ _ _ _ Hw) as (_ & ? & ?).
  - intros req. unfold Status. destruct (client p) as [c|]; [|by repeat split].
    destruct (asyncsftp.GetStatus _ _ _) as [e|o]; [by repeat split|].
    by destruct (asyncsftp.State o); repeat split.
  - intros req. unfold List.
    destruct (getClient _ _ _) as [[e|c] p1]; [done|].
    destruct (asyncsftp.ListFiles _ _) as [[e|paths] w1]; [|done].
    by destruct (errors_Is_ErrNotFound e).
Qed.

(** X23.  Properties that cannot be read.  [parseFileProperties] fails
    either on data that does not decode, with "invalid file properties: "
    and the message of the decoder, or on an empty path, with "file
    properties missing 'path'".  [Create] then returns Failure with
    InvalidRequest and that message without looking for a client: plugin
    and world are as before, whatever the target configuration.  [Update]
    looks for the client first: when there is none to be had it returns
    Failure with InternalFailure and the message of [getClient], and only
    with a client at hand Failure with InvalidRequest and the message of
    the properties; in both cases the world is as before (no job is
    started, no file is touched), whatever the prior properties are. *)
Theorem validation_and_connection_order (env : Env)
    (data : RawMessage FileProperties) (tc : RawMessage TargetConfig)
    (p : Plugin) (w : asyncsftp.World) (fuel : nat) (perr : error) :
  parseFileProperties data = inl perr →
  (Error perr = "file properties missing 'path'"
   ∨ ∃ e, data = Malformed e
          ∧ Error perr = "invalid file properties: " +:+ lib_message e)
  ∧ Create env {| create_Properties := data; create_TargetConfig := tc |} p w
    = ((failure resource.OperationCreate
          resource.OperationErrorCodeInvalidRequest (Error perr), None), p, w)
  ∧ ∀ nid prior,
      Update env fuel
        {| update_NativeID := nid; PriorProperties := prior;
           DesiredProperties := data; update_TargetConfig := tc |} p w
      = match getClient env tc p with
        | (inl err, _) =>
            Some ((failure resource.OperationUpdate
                     resource.OperationErrorCodeInternalFailure (Error err),
                   None), p, w)
        | (inr _, p') =>
            Some ((failure resource.OperationUpdate
                     resource.OperationErrorCodeInvalidRequest (Error perr),
                   None), p', w)
        end.
Proof.
  intros Hperr. split; [|split].
  - revert Hperr. unfold parseFileProperties.
    destruct data as [e|v]; simpl.
    + intros [= <-]. right. by exists e.
    + repeat case_bool_decide; try done. intros [= <-]. by left.
  - unfold Create. simpl. by rewrite Hperr.
  - intros nid prior. unfold Update. simpl.
    destruct (getClient env tc p) as [[err|c] p'] eqn:Hc.
    + by destruct (getClient_inl _ _ _ _ _ Hc) as [-> _].
    + by rewrite Hperr.
Qed.

Lemma validation_and_connection_order_witness :
  Create sample.env_unreachable
    {| create_Properties :=
         Encodes {| Path := EmptyString; Content := "hi";
                    Permissions := "0644"; Size := 0;
                    ModifiedAt := EmptyString |};
       create_TargetConfig := sample.target |}
    sample.no_plugin_client sample.world
  = ((failure resource.OperationCreate
        resource.OperationErrorCodeInvalidRequest
        "file properties missing 'path'", None),
     sample.no_plugin_client, sample.world)
  ∧ Update sample.env_unreachable 0
      {| update_NativeID := "/upload/a.txt";
         PriorProperties := Encodes sample.props;
         DesiredProperties :=
           Encodes {| Path := EmptyString; Content := "hi";
                      Permissions := "0644"; Size := 0;
                      ModifiedAt := EmptyString |};
         update_TargetConfig := sample.target |}
      sample.no_plugin_client sample.world
    = Some ((failure resource.OperationUpdate
               resource.OperationErrorCodeInternalFailure
               "failed to create SFTP client: ssh dial failed: connection refused",
             None), sample.no_plugin_client, sample.world).
Proof.
  destruct (validation_and_connection_order sample.env_unreachable
              (Encodes {| Path := EmptyString; Content := "hi";
                          Permissions := "0644"; Size := 0;
                          ModifiedAt := EmptyString |})
              sample.target sample.no_plugin_client sample.world 0
              (Errorf "file properties missing 'path'"))
    as (_ & Hcreate & Hupdate); [reflexivity|].
  split; [exact Hcreate|].
  exact (Hupdate "/upload/a.txt" (Encodes sample.props)).
Defined.
